(** * Duplicate-file executor and rollback utility: a shallow embedding

    The development embeds the two scripts of the repository,
    [duplicate_executor.py] and [rollback_duplicates.py], as functions over
    an explicit model of the file system, the clock and the Python
    exceptions that the code raises, catches or lets escape. *)

From Stdlib Require Import String Ascii ZArith Bool List Lia.
From stdpp Require Import base option list gmap strings.
From Stdlib Require Import Sorted.

Import ListNotations.
Local Open Scope string_scope.

(** ** Strings and paths

    A [pathlib.Path] is kept as its string form: [str(Path(s)) = s], the
    join [p / name] puts one separator between the two, [Path.name] is what
    follows the last separator and [Path.parent] what precedes it.  Paths
    are taken absolute and already normalised. *)

Definition is_slash (c : ascii) : bool := Ascii.eqb c "/"%char.

Fixpoint has_slash (s : string) : bool :=
  match s with
  | EmptyString => false
  | String c r => is_slash c || has_slash r
  end.

(** [Path.name]: the final path component. *)
Fixpoint path_name (s : string) : string :=
  match s with
  | EmptyString => ""
  | String c r =>
      if has_slash r then path_name r
      else if is_slash c then r else s
  end.

Fixpoint dirname (s : string) : string :=
  match s with
  | EmptyString => ""
  | String c r => if has_slash r then String c (dirname r) else ""
  end.

(** [Path.parent]. *)
Definition path_parent (s : string) : string :=
  match dirname s with
  | EmptyString =>
      match s with
      | String c _ => if is_slash c then "/" else "."
      | EmptyString => "."
      end
  | d => d
  end.

(** [p / name]. *)
Definition path_join (p name : string) : string := p ++ "/" ++ name.

(** The non-empty proper prefixes of a path that end just before a
    separator: the directories [mkdir(parents=True)] may have to create. *)
Fixpoint prefixes_at_slash (acc s : string) : list string :=
  match s with
  | EmptyString => []
  | String c r =>
      (if is_slash c && negb (String.eqb acc "") then [acc] else [])
        ++ prefixes_at_slash (acc ++ String c "") r
  end.

Definition ancestors (p : string) : list string := prefixes_at_slash "" p.

(** ** The clock: [datetime.now()], [strftime] and [isoformat] *)

Record datetime := Datetime {
  year : nat; month : nat; day : nat;
  hour : nat; minute : nat; second : nat; microsecond : nat
}.

Definition digit (n : nat) : ascii := ascii_of_nat (48 + n mod 10).

(** The last [width] decimal digits of [n], zero padded. *)
Fixpoint zfill (width n : nat) : string :=
  match width with
  | O => ""
  | S k => zfill k (n / 10) ++ String (digit n) ""
  end.

(** [strftime('%H%M%S')] *)
Definition strftime_HMS (t : datetime) : string :=
  zfill 2 (hour t) ++ zfill 2 (minute t) ++ zfill 2 (second t).

(** [strftime('%Y%m%d_%H%M%S')] *)
Definition strftime_Ymd_HMS (t : datetime) : string :=
  zfill 4 (year t) ++ zfill 2 (month t) ++ zfill 2 (day t) ++ "_" ++ strftime_HMS t.

(** [datetime.isoformat()]: the fraction is left out when it is zero. *)
Definition isoformat (t : datetime) : string :=
  zfill 4 (year t) ++ "-" ++ zfill 2 (month t) ++ "-" ++ zfill 2 (day t) ++ "T"
    ++ zfill 2 (hour t) ++ ":" ++ zfill 2 (minute t) ++ ":" ++ zfill 2 (second t)
    ++ (if Nat.eqb (microsecond t) 0 then "" else "." ++ zfill 6 (microsecond t)).

(** ** JSON values, as [json.load] returns them

    An object is the list of its items in insertion order, keys distinct. *)

#[local] Set Warnings "-register-all".

Inductive json :=
| JNull
| JBool (b : bool)
| JNum (n : Z)
| JStr (s : string)
| JArr (l : list json)
| JObj (kv : list (string * json)).

Fixpoint assoc {A} (k : string) (kv : list (string * A)) : option A :=
  match kv with
  | [] => None
  | (k', v) :: r => if String.eqb k k' then Some v else assoc k r
  end.

(** [not l], for a list *)
Definition is_nil {A} (l : list A) : bool :=
  match l with [] => true | _ => false end.

(** ** Python exceptions *)

Inductive exn :=
| OSError | ShutilError | KeyError | TypeError | AttributeError
| ValueError | JSONDecodeError.

Definition is_OSError (e : exn) : bool :=
  match e with OSError => true | _ => false end.

(** [except (OSError, shutil.Error)] *)
Definition is_OSError_or_ShutilError (e : exn) : bool :=
  match e with OSError | ShutilError => true | _ => false end.

(** [except Exception] *)
Definition is_Exception (e : exn) : bool := true.

(** ** The file system

    A finite map from paths to nodes.  Directories are nodes of their own:
    a new entry needs its directory, and [mkdir(parents=True)] adds the
    missing ones.  The target of a symbolic link is an absolute path; a
    hard link is a second entry with the node of the first (no operation
    of the two scripts writes into a file in place).  The lines written to
    the log are left out; the log file itself is created. *)

Inductive content :=
| Text (s : string)          (* bytes that are not a JSON document *)
| Doc (j : json).            (* the serialisation of the JSON value [j] *)

Inductive node :=
| File (c : content)
| Symlink (target : string)
| Dir.

Inductive syscall :=
| SysStat | SysUnlink | SysSymlink | SysLink | SysCopy | SysMkdir
| SysOpenW | SysOpenR.

(** The world outside the process.  [w_fault] stands for every failure the
    operating system may report beyond the structural ones modelled below
    (missing permission on a file, full disk, I/O error). *)
Record World := mkWorld {
  w_fs : gmap string node;
  w_dev : string -> Z;
  w_readonly : string -> bool;
  w_fault : syscall -> string -> bool;
  w_clock : nat -> datetime;
  w_tick : nat
}.

Definition set_fs (w : World) (fs : gmap string node) : World :=
  mkWorld fs (w_dev w) (w_readonly w) (w_fault w) (w_clock w) (w_tick w).

(** The kernel follows at most forty symbolic links. *)
Definition MAXSYMLINKS : nat := 40.

(** Follows symbolic links from [p]: the final path and what is there. *)
Fixpoint follow (fuel : nat) (fs : gmap string node) (p : string)
  : option (string * option node) :=
  match fs !! p with
  | None => Some (p, None)
  | Some (Symlink t) =>
      match fuel with
      | O => None
      | S k => follow k fs t
      end
  | Some n => Some (p, Some n)
  end.

Definition resolve (fs : gmap string node) (p : string) : option (string * node) :=
  match follow MAXSYMLINKS fs p with
  | Some (q, Some n) => Some (q, n)
  | _ => None
  end.

Definition is_dir (fs : gmap string node) (p : string) : bool :=
  match resolve fs p with
  | Some (_, Dir) => true
  | _ => false
  end.

Definition res (A : Type) : Type := (exn + A)%type.

(** [Path.exists()]: follows links; a permission failure of the underlying
    [stat] is raised, a missing file is not. *)
Definition path_exists (w : World) (p : string) : res bool :=
  if w_fault w SysStat p then inl OSError
  else inr (match resolve (w_fs w) p with Some _ => true | None => false end).

(** [Path.is_symlink()] *)
Definition path_is_symlink (w : World) (p : string) : res bool :=
  if w_fault w SysStat p then inl OSError
  else inr (match w_fs w !! p with Some (Symlink _) => true | _ => false end).

(** [Path.stat().st_dev] *)
Definition stat_dev (w : World) (p : string) : res Z :=
  if w_fault w SysStat p then inl OSError
  else match resolve (w_fs w) p with
       | Some (q, _) => inr (w_dev w q)
       | None => inl OSError
       end.

(** [os.access(d, os.W_OK)]: never raises. *)
Definition os_access_W (w : World) (d : string) : bool :=
  negb (w_fault w SysStat d)
  && match resolve (w_fs w) d with Some _ => true | None => false end
  && negb (w_readonly w d).

(** [Path.unlink()] *)
Definition unlink (w : World) (p : string) : res World :=
  if w_fault w SysUnlink p then inl OSError
  else match w_fs w !! p with
       | None => inl OSError
       | Some Dir => inl OSError
       | Some _ => inr (set_fs w (delete p (w_fs w)))
       end.

(** [link.symlink_to(target)] *)
Definition symlink_to (w : World) (link target : string) : res World :=
  if w_fault w SysSymlink link then inl OSError
  else match w_fs w !! link with
       | Some _ => inl OSError
       | None =>
           if is_dir (w_fs w) (path_parent link)
           then inr (set_fs w (<[link := Symlink target]> (w_fs w)))
           else inl OSError
       end.

(** [link.hardlink_to(source)] *)
Definition hardlink_to (w : World) (link source : string) : res World :=
  if w_fault w SysLink link then inl OSError
  else match w_fs w !! link, w_fs w !! source with
       | Some _, _ => inl OSError
       | None, None => inl OSError
       | None, Some Dir => inl OSError
       | None, Some n =>
           if is_dir (w_fs w) (path_parent link)
              && Z.eqb (w_dev w source) (w_dev w (path_parent link))
           then inr (set_fs w (<[link := n]> (w_fs w)))
           else inl OSError
       end.

(** Writes [c] at [dst], through links; a new file needs its directory. *)
Definition write_file (w : World) (dst : string) (c : content) : res World :=
  match follow MAXSYMLINKS (w_fs w) dst with
  | None => inl OSError
  | Some (q, Some Dir) => inl OSError
  | Some (q, Some _) => inr (set_fs w (<[q := File c]> (w_fs w)))
  | Some (q, None) =>
      if is_dir (w_fs w) (path_parent q)
      then inr (set_fs w (<[q := File c]> (w_fs w)))
      else inl OSError
  end.

(** [shutil.copy2(src, dst)] *)
Definition copy2 (w : World) (src dst : string) : res World :=
  if w_fault w SysCopy src || w_fault w SysCopy dst then inl OSError
  else match resolve (w_fs w) src with
       | None => inl OSError
       | Some (_, Dir) => inl OSError
       | Some (_, Symlink _) => inl OSError
       | Some (rs, File c) =>
           let dst' := if is_dir (w_fs w) dst then path_join dst (path_name src) else dst in
           match follow MAXSYMLINKS (w_fs w) dst' with
           | Some (q, _) =>
               if String.eqb q rs then inl ShutilError else write_file w dst' c
           | None => inl OSError
           end
       end.

(** [Path.mkdir(parents=True, exist_ok=True)] *)
Fixpoint mkdirs (fs : gmap string node) (ds : list string) : option (gmap string node) :=
  match ds with
  | [] => Some fs
  | d :: r =>
      match resolve fs d with
      | Some (_, Dir) => mkdirs fs r
      | Some _ => None
      | None =>
          match fs !! d with
          | Some _ => None
          | None => mkdirs (<[d := Dir]> fs) r
          end
      end
  end.

Definition mkdir_p (w : World) (p : string) : res World :=
  if w_fault w SysMkdir p then inl OSError
  else match mkdirs (w_fs w) (ancestors p ++ [p]) with
       | Some fs => inr (set_fs w fs)
       | None => inl OSError
       end.

(** [Path.touch()] *)
Definition touch (w : World) (p : string) : res World :=
  if w_fault w SysOpenW p then inl OSError
  else match follow MAXSYMLINKS (w_fs w) p with
       | Some (_, Some _) => inr w
       | Some (q, None) =>
           if is_dir (w_fs w) (path_parent q)
           then inr (set_fs w (<[q := File (Text "")]> (w_fs w)))
           else inl OSError
       | None => inl OSError
       end.

(** [with open(p, 'w') as f: json.dump(j, f)] *)
Definition write_json (w : World) (p : string) (j : json) : res World :=
  if w_fault w SysOpenW p then inl OSError else write_file w p (Doc j).

(** [with open(p, 'r') as f: json.load(f)] *)
Definition read_json (w : World) (p : string) : res json :=
  if w_fault w SysOpenR p then inl OSError
  else match resolve (w_fs w) p with
       | Some (_, File (Doc j)) => inr j
       | Some (_, File (Text _)) => inl JSONDecodeError
       | _ => inl OSError
       end.

(** [datetime.now()] *)
Definition now (w : World) : datetime * World :=
  (w_clock w (w_tick w),
   mkWorld (w_fs w) (w_dev w) (w_readonly w) (w_fault w) (w_clock w) (S (w_tick w))).

(** ** A state and exception monad

    A method runs on its object ([self]) and the world; it returns a value
    or raises, and the state reached when an exception is raised is the one
    its handler sees. *)

Record state (Self : Type) := mkState { self : Self; world : World }.
Arguments mkState {Self} _ _.
Arguments self {Self} _.
Arguments world {Self} _.

Definition M (Self A : Type) : Type := state Self -> res A * state Self.

Definition ret {Self A} (a : A) : M Self A := fun s => (inr a, s).

Definition raise {Self A} (e : exn) : M Self A := fun s => (inl e, s).

Definition bind {Self A B} (m : M Self A) (k : A -> M Self B) : M Self B :=
  fun s =>
    match m s with
    | (inr a, s') => k a s'
    | (inl e, s') => (inl e, s')
    end.

Notation "x <- m ;; k" := (bind m (fun x => k))
  (at level 100, m at next level, right associativity).
Notation "m ;;; k" := (bind m (fun _ => k))
  (at level 100, right associativity).

(** [try: body except <catches>: handler] *)
Definition try_except {Self A} (body : M Self A) (catches : exn -> bool)
    (handler : exn -> M Self A) : M Self A :=
  fun s =>
    match body s with
    | (inl e, s') => if catches e then handler e s' else (inl e, s')
    | r => r
    end.

Definition get_self {Self} : M Self Self := fun s => (inr (self s), s).

Definition modify_self {Self} (f : Self -> Self) : M Self unit :=
  fun s => (inr tt, mkState (f (self s)) (world s)).

(** A system call that reads the world. *)
Definition query {Self A} (f : World -> res A) : M Self A :=
  fun s => (f (world s), s).

(** A system call that changes the world; on failure it is unchanged. *)
Definition sys {Self} (f : World -> res World) : M Self unit :=
  fun s =>
    match f (world s) with
    | inr w => (inr tt, mkState (self s) w)
    | inl e => (inl e, s)
    end.

Definition datetime_now {Self} : M Self datetime :=
  fun s => let (t, w) := now (world s) in (inr t, mkState (self s) w).

Definition when {Self} (b : bool) (m : M Self unit) : M Self unit :=
  if b then m else ret tt.

(** * duplicate_executor.py *)

Module duplicate_executor.

(** [class ActionType(Enum)] *)
Inductive ActionType :=
| SOFTLINK_ORIGINAL | SOFTLINK_DUPLICATE
| HARDLINK_ORIGINAL | HARDLINK_DUPLICATE
| DELETE_ORIGINAL | DELETE_DUPLICATE | DELETE_BOTH.

(** [ActionType(value)]: [None] stands for the [ValueError]. *)
Definition ActionType_of_value (v : string) : option ActionType :=
  if String.eqb v "SOFTLINK_ORIGINAL" then Some SOFTLINK_ORIGINAL
  else if String.eqb v "SOFTLINK_DUPLICATE" then Some SOFTLINK_DUPLICATE
  else if String.eqb v "HARDLINK_ORIGINAL" then Some HARDLINK_ORIGINAL
  else if String.eqb v "HARDLINK_DUPLICATE" then Some HARDLINK_DUPLICATE
  else if String.eqb v "DELETE_ORIGINAL" then Some DELETE_ORIGINAL
  else if String.eqb v "DELETE_DUPLICATE" then Some DELETE_DUPLICATE
  else if String.eqb v "DELETE_BOTH" then Some DELETE_BOTH
  else None.

(** [class ValidationResult(Enum)] *)
Inductive ValidationResult := SUCCESS | ERROR | CROSS_DEVICE.

(** [class DuplicateEntry]: one row of the input table. *)
Record DuplicateEntry := mkDuplicateEntry {
  row_num : nat;
  original_folder : string;
  original_file : string;
  duplicate_folder : string;
  duplicate_file : string;
  size : string;
  hash_value : string;
  keep_orig : string;
  keep_dup : string;
  action : string;
  notes : string
}.

(** The properties [DuplicateEntry.original_path] and
    [DuplicateEntry.duplicate_path]. *)
Definition entry_original_path (e : DuplicateEntry) : string :=
  path_join (original_folder e) (original_file e).

Definition entry_duplicate_path (e : DuplicateEntry) : string :=
  path_join (duplicate_folder e) (duplicate_file e).

(** [class OperationStats] *)
Record OperationStats := mkOperationStats {
  total_rows : nat;
  processed_rows : nat;
  softlinks_created : nat;
  hardlinks_created : nat;
  files_deleted : nat;
  errors : nat;
  skipped : nat
}.

(** [class RollbackEntry] *)
Record RollbackEntry := mkRollbackEntry {
  timestamp : string;
  operation_type : string;
  original_path : string;
  target_path : string;
  backup_path : string;
  status : string
}.

(** [dataclasses.asdict(entry)] as [json.dump] writes it. *)
Definition asdict (e : RollbackEntry) : json :=
  JObj [("timestamp", JStr (timestamp e));
        ("operation_type", JStr (operation_type e));
        ("original_path", JStr (original_path e));
        ("target_path", JStr (target_path e));
        ("backup_path", JStr (backup_path e));
        ("status", JStr (status e))].

(** [class DuplicateFileExecutor]: the fields of [self]. *)
Record DuplicateFileExecutor := mkExecutor {
  dry_run : bool;
  verbose : bool;
  stats : OperationStats;
  base_dir : string;
  backup_dir : string;
  log_file : string;
  rollback_file : string;
  rollback_entries : list RollbackEntry
}.

Definition set_stats (f : OperationStats -> OperationStats)
    (x : DuplicateFileExecutor) : DuplicateFileExecutor :=
  mkExecutor (dry_run x) (verbose x) (f (stats x)) (base_dir x) (backup_dir x)
    (log_file x) (rollback_file x) (rollback_entries x).

(** [self.rollback_entries.append(entry)] *)
Definition append_entry (e : RollbackEntry)
    (x : DuplicateFileExecutor) : DuplicateFileExecutor :=
  mkExecutor (dry_run x) (verbose x) (stats x) (base_dir x) (backup_dir x)
    (log_file x) (rollback_file x) (rollback_entries x ++ [e]).

Definition incr_processed_rows (s : OperationStats) : OperationStats :=
  mkOperationStats (total_rows s) (S (processed_rows s)) (softlinks_created s)
    (hardlinks_created s) (files_deleted s) (errors s) (skipped s).

Definition incr_softlinks_created (s : OperationStats) : OperationStats :=
  mkOperationStats (total_rows s) (processed_rows s) (S (softlinks_created s))
    (hardlinks_created s) (files_deleted s) (errors s) (skipped s).

Definition incr_hardlinks_created (s : OperationStats) : OperationStats :=
  mkOperationStats (total_rows s) (processed_rows s) (softlinks_created s)
    (S (hardlinks_created s)) (files_deleted s) (errors s) (skipped s).

Definition incr_files_deleted (s : OperationStats) : OperationStats :=
  mkOperationStats (total_rows s) (processed_rows s) (softlinks_created s)
    (hardlinks_created s) (S (files_deleted s)) (errors s) (skipped s).

Definition incr_errors (s : OperationStats) : OperationStats :=
  mkOperationStats (total_rows s) (processed_rows s) (softlinks_created s)
    (hardlinks_created s) (files_deleted s) (S (errors s)) (skipped s).

Definition incr_skipped (s : OperationStats) : OperationStats :=
  mkOperationStats (total_rows s) (processed_rows s) (softlinks_created s)
    (hardlinks_created s) (files_deleted s) (errors s) (S (skipped s)).

Definition Exec (A : Type) : Type := M DuplicateFileExecutor A.

(** [__init__], with the directory part of [_setup_logging] (the handling
    directory and the log file are created in every mode) and
    [_setup_directories].  [home] is [Path.home()]. *)
Definition _setup_directories : Exec unit :=
  x <- get_self ;;
  if negb (dry_run x) then sys (fun w => mkdir_p w (backup_dir x)) else ret tt.

Definition _setup_logging : Exec unit :=
  x <- get_self ;;
  sys (fun w => mkdir_p w (base_dir x)) ;;;
  sys (fun w => touch w (log_file x)).

Definition __init__ (home : string) (dry_run verbose : bool) : Exec unit :=
  t <- datetime_now ;;
  let base := path_join (path_join (path_join home "tmp") "2delete") "duplicatesHandling" in
  modify_self (fun _ =>
    mkExecutor dry_run verbose (mkOperationStats 0 0 0 0 0 0 0) base
      (path_join (path_join base "duplicate_backups") (strftime_Ymd_HMS t))
      (path_join base "duplicate_actions.log")
      (path_join base "duplicate_rollback.json")
      []) ;;;
  _setup_logging ;;;
  _setup_directories.

(** [check_prerequisites]; the test of the Python version does not depend
    on the state and is taken to pass. *)
Definition check_prerequisites : Exec bool :=
  x <- get_self ;;
  let test_file := path_join (base_dir x) "test_write" in
  try_except
    (sys (fun w => touch w test_file) ;;;
     sys (fun w => unlink w test_file) ;;;
     ret true)
    is_OSError
    (fun _ => ret false).

Definition is_hardlink_action (a : ActionType) : bool :=
  match a with HARDLINK_ORIGINAL | HARDLINK_DUPLICATE => true | _ => false end.

(** [validate_file_paths]: [None] from the existence block means that the
    method goes on to the permission checks. *)
Definition check_existence (orig_path dup_path : string) (a : ActionType)
  : Exec (option ValidationResult) :=
  match a with
  | DELETE_BOTH =>
      oe <- query (fun w => path_exists w orig_path) ;;
      if oe then ret None
      else
        de <- query (fun w => path_exists w dup_path) ;;
        if de then ret None else ret (Some ERROR)
  | _ =>
      oe <- query (fun w => path_exists w orig_path) ;;
      if negb oe then ret (Some ERROR)
      else
        de <- query (fun w => path_exists w dup_path) ;;
        if negb de then ret (Some ERROR) else ret None
  end.

Definition check_same_device (orig_path dup_path : string) : Exec ValidationResult :=
  try_except
    (orig_dev <- query (fun w => stat_dev w orig_path) ;;
     dup_dev <- query (fun w => stat_dev w (path_parent dup_path)) ;;
     if negb (Z.eqb orig_dev dup_dev) then ret CROSS_DEVICE else ret SUCCESS)
    is_OSError
    (fun _ => ret ERROR).

Definition validate_file_paths (entry : DuplicateEntry) (a : ActionType)
  : Exec ValidationResult :=
  let orig_path := entry_original_path entry in
  let dup_path := entry_duplicate_path entry in
  try_except
    (r <- check_existence orig_path dup_path a ;;
     match r with
     | Some v => ret v
     | None =>
         oe <- query (fun w => path_exists w orig_path) ;;
         oa <- query (fun w => inr (os_access_W w (path_parent orig_path))) ;;
         if oe && negb oa then ret ERROR
         else
           de <- query (fun w => path_exists w dup_path) ;;
           da <- query (fun w => inr (os_access_W w (path_parent dup_path))) ;;
           if de && negb da then ret ERROR
           else if is_hardlink_action a then check_same_device orig_path dup_path
           else ret SUCCESS
     end)
    is_OSError
    (fun _ => ret ERROR).

(** [create_backup] *)
Definition create_backup (file_path backup_name : string) : Exec bool :=
  x <- get_self ;;
  if dry_run x then ret true
  else
    ex <- query (fun w => path_exists w file_path) ;;
    if negb ex then ret true
    else
      try_except
        (let backup_path := path_join (backup_dir x) backup_name in
         sys (fun w => copy2 w file_path backup_path) ;;;
         ret true)
        is_OSError_or_ShutilError
        (fun _ => ret false).

(** The handler shared by the two link operations: restore the target from
    the backup if there is one. *)
Definition restore_from_backup (backup_name target_file : string) : Exec bool :=
  x <- get_self ;;
  let backup_path := path_join (backup_dir x) backup_name in
  bx <- query (fun w => path_exists w backup_path) ;;
  when bx
    (try_except
       (sys (fun w => copy2 w backup_path target_file))
       is_Exception
       (fun _ => ret tt)) ;;;
  ret false.

(** [execute_soft_link] *)
Definition execute_soft_link (source_file target_file action_type : string)
  : Exec bool :=
  x <- get_self ;;
  if dry_run x then ret true
  else
    t <- datetime_now ;;
    let backup_name := "softlink_" ++ path_name target_file ++ "_" ++ strftime_HMS t in
    try_except
      (ok <- create_backup target_file backup_name ;;
       if negb ok then ret false
       else
         ex <- query (fun w => path_exists w target_file) ;;
         when ex (sys (fun w => unlink w target_file)) ;;;
         sys (fun w => symlink_to w target_file source_file) ;;;
         t' <- datetime_now ;;
         modify_self (append_entry
           (mkRollbackEntry (isoformat t') "softlink" source_file target_file
              (path_join (backup_dir x) backup_name) "active")) ;;;
         modify_self (set_stats incr_softlinks_created) ;;;
         ret true)
      is_OSError
      (fun _ => restore_from_backup backup_name target_file).

(** [execute_hard_link] *)
Definition execute_hard_link (source_file target_file action_type : string)
  : Exec bool :=
  x <- get_self ;;
  if dry_run x then ret true
  else
    t <- datetime_now ;;
    let backup_name := "hardlink_" ++ path_name target_file ++ "_" ++ strftime_HMS t in
    try_except
      (ok <- create_backup target_file backup_name ;;
       if negb ok then ret false
       else
         ex <- query (fun w => path_exists w target_file) ;;
         when ex (sys (fun w => unlink w target_file)) ;;;
         sys (fun w => hardlink_to w target_file source_file) ;;;
         t' <- datetime_now ;;
         modify_self (append_entry
           (mkRollbackEntry (isoformat t') "hardlink" source_file target_file
              (path_join (backup_dir x) backup_name) "active")) ;;;
         modify_self (set_stats incr_hardlinks_created) ;;;
         ret true)
      is_OSError
      (fun _ => restore_from_backup backup_name target_file).

(** [execute_delete] *)
Definition execute_delete (file_path file_type : string) : Exec bool :=
  x <- get_self ;;
  if dry_run x then ret true
  else
    ex <- query (fun w => path_exists w file_path) ;;
    if negb ex then ret true
    else
      try_except
        (t <- datetime_now ;;
         let backup_name := "deleted_" ++ path_name file_path ++ "_" ++ strftime_HMS t in
         ok <- create_backup file_path backup_name ;;
         if negb ok then ret false
         else
           sys (fun w => unlink w file_path) ;;;
           t' <- datetime_now ;;
           modify_self (append_entry
             (mkRollbackEntry (isoformat t') "delete" file_path ""
                (path_join (backup_dir x) backup_name) "active")) ;;;
           modify_self (set_stats incr_files_deleted) ;;;
           ret true)
        is_OSError
        (fun _ => ret false).

(** The dispatch of [process_action] on a validated action. *)
Definition execute_action (a : ActionType) (orig_path dup_path : string) : Exec bool :=
  match a with
  | SOFTLINK_ORIGINAL => execute_soft_link dup_path orig_path "original"
  | SOFTLINK_DUPLICATE => execute_soft_link orig_path dup_path "duplicate"
  | HARDLINK_ORIGINAL => execute_hard_link dup_path orig_path "original"
  | HARDLINK_DUPLICATE => execute_hard_link orig_path dup_path "duplicate"
  | DELETE_ORIGINAL => execute_delete orig_path "original"
  | DELETE_DUPLICATE => execute_delete dup_path "duplicate"
  | DELETE_BOTH =>
      success1 <- execute_delete orig_path "original" ;;
      success2 <- execute_delete dup_path "duplicate" ;;
      ret (success1 && success2)
  end.

Definition is_blank_action (v : string) : bool :=
  String.eqb v "" || String.eqb v "REVIEW_NEEDED" || String.eqb v "Action".

(** [process_action] *)
Definition process_action (entry : DuplicateEntry) : Exec bool :=
  match ActionType_of_value (action entry) with
  | None =>
      modify_self (set_stats incr_skipped) ;;;
      ret (is_blank_action (action entry))
  | Some a =>
      validation_result <- validate_file_paths entry a ;;
      match validation_result with
      | ERROR =>
          modify_self (set_stats incr_errors) ;;;
          ret false
      | CROSS_DEVICE =>
          modify_self (set_stats incr_skipped) ;;;
          ret false
      | SUCCESS =>
          success <- execute_action a (entry_original_path entry)
                       (entry_duplicate_path entry) ;;
          modify_self (set_stats (if success then incr_processed_rows else incr_errors)) ;;;
          ret success
      end
  end.

(** [save_rollback_data] *)
Definition rollback_data (x : DuplicateFileExecutor) (t : datetime) : json :=
  JObj [("timestamp", JStr (isoformat t));
        ("dry_run", JBool (dry_run x));
        ("backup_directory", JStr (backup_dir x));
        ("operations", JArr (map asdict (rollback_entries x)))].

Definition save_rollback_data : Exec unit :=
  x <- get_self ;;
  if is_nil (rollback_entries x) && negb (dry_run x) then ret tt
  else
    t <- datetime_now ;;
    try_except
      (sys (fun w => write_json w (rollback_file x) (rollback_data x t)))
      is_Exception
      (fun _ => ret tt).

(** [for entry in entries: self.process_action(entry)] *)
Fixpoint process_all (entries : list DuplicateEntry) : Exec unit :=
  match entries with
  | [] => ret tt
  | e :: r => process_action e ;;; process_all r
  end.

(** [execute], from the parsed rows on: [entries] is what [parse_csv_file]
    returned for the input file. *)
Definition execute (entries : list DuplicateEntry) : Exec Z :=
  ok <- check_prerequisites ;;
  if negb ok then ret 1%Z
  else if is_nil entries then ret 1%Z
  else
    process_all entries ;;;
    save_rollback_data ;;;
    x <- get_self ;;
    if Nat.ltb 0 (errors (stats x)) then ret 2%Z else ret 0%Z.

End duplicate_executor.

(** * rollback_duplicates.py *)

(** ** The Python operations the script applies to what [json.load] returned *)

Definition is_substring (needle hay : string) : bool :=
  match String.index 0 needle hay with Some _ => true | None => false end.

Definition json_eq_str (v : json) (s : string) : bool :=
  match v with JStr s' => String.eqb s' s | _ => false end.

(** [field in data], for a string [field] *)
Definition py_contains (data : json) (field : string) : res bool :=
  match data with
  | JObj kv => inr (match assoc field kv with Some _ => true | None => false end)
  | JArr l => inr (existsb (fun v => json_eq_str v field) l)
  | JStr s => inr (is_substring field s)
  | _ => inl TypeError
  end.

(** [data[key]], for a string [key] *)
Definition py_getitem (data : json) (key : string) : res json :=
  match data with
  | JObj kv => match assoc key kv with Some v => inr v | None => inl KeyError end
  | _ => inl TypeError
  end.

(** [data.get(key, default)] *)
Definition py_get (data : json) (key : string) (default : json) : res json :=
  match data with
  | JObj kv => inr (match assoc key kv with Some v => v | None => default end)
  | _ => inl AttributeError
  end.

Fixpoint chars (s : string) : list json :=
  match s with
  | EmptyString => []
  | String c r => JStr (String c "") :: chars r
  end.

(** The items a [for] loop, a comprehension or [reversed] sees. *)
Definition py_iter (v : json) : res (list json) :=
  match v with
  | JArr l => inr l
  | JStr s => inr (chars s)
  | JObj kv => inr (map (fun p => JStr (fst p)) kv)
  | _ => inl TypeError
  end.

(** [len(v)] *)
Definition py_len (v : json) : res nat :=
  match py_iter v with
  | inr l => inr (length l)
  | inl e => inl e
  end.

(** [v > bound] and [v < bound] for a string [bound]: code point order,
    which on the bytes of the UTF-8 form is the order of [String.ltb]. *)
Definition py_gt (v : json) (bound : string) : res bool :=
  match v with
  | JStr s => inr (String.ltb bound s)
  | _ => inl TypeError
  end.

Definition py_lt (v : json) (bound : string) : res bool :=
  match v with
  | JStr s => inr (String.ltb s bound)
  | _ => inl TypeError
  end.

(** [value in operation_types], for a list of strings *)
Definition py_in_strs (v : json) (l : list string) : bool :=
  existsb (json_eq_str v) l.

(** [Path(v)] *)
Definition py_Path (v : json) : res string :=
  match v with
  | JStr s => inr s
  | _ => inl TypeError
  end.

(** [[x for x in l if keep(x)]]: the first exception ends the comprehension. *)
Fixpoint filter_res {A} (keep : A -> res bool) (l : list A) : res (list A) :=
  match l with
  | [] => inr []
  | a :: r =>
      match keep a with
      | inl e => inl e
      | inr b =>
          match filter_res keep r with
          | inl e => inl e
          | inr r' => inr (if b then a :: r' else r')
          end
      end
  end.

(** The items a comprehension keeps, when its condition raises on none. *)
Definition keeps {A} (keep : A -> res bool) (a : A) : bool :=
  match keep a with inr true => true | _ => false end.

Module rollback_duplicates.

(** [class RollbackStats] *)
Record RollbackStats := mkRollbackStats {
  total_operations : nat;
  successful_rollbacks : nat;
  failed_rollbacks : nat;
  skipped_operations : nat
}.

(** [class DuplicateRollback]: the fields of [self].  [calls] is not a
    field of the class: it records, for the proofs, the argument of every
    call of [rollback_operation], in order. *)
Record DuplicateRollback := mkRollback {
  dry_run : bool;
  verbose : bool;
  stats : RollbackStats;
  calls : list json
}.

Definition Rb (A : Type) : Type := M DuplicateRollback A.

Definition set_stats (f : RollbackStats -> RollbackStats)
    (x : DuplicateRollback) : DuplicateRollback :=
  mkRollback (dry_run x) (verbose x) (f (stats x)) (calls x).

Definition record_call (op : json) (x : DuplicateRollback) : DuplicateRollback :=
  mkRollback (dry_run x) (verbose x) (stats x) (calls x ++ [op]).

Definition set_total_operations (n : nat) (s : RollbackStats) : RollbackStats :=
  mkRollbackStats n (successful_rollbacks s) (failed_rollbacks s) (skipped_operations s).

Definition incr_successful_rollbacks (s : RollbackStats) : RollbackStats :=
  mkRollbackStats (total_operations s) (S (successful_rollbacks s))
    (failed_rollbacks s) (skipped_operations s).

Definition incr_failed_rollbacks (s : RollbackStats) : RollbackStats :=
  mkRollbackStats (total_operations s) (successful_rollbacks s)
    (S (failed_rollbacks s)) (skipped_operations s).

Definition incr_skipped_operations (s : RollbackStats) : RollbackStats :=
  mkRollbackStats (total_operations s) (successful_rollbacks s)
    (failed_rollbacks s) (S (skipped_operations s)).

(** [__init__] *)
Definition __init__ (dry_run verbose : bool) : DuplicateRollback :=
  mkRollback dry_run verbose (mkRollbackStats 0 0 0 0) [].

(** A pure computation that may raise. *)
Definition lift {A} (r : res A) : Rb A := fun s => (r, s).

(** The validation of the required fields in [load_rollback_data]:
    [None] when a field is missing. *)
Fixpoint check_required_fields (data : json) (fields : list string) : res bool :=
  match fields with
  | [] => inr true
  | f :: r =>
      match py_contains data f with
      | inl e => inl e
      | inr false => inr false
      | inr true => check_required_fields data r
      end
  end.

(** [load_rollback_data] *)
Definition load_rollback_data (rollback_file : string) : Rb (option json) :=
  ex <- query (fun w => path_exists w rollback_file) ;;
  if negb ex then ret None
  else
    try_except
      (data <- query (fun w => read_json w rollback_file) ;;
       ok <- lift (check_required_fields data ["timestamp"; "operations"]) ;;
       if negb ok then ret None
       else
         operations <- lift (py_getitem data "operations") ;;
         _ <- lift (py_len operations) ;;
         _ <- lift (py_getitem data "timestamp") ;;
         _ <- lift (py_get data "dry_run" JNull) ;;
         ret (Some data))
      is_Exception
      (fun _ => ret None).

(** [rollback_delete_operation] *)
Definition rollback_delete_operation (operation : json) : Rb bool :=
  v <- lift (py_getitem operation "original_path") ;;
  original_path <- lift (py_Path v) ;;
  v' <- lift (py_getitem operation "backup_path") ;;
  backup_path <- lift (py_Path v') ;;
  x <- get_self ;;
  if dry_run x then ret true
  else
    try_except
      (bx <- query (fun w => path_exists w backup_path) ;;
       if negb bx then ret false
       else
         ox <- query (fun w => path_exists w original_path) ;;
         if ox then ret false
         else
           sys (fun w => mkdir_p w (path_parent original_path)) ;;;
           sys (fun w => copy2 w backup_path original_path) ;;;
           ret true)
      is_Exception
      (fun _ => ret false).

(** [rollback_link_operation] *)
Definition rollback_link_operation (operation : json) : Rb bool :=
  v <- lift (py_getitem operation "target_path") ;;
  target_path <- lift (py_Path v) ;;
  v' <- lift (py_getitem operation "backup_path") ;;
  backup_path <- lift (py_Path v') ;;
  _ <- lift (py_getitem operation "operation_type") ;;
  x <- get_self ;;
  if dry_run x then ret true
  else
    try_except
      (tx <- query (fun w => path_exists w target_path) ;;
       present <- (if tx then ret true
                   else query (fun w => path_is_symlink w target_path)) ;;
       when present (sys (fun w => unlink w target_path)) ;;;
       bx <- query (fun w => path_exists w backup_path) ;;
       if bx then
         sys (fun w => copy2 w backup_path target_path) ;;;
         ret true
       else ret false)
      is_Exception
      (fun _ => ret false).

(** [rollback_operation] *)
Definition rollback_operation (operation : json) : Rb bool :=
  operation_type <- lift (py_get operation "operation_type" (JStr "")) ;;
  if json_eq_str operation_type "delete" then rollback_delete_operation operation
  else if py_in_strs operation_type ["softlink"; "hardlink"]
  then rollback_link_operation operation
  else
    modify_self (set_stats incr_skipped_operations) ;;;
    ret false.

(** The three filters of [execute_rollback]; an absent or empty criterion
    is falsy and leaves the list as it is. *)
Definition keep_type (operation_types : list string) (op : json) : res bool :=
  match py_get op "operation_type" JNull with
  | inl e => inl e
  | inr v => inr (py_in_strs v operation_types)
  end.

Definition keep_after (after_timestamp : string) (op : json) : res bool :=
  match py_get op "timestamp" (JStr "") with
  | inl e => inl e
  | inr v => py_gt v after_timestamp
  end.

Definition keep_before (before_timestamp : string) (op : json) : res bool :=
  match py_get op "timestamp" (JStr "") with
  | inl e => inl e
  | inr v => py_lt v before_timestamp
  end.

Definition filter_types (operation_types : option (list string))
    (ops : list json) : res (list json) :=
  match operation_types with
  | Some (t :: ts) => filter_res (keep_type (t :: ts)) ops
  | _ => inr ops
  end.

Definition filter_after (after_timestamp : option string)
    (ops : list json) : res (list json) :=
  match after_timestamp with
  | Some (String c r) => filter_res (keep_after (String c r)) ops
  | _ => inr ops
  end.

Definition filter_before (before_timestamp : option string)
    (ops : list json) : res (list json) :=
  match before_timestamp with
  | Some (String c r) => filter_res (keep_before (String c r)) ops
  | _ => inr ops
  end.

Definition filter_operations (operation_types : option (list string))
    (after_timestamp before_timestamp : option string)
    (ops : list json) : res (list json) :=
  match filter_types operation_types ops with
  | inl e => inl e
  | inr ops1 =>
      match filter_after after_timestamp ops1 with
      | inl e => inl e
      | inr ops2 => filter_before before_timestamp ops2
      end
  end.

(** [for i, operation in enumerate(reversed(operations), 1)]: [todo] is
    what is left of the reversed list. *)
Fixpoint rollback_loop (todo : list json) : Rb unit :=
  match todo with
  | [] => ret tt
  | operation :: rest =>
      _ <- lift (py_get operation "operation_type" JNull) ;;
      _ <- lift (py_get operation "original_path" JNull) ;;
      modify_self (record_call operation) ;;;
      ok <- rollback_operation operation ;;
      modify_self (set_stats (if ok then incr_successful_rollbacks
                              else incr_failed_rollbacks)) ;;;
      rollback_loop rest
  end.

(** [execute_rollback].  What the loader returns is a dict with the two
    required keys, hence truthy.  The value of ['operations'] has passed
    [len] in the loader, so it is a list, a string or a dict; its truth
    value, its length, its comprehensions and [reversed] all go through
    its items. *)
Definition execute_rollback (rollback_file : string)
    (operation_types : option (list string))
    (after_timestamp before_timestamp : option string) : Rb Z :=
  data <- load_rollback_data rollback_file ;;
  match data with
  | None => ret 1%Z
  | Some data =>
      v <- lift (py_getitem data "operations") ;;
      items <- lift (py_iter v) ;;
      operations <- lift (filter_operations operation_types after_timestamp
                            before_timestamp items) ;;
      if is_nil operations then ret 0%Z
      else
        modify_self (set_stats (set_total_operations (length operations))) ;;;
        rollback_loop (rev operations) ;;;
        x <- get_self ;;
        if Nat.eqb (failed_rollbacks (stats x)) 0 then ret 0%Z else ret 2%Z
  end.

End rollback_duplicates.

(** * Notions used in the statements *)

Module ledger.

Import rollback_duplicates.

(** What [len] accepts. *)
Definition sized (v : json) : bool :=
  match v with JArr _ | JStr _ | JObj _ => true | _ => false end.

(** The documents the loader accepts: an object with the two required
    keys, the value of ['operations'] being sized. *)
Definition loadable (j : json) : bool :=
  match j with
  | JObj kv =>
      match assoc "timestamp" kv, assoc "operations" kv with
      | Some _, Some v => sized v
      | _, _ => false
      end
  | _ => false
  end.

(** The items of ['operations'] in the ledger file [f], if it loads. *)
Definition ledger_items (w : World) (f : string) : option (list json) :=
  match read_json w f with
  | inr j =>
      if loadable j then
        match py_getitem j "operations" with
        | inr v => match py_iter v with inr l => Some l | inl _ => None end
        | inl _ => None
        end
      else None
  | inl _ => None
  end.

(** The entries [rollback_operation] knows how to reverse. *)
Definition recognized (op : json) : bool :=
  match py_get op "operation_type" (JStr "") with
  | inr v => json_eq_str v "delete" || py_in_strs v ["softlink"; "hardlink"]
  | inl _ => false
  end.

Definition count_unrecognized (ops : list json) : nat :=
  length (List.filter (fun op => negb (recognized op)) ops).

Definition str_field (kv : list (string * json)) (k : string) : bool :=
  match assoc k kv with Some (JStr _) => true | _ => false end.

(** An entry with the fields its reversal reads: an object whose time
    stamp, if any, is a string, and whose paths are strings. *)
Definition well_formed (op : json) : bool :=
  match op with
  | JObj kv =>
      match assoc "timestamp" kv with
      | None | Some (JStr _) => true
      | _ => false
      end
      && (if json_eq_str (match assoc "operation_type" kv with
                          | Some v => v | None => JStr "" end) "delete"
          then str_field kv "original_path" && str_field kv "backup_path"
          else if py_in_strs (match assoc "operation_type" kv with
                              | Some v => v | None => JStr "" end)
                    ["softlink"; "hardlink"]
          then str_field kv "target_path" && str_field kv "backup_path"
          else true)
  | _ => false
  end.

(** The entries the three filters keep. *)
Definition selected_json (operation_types : option (list string))
    (after_timestamp before_timestamp : option string) (op : json) : bool :=
  match operation_types with
  | Some (t :: ts) => keeps (keep_type (t :: ts)) op
  | _ => true
  end
  && match after_timestamp with
     | Some (String c r) => keeps (keep_after (String c r)) op
     | _ => true
     end
  && match before_timestamp with
     | Some (String c r) => keeps (keep_before (String c r)) op
     | _ => true
     end.

(** The same on the entries of the executor. *)
Definition selected (operation_types : option (list string))
    (after_timestamp before_timestamp : option string)
    (e : duplicate_executor.RollbackEntry) : bool :=
  match operation_types with
  | Some (t :: ts) =>
      existsb (String.eqb (duplicate_executor.operation_type e)) (t :: ts)
  | _ => true
  end
  && match after_timestamp with
     | Some (String c r) => String.ltb (String c r) (duplicate_executor.timestamp e)
     | _ => true
     end
  && match before_timestamp with
     | Some (String c r) => String.ltb (duplicate_executor.timestamp e) (String c r)
     | _ => true
     end.

(** A ledger document as the executor writes it, with any entries. *)
Definition ledger_document (session_timestamp : string) (was_dry_run : bool)
    (backup_directory : string)
    (entries : list duplicate_executor.RollbackEntry) : json :=
  JObj [("timestamp", JStr session_timestamp);
        ("dry_run", JBool was_dry_run);
        ("backup_directory", JStr backup_directory);
        ("operations", JArr (map duplicate_executor.asdict entries))].

End ledger.

(** * Concrete sessions

    Small worlds on which the two scripts are run in the examples and
    counterexamples below. *)

Module Scenario.

Import duplicate_executor.

(** A clock whose readings all fall in the same second. *)
Definition clock (n : nat) : datetime := Datetime 2025 8 10 9 5 7 n.

Definition no_fault (c : syscall) (p : string) : bool := false.

Definition one_device (p : string) : Z := 0%Z.

Definition nothing_readonly (p : string) : bool := false.

(** Two directories holding a file of the same name. *)
Definition two_files : gmap string node :=
  <["/b/x.txt" := File (Text "B")]>
    (<["/b" := Dir]>
       (<["/a/x.txt" := File (Text "A")]>
          (<["/a" := Dir]> ∅))).

Definition world_two_files : World :=
  mkWorld two_files one_device nothing_readonly no_fault clock 0.

(** The object before [__init__] has filled it. *)
Definition blank : DuplicateFileExecutor :=
  mkExecutor false false (mkOperationStats 0 0 0 0 0 0 0) "" "" "" "" [].

Definition home : string := "/home/u".

(** A session on [world_two_files], after [__init__]. *)
Definition session (dry : bool) (w : World) : state DuplicateFileExecutor :=
  snd (__init__ home dry false (mkState blank w)).

Definition row (act : string) : DuplicateEntry :=
  mkDuplicateEntry 3 "/a" "x.txt" "/b" "x.txt" "1" "h" "" "" act "".

(** The ledger a previous session left behind. *)
Definition old_ledger : json :=
  JObj [("timestamp", JStr "2025-08-09T10:00:00");
        ("dry_run", JBool false);
        ("backup_directory", JStr "/home/u/tmp/2delete/duplicatesHandling/duplicate_backups/20250809_100000");
        ("operations",
         JArr [JObj [("timestamp", JStr "2025-08-09T10:00:01");
                     ("operation_type", JStr "delete");
                     ("original_path", JStr "/c/y.txt");
                     ("target_path", JStr "");
                     ("backup_path", JStr "/home/u/tmp/2delete/duplicatesHandling/duplicate_backups/20250809_100000/deleted_y.txt_100001");
                     ("status", JStr "active")]])].

Definition ledger_path : string :=
  "/home/u/tmp/2delete/duplicatesHandling/duplicate_rollback.json".

(** The world of a second session: the first one has left its ledger in
    the handling directory. *)
Definition with_ledger : gmap string node :=
  <[ledger_path := File (Doc old_ledger)]>
    (<["/home/u/tmp/2delete/duplicatesHandling" := Dir]>
       (<["/home/u/tmp/2delete" := Dir]>
          (<["/home/u/tmp" := Dir]>
             (<["/home/u" := Dir]>
                (<["/home" := Dir]> two_files))))).

Definition world_with_ledger : World :=
  mkWorld with_ledger one_device nothing_readonly no_fault clock 0.

(** The file that cannot be removed (an immutable file, say). *)
Definition unlink_denied (ps : list string) (c : syscall) (p : string) : bool :=
  match c with
  | SysUnlink => existsb (String.eqb p) ps
  | _ => false
  end.

Definition world_denied (ps : list string) : World :=
  mkWorld two_files one_device nothing_readonly (unlink_denied ps) clock 0.

(** Only the duplicate is there. *)
Definition only_duplicate : gmap string node :=
  <["/b/x.txt" := File (Text "B")]> (<["/b" := Dir]> (<["/a" := Dir]> ∅)).

Definition world_only_duplicate : World :=
  mkWorld only_duplicate one_device nothing_readonly no_fault clock 0.




(** The world the real session of the scenario leaves, and the rollback
    object of a later run. *)
Definition world_after_delete_both : World :=
  world (snd (execute [row "DELETE_BOTH"] (session false world_two_files))).

(** The two entries that session has written in its ledger. *)
Definition backup_of_x : string :=
  "/home/u/tmp/2delete/duplicatesHandling/duplicate_backups/20250810_090507/deleted_x.txt_090507".

Definition entries_delete_both : list RollbackEntry :=
  [mkRollbackEntry "2025-08-10T09:05:07.000002" "delete" "/a/x.txt" ""
     backup_of_x "active";
   mkRollbackEntry "2025-08-10T09:05:07.000004" "delete" "/b/x.txt" ""
     backup_of_x "active"].

Definition rollback_session (dry : bool) (w : World)
  : state rollback_duplicates.DuplicateRollback :=
  mkState (rollback_duplicates.__init__ dry false) w.

(** A world whose ledger file holds the document [j]. *)
Definition world_with_document (j : json) : World :=
  set_fs world_with_ledger (<[ledger_path := File (Doc j)]> with_ledger).

(** A document with the two required keys whose operations are [null]. *)
Definition null_operations : json :=
  JObj [("timestamp", JStr "2025-08-09T10:00:00"); ("operations", JNull)].

(** A ledger with an entry of an unknown kind and an entry that has no
    time stamp. *)
Definition odd_ledger : json :=
  JObj [("timestamp", JStr "2025-08-09T10:00:00");
        ("operations",
         JArr [JObj [("timestamp", JStr "2025-08-09T10:00:01");
                     ("operation_type", JStr "rename")];
               JObj [("operation_type", JStr "delete");
                     ("original_path", JStr "/c/y.txt");
                     ("backup_path", JStr "/nowhere/y.txt")]])].

End Scenario.

(** * Counters *)

Module accounting.

Import duplicate_executor.

(** What an operation leaves of the counters of requests, and how the
    ledger grows with the counters of mutations. *)
Definition mutations (st : OperationStats) : nat :=
  softlinks_created st + hardlinks_created st + files_deleted st.

Definition requests (st : OperationStats) : nat :=
  processed_rows st + errors st + skipped st.

Definition operation_invariant (s s' : state DuplicateFileExecutor) : Prop :=
  requests (stats (self s')) = requests (stats (self s))
  /\ mutations (stats (self s)) <= mutations (stats (self s'))
  /\ exists new,
       rollback_entries (self s') = (rollback_entries (self s) ++ new)%list
       /\ length new + mutations (stats (self s)) = mutations (stats (self s')).

End accounting.

(** * Preconditions used in the statements *)

Module conditions.

(** The system reports no failure of its own: every failure left is a
    structural one (a missing file, a directory in the way). *)
Definition no_faults (w : World) : Prop :=
  forall (c : syscall) (p : string), w_fault w c p = false.

(** The same, but for the system call [k], which may fail or not. *)
Definition no_faults_but (k : syscall) (w : World) : Prop :=
  forall (c : syscall) (p : string), c <> k -> w_fault w c p = false.

(** The directory [d] and the directories above it are there. *)
Definition directories_exist (w : World) (d : string) : Prop :=
  Forall (fun a => is_dir (w_fs w) a = true) (ancestors d ++ [d]).

(** [target] is a regular file with content [c], in a directory, and the
    backup path is free, in a directory. *)
Definition replaceable (w : World) (target backup : string) (c : content) : Prop :=
  w_fs w !! target = Some (File c)
  /\ w_fs w !! backup = None
  /\ is_dir (w_fs w) (path_parent target) = true
  /\ is_dir (w_fs w) (path_parent backup) = true.

(** The backup path an operation with the prefix [label] chooses for
    [target] when it starts in the state [s]. *)
Definition backup_path_of (label target : string)
    (s : state duplicate_executor.DuplicateFileExecutor) : string :=
  path_join (duplicate_executor.backup_dir (self s))
    (label ++ path_name target ++ "_"
     ++ strftime_HMS (w_clock (world s) (w_tick (world s)))).

End conditions.

(** * duplicate_executor.py: reading the table

    [parse_csv_file], from the rows on.  The standard library's part (the
    opening of the file, [csv.Sniffer] and [csv.reader]) and [str.strip]
    are parameters: [csv_rows w f] is the list of the rows the reader
    yields for the file [f] in the world [w], with the exception that ends
    the reading, if one does. *)

Module csv_input.

Import duplicate_executor.

Section Reader.

Variable strip : string -> string.
Variable csv_rows : World -> string -> list (list string) * option exn.

(** [row[i].strip() if len(row) > i else ""] *)
Definition cell (row : list string) (i : nat) : string :=
  if Nat.ltb i (length row) then strip (nth i row "") else "".

(** [any(row)]: some cell is not empty. *)
Definition py_any (row : list string) : bool :=
  existsb (fun c => negb (String.eqb c "")) row.

Definition entry_of_row (row_num : nat) (row : list string) : DuplicateEntry :=
  mkDuplicateEntry row_num (cell row 1) (cell row 2) (cell row 3) (cell row 4)
    (cell row 5) (cell row 6) (cell row 7) (cell row 8) (cell row 9)
    (cell row 10).

Definition incr_total_rows (s : OperationStats) : OperationStats :=
  mkOperationStats (S (total_rows s)) (processed_rows s) (softlinks_created s)
    (hardlinks_created s) (files_deleted s) (errors s) (skipped s).

(** The rows the loop passes over: the first two, the empty ones and
    those with fewer than ten columns. *)
Definition passed_over (row_num : nat) (row : list string) : bool :=
  Nat.leb row_num 2 || negb (py_any row) || Nat.ltb (length row) 10.

(** [for row_num, row in enumerate(reader, 1)], with [entries] the list
    built so far. *)
Fixpoint parse_rows (row_num : nat) (rows : list (list string))
    (entries : list DuplicateEntry) : Exec (list DuplicateEntry) :=
  match rows with
  | [] => ret entries
  | row :: rest =>
      if Nat.leb row_num 2 then parse_rows (S row_num) rest entries
      else if negb (py_any row) || Nat.ltb (length row) 10
      then parse_rows (S row_num) rest entries
      else
        modify_self (set_stats incr_total_rows) ;;;
        parse_rows (S row_num) rest (entries ++ [entry_of_row row_num row])
  end.

(** The entries of the rows that are not passed over, [row_num] being the
    number of the first row: what the loop is shown to build. *)
Fixpoint accepted (row_num : nat) (rows : list (list string))
  : list DuplicateEntry :=
  match rows with
  | [] => []
  | row :: rest =>
      (if passed_over row_num row then [] else [entry_of_row row_num row])
        ++ accepted (S row_num) rest
  end.

(** [self.stats.total_rows += 1], [n] times. *)
Definition add_total_rows (n : nat) (x : DuplicateFileExecutor)
  : DuplicateFileExecutor :=
  set_stats (fun st =>
    mkOperationStats (n + total_rows st) (processed_rows st)
      (softlinks_created st) (hardlinks_created st) (files_deleted st)
      (errors st) (skipped st)) x.

(** [parse_csv_file]: a file that is missing, and a reading that ends on
    an exception, give the empty list.  The test of existence is above the
    [try]; the listing of the directory in the first branch feeds the log
    only.  The inner [try] has nothing that raises: the cells are read
    under their guards [len(row) > i] and the entry is a plain record. *)
Definition parse_csv_file (csv_file : string) : Exec (list DuplicateEntry) :=
  ex <- query (fun w => path_exists w csv_file) ;;
  if negb ex then ret []
  else
    read <- query (fun w => inr (csv_rows w csv_file)) ;;
    entries <- parse_rows 1 (fst read) [] ;;
    match snd read with
    | Some _ => ret []
    | None => ret entries
    end.

End Reader.

End csv_input.

(** * Further examples *)

Module Examples.

Import duplicate_executor.

(** The session of the scenario, outside dry-run mode and in it. *)
Definition real_session : state DuplicateFileExecutor :=
  Scenario.session false Scenario.world_two_files.

Definition dry_session : state DuplicateFileExecutor :=
  Scenario.session true Scenario.world_two_files.

(** A row whose two paths are the same file. *)
Definition same_file_row : DuplicateEntry :=
  mkDuplicateEntry 3 "/a" "x.txt" "/a" "x.txt" "1" "h" "" "" "SOFTLINK_DUPLICATE" "".

(** A later run of the rollback script on the files [w] holds. *)
Definition later_rollback (fs : gmap string node)
  : state rollback_duplicates.DuplicateRollback :=
  Scenario.rollback_session false (set_fs Scenario.world_two_files fs).

(** The entry of a deletion whose file is there again, and that of a link
    whose backup is missing. *)
Definition stale_delete : json :=
  asdict (mkRollbackEntry "2025-08-10T09:05:07.000002" "delete" "/a/x.txt" ""
            "/b/x.txt" "active").

Definition link_without_backup : json :=
  asdict (mkRollbackEntry "2025-08-10T09:05:07.000002" "softlink" "/a/x.txt"
            "/b/x.txt" "/nowhere/x.txt" "active").

(** A ledger that loads, with a complete delete entry and a delete entry
    that has no original path; and the ledger of the complete entry
    alone.  The backup of both is a file that is there. *)
Definition restorable_entry : json :=
  JObj [("timestamp", JStr "2025-08-09T10:00:01");
        ("operation_type", JStr "delete");
        ("original_path", JStr "/a/y.txt");
        ("target_path", JStr "");
        ("backup_path", JStr "/b/x.txt");
        ("status", JStr "active")].

Definition entry_without_path : json :=
  JObj [("timestamp", JStr "2025-08-09T10:00:02");
        ("operation_type", JStr "delete");
        ("backup_path", JStr "/b/x.txt")].

Definition ledger_with_gap : json :=
  JObj [("timestamp", JStr "2025-08-09T10:00:00");
        ("dry_run", JBool false);
        ("backup_directory", JStr "/b");
        ("operations", JArr [restorable_entry; entry_without_path])].

Definition ledger_without_gap : json :=
  JObj [("timestamp", JStr "2025-08-09T10:00:00");
        ("dry_run", JBool false);
        ("backup_directory", JStr "/b");
        ("operations", JArr [restorable_entry])].

(** A table of four rows: the two header rows, a row that is too short
    and a row of eleven columns. *)
Definition table : list (list string) :=
  [ ["Duplicates"];
    [""; "OriginalFolder"; "OriginalFile"; "DuplicateFolder"; "DuplicateFile";
     "Size"; "Hash"; "KeepOrig"; "KeepDup"; "Action"; "Notes"];
    [""; "/a"; "x.txt"];
    [""; "/a"; "x.txt"; "/b"; "x.txt"; "1"; "h"; ""; ""; "DELETE_DUPLICATE"; ""] ].

Definition read_table (w : World) (f : string)
  : list (list string) * option exn := (table, None).

Definition read_broken_table (w : World) (f : string)
  : list (list string) * option exn := (table, Some ValueError).

Definition no_strip (s : string) : string := s.

End Examples.

(** * What the system calls raise and what they leave alone *)

Section Syscalls.

Variable w : World.

Lemma path_exists_raises p e : path_exists w p = inl e -> e = OSError.
Proof. unfold path_exists. intros; repeat case_match; congruence. Qed.

Lemma path_is_symlink_raises p e : path_is_symlink w p = inl e -> e = OSError.
Proof. unfold path_is_symlink. intros; repeat case_match; congruence. Qed.

Lemma stat_dev_raises p e : stat_dev w p = inl e -> e = OSError.
Proof. unfold stat_dev. intros; repeat case_match; congruence. Qed.

Lemma unlink_raises p e : unlink w p = inl e -> e = OSError.
Proof. unfold unlink. intros; repeat case_match; congruence. Qed.

Lemma symlink_to_raises p q e : symlink_to w p q = inl e -> e = OSError.
Proof. unfold symlink_to. intros; repeat case_match; congruence. Qed.

Lemma hardlink_to_raises p q e : hardlink_to w p q = inl e -> e = OSError.
Proof. unfold hardlink_to. intros; repeat case_match; congruence. Qed.

Lemma write_file_raises p c e : write_file w p c = inl e -> e = OSError.
Proof. unfold write_file. intros; repeat case_match; congruence. Qed.

Lemma copy2_raises p q e :
  copy2 w p q = inl e -> e = OSError \/ e = ShutilError.
Proof.
  unfold copy2. intros; repeat case_match; simplify_eq; eauto using write_file_raises.
Qed.

Lemma mkdir_p_raises p e : mkdir_p w p = inl e -> e = OSError.
Proof. unfold mkdir_p. intros; repeat case_match; congruence. Qed.

Lemma touch_raises p e : touch w p = inl e -> e = OSError.
Proof. unfold touch. intros; repeat case_match; congruence. Qed.

(** A path can be tested for existence exactly when [stat] is not denied. *)
Lemma path_exists_returns p :
  w_fault w SysStat p = false <-> exists b, path_exists w p = inr b.
Proof.
  unfold path_exists. destruct (w_fault w SysStat p); split; eauto.
  - discriminate.
  - intros [b Hb]. discriminate.
Qed.

(** No system call changes the failures the system will report. *)
Lemma unlink_fault p w' : unlink w p = inr w' -> w_fault w' = w_fault w.
Proof. unfold unlink. intros; repeat case_match; simplify_eq; done. Qed.

Lemma write_file_fault p c w' : write_file w p c = inr w' -> w_fault w' = w_fault w.
Proof. unfold write_file. intros; repeat case_match; simplify_eq; done. Qed.

Lemma copy2_fault p q w' : copy2 w p q = inr w' -> w_fault w' = w_fault w.
Proof.
  unfold copy2. intros; repeat case_match; simplify_eq; eauto using write_file_fault.
Qed.

(** What a successful [unlink] leaves. *)
Lemma unlink_fs p w' : unlink w p = inr w' -> w_fs w' = delete p (w_fs w).
Proof. unfold unlink. intros; repeat case_match; simplify_eq; done. Qed.

(** Writing a regular file, or a new file in an existing directory. *)
Lemma write_file_plain p c :
  (exists c0, w_fs w !! p = Some (File c0))
  \/ (w_fs w !! p = None /\ is_dir (w_fs w) (path_parent p) = true) ->
  write_file w p c = inr (set_fs w (<[p := File c]> (w_fs w))).
Proof.
  unfold write_file, MAXSYMLINKS. simpl.
  intros [[c0 H] | [H Hd]]; rewrite H; [done | by rewrite Hd].
Qed.

End Syscalls.

Ltac raises :=
  repeat match goal with
  | H : path_exists _ _ = inl _ |- _ => apply path_exists_raises in H; subst
  | H : path_is_symlink _ _ = inl _ |- _ => apply path_is_symlink_raises in H; subst
  | H : stat_dev _ _ = inl _ |- _ => apply stat_dev_raises in H; subst
  | H : unlink _ _ = inl _ |- _ => apply unlink_raises in H; subst
  | H : symlink_to _ _ _ = inl _ |- _ => apply symlink_to_raises in H; subst
  | H : hardlink_to _ _ _ = inl _ |- _ => apply hardlink_to_raises in H; subst
  | H : mkdir_p _ _ = inl _ |- _ => apply mkdir_p_raises in H; subst
  | H : touch _ _ = inl _ |- _ => apply touch_raises in H; subst
  | H : copy2 _ _ _ = inl _ |- _ => apply copy2_raises in H; destruct H; subst
  end.

(** Unfolds the monad down to functions on states. *)
Ltac munfold :=
  cbv [bind ret raise try_except get_self modify_self query sys
       datetime_now when] in *.




(** Comprehensions. *)
Lemma filter_res_filter {A} (keep : A -> res bool) (f : A -> bool) (l : list A) :
  Forall (fun a => keep a = inr (f a)) l ->
  filter_res keep l = inr (List.filter f l).
Proof.
  induction 1 as [|a l Ha _ IH]; simpl; [done|].
  rewrite Ha, IH. by destruct (f a).
Qed.


(** * The executor *)

Module executor_proofs.

Import duplicate_executor.

(** ** Validation *)

(** Validation never raises and changes nothing. *)
Lemma validate_pure e a s : exists v, validate_file_paths e a s = (inr v, s).
Proof.
  unfold validate_file_paths, check_existence, check_same_device.
  destruct a; munfold; repeat (case_match; simplify_eq/=); raises;
    try discriminate; eauto.
Qed.

(** ** Dry-run mode *)

Lemma _setup_directories_dry s :
  dry_run (self s) = true -> _setup_directories s = (inr tt, s).
Proof. intros H. unfold _setup_directories. munfold. by rewrite H. Qed.

Lemma create_backup_dry p n s :
  dry_run (self s) = true -> create_backup p n s = (inr true, s).
Proof. intros H. unfold create_backup. munfold. by rewrite H. Qed.

Lemma execute_soft_link_dry p q t s :
  dry_run (self s) = true -> execute_soft_link p q t s = (inr true, s).
Proof. intros H. unfold execute_soft_link. munfold. by rewrite H. Qed.

Lemma execute_hard_link_dry p q t s :
  dry_run (self s) = true -> execute_hard_link p q t s = (inr true, s).
Proof. intros H. unfold execute_hard_link. munfold. by rewrite H. Qed.

Lemma execute_delete_dry p t s :
  dry_run (self s) = true -> execute_delete p t s = (inr true, s).
Proof. intros H. unfold execute_delete. munfold. by rewrite H. Qed.

Lemma execute_action_dry a p q s :
  dry_run (self s) = true -> execute_action a p q s = (inr true, s).
Proof.
  intros H. destruct a; simpl;
    rewrite ?execute_soft_link_dry, ?execute_hard_link_dry,
      ?execute_delete_dry by done; try done.
  unfold bind. by rewrite !execute_delete_dry.
Qed.

(** A request in dry-run mode only counts. *)
Lemma process_action_dry e x w :
  dry_run x = true ->
  exists b f, process_action e (mkState x w) = (inr b, mkState (set_stats f x) w).
Proof.
  intros Hd. unfold process_action.
  destruct (ActionType_of_value (action e)) as [a|].
  - unfold bind at 1. destruct (validate_pure e a (mkState x w)) as [v ->].
    destruct v.
    + exists true, incr_processed_rows.
      unfold bind at 1. by rewrite execute_action_dry.
    + by exists false, incr_errors.
    + by exists false, incr_skipped.
  - by exists (is_blank_action (action e)), incr_skipped.
Qed.

Lemma process_all_dry entries x w :
  dry_run x = true ->
  exists f, process_all entries (mkState x w) = (inr tt, mkState (set_stats f x) w).
Proof.
  revert x. induction entries as [|e r IH]; intros x Hd; simpl.
  - exists (fun st => st). by destruct x.
  - destruct (process_action_dry e x w Hd) as (b & f & Hp).
    destruct (IH (set_stats f x) Hd) as (g & Hr).
    exists (fun st => g (f st)). unfold bind. by rewrite Hp, Hr.
Qed.

(** The ledger file is written unless the run is a real one without
    entries: a dry run always writes it. *)
Lemma save_rollback_data_skips x w :
  rollback_entries x = [] -> dry_run x = false ->
  save_rollback_data (mkState x w) = (inr tt, mkState x w).
Proof.
  intros He Hd. unfold save_rollback_data. munfold. simpl. by rewrite He, Hd.
Qed.

Lemma save_rollback_data_writes x w :
  is_nil (rollback_entries x) && negb (dry_run x) = false ->
  w_fault w SysOpenW (rollback_file x) = false ->
  (exists c, w_fs w !! rollback_file x = Some (File c))
  \/ (w_fs w !! rollback_file x = None
      /\ is_dir (w_fs w) (path_parent (rollback_file x)) = true) ->
  exists w',
    save_rollback_data (mkState x w) = (inr tt, mkState x w') /\
    w_fs w' = <[rollback_file x := File (Doc (rollback_data x (w_clock w (w_tick w))))]> (w_fs w).
Proof.
  intros Hc Hf Hp. unfold save_rollback_data. munfold. simpl. rewrite Hc.
  unfold write_json. simpl. rewrite Hf.
  erewrite write_file_plain by (simpl; exact Hp). simpl. eauto.
Qed.

(** C1 (as amended).  In dry-run mode the backup directory is not created,
    no operation and no request changes the world or the in-memory ledger;
    the one write of a dry run is that of the ledger file, which
    [save_rollback_data] makes in every dry run, with the (empty) list of
    entries of the session. *)
Theorem dry_run_leaves_all_but_the_ledger (x : DuplicateFileExecutor) (w : World) :
  dry_run x = true ->
  _setup_directories (mkState x w) = (inr tt, mkState x w)
  /\ (forall p n, create_backup p n (mkState x w) = (inr true, mkState x w))
  /\ (forall src tgt ty,
        execute_soft_link src tgt ty (mkState x w) = (inr true, mkState x w))
  /\ (forall src tgt ty,
        execute_hard_link src tgt ty (mkState x w) = (inr true, mkState x w))
  /\ (forall p ty, execute_delete p ty (mkState x w) = (inr true, mkState x w))
  /\ (forall entries, exists x',
        process_all entries (mkState x w) = (inr tt, mkState x' w)
        /\ rollback_entries x' = rollback_entries x
        /\ dry_run x' = true)
  /\ (w_fault w SysOpenW (rollback_file x) = false ->
      (exists c, w_fs w !! rollback_file x = Some (File c))
      \/ (w_fs w !! rollback_file x = None
          /\ is_dir (w_fs w) (path_parent (rollback_file x)) = true) ->
      exists w',
        save_rollback_data (mkState x w) = (inr tt, mkState x w') /\
        w_fs w' !! rollback_file x =
          Some (File (Doc (JObj
            [("timestamp", JStr (isoformat (w_clock w (w_tick w))));
             ("dry_run", JBool true);
             ("backup_directory", JStr (backup_dir x));
             ("operations", JArr (map asdict (rollback_entries x)))])))).
Proof.
  intros Hd. repeat split.
  - by apply _setup_directories_dry.
  - intros. by apply create_backup_dry.
  - intros. by apply execute_soft_link_dry.
  - intros. by apply execute_hard_link_dry.
  - intros. by apply execute_delete_dry.
  - intros entries. destruct (process_all_dry entries x w Hd) as [f Hf].
    exists (set_stats f x). by rewrite Hf.
  - intros Hf Hc.
    destruct (save_rollback_data_writes x w) as (w' & Hs & Hw); auto.
    { rewrite Hd. by rewrite andb_false_r. }
    exists w'. split; [done|].
    rewrite Hw, lookup_insert_eq. unfold rollback_data. by rewrite Hd.
Qed.

(** The theorem on the dry run of the second session of the scenario. *)
Lemma dry_run_leaves_all_but_the_ledger_witness :
  let x := self (Scenario.session true Scenario.world_with_ledger) in
  let w := world (Scenario.session true Scenario.world_with_ledger) in
  dry_run x = true
  /\ (forall p ty, execute_delete p ty (mkState x w) = (inr true, mkState x w))
  /\ exists w',
       save_rollback_data (mkState x w) = (inr tt, mkState x w') /\
       w_fs w' !! rollback_file x =
         Some (File (Doc (JObj
            [("timestamp", JStr (isoformat (w_clock w (w_tick w))));
             ("dry_run", JBool true);
             ("backup_directory", JStr (backup_dir x));
             ("operations", JArr (map asdict (rollback_entries x)))]))).
Proof.
  intros x w.
  assert (Hd : dry_run x = true) by reflexivity.
  destruct (dry_run_leaves_all_but_the_ledger x w Hd)
    as (_ & _ & _ & _ & Hdel & _ & Hsave).
  split; [exact Hd|]. split; [exact Hdel|].
  apply Hsave; [reflexivity|].
  left. exists (Doc Scenario.old_ledger). vm_compute. reflexivity.
Defined.

(** C1, as the specification states it, fails: a dry run over a directory
    that holds the ledger of an earlier session replaces that ledger. *)
Lemma dry_run_rewrites_the_ledger :
  let s0 := Scenario.session true Scenario.world_with_ledger in
  let s1 := snd (execute [Scenario.row "DELETE_BOTH"] s0) in
  dry_run (self s0) = true
  /\ w_fs (world s0) !! rollback_file (self s0)
     = Some (File (Doc Scenario.old_ledger))
  /\ w_fs (world s1) !! rollback_file (self s0)
     <> w_fs (world s0) !! rollback_file (self s0).
Proof.
  vm_compute. repeat split. intros H. discriminate H.
Qed.

(** ** The ledger follows the mutations *)

Lemma soft_link_ledger src tgt ty s :
  dry_run (self s) = false ->
  match execute_soft_link src tgt ty s with
  | (inr true, s') =>
      exists ts bk, rollback_entries (self s') =
        (rollback_entries (self s)
           ++ [mkRollbackEntry ts "softlink" src tgt bk "active"])%list
  | (_, s') => rollback_entries (self s') = rollback_entries (self s)
  end.
Proof.
  intros Hd. unfold execute_soft_link, create_backup, restore_from_backup.
  munfold. rewrite Hd. simpl. rewrite ?Hd.
  repeat (case_match; simplify_eq/=); eauto.
Qed.

Lemma hard_link_ledger src tgt ty s :
  dry_run (self s) = false ->
  match execute_hard_link src tgt ty s with
  | (inr true, s') =>
      exists ts bk, rollback_entries (self s') =
        (rollback_entries (self s)
           ++ [mkRollbackEntry ts "hardlink" src tgt bk "active"])%list
  | (_, s') => rollback_entries (self s') = rollback_entries (self s)
  end.
Proof.
  intros Hd. unfold execute_hard_link, create_backup, restore_from_backup.
  munfold. rewrite Hd. simpl. rewrite ?Hd.
  repeat (case_match; simplify_eq/=); eauto.
Qed.

Lemma delete_ledger p ty s :
  dry_run (self s) = false ->
  match execute_delete p ty s, path_exists (world s) p with
  | (inr true, s'), inr true =>
      exists ts bk, rollback_entries (self s') =
        (rollback_entries (self s)
           ++ [mkRollbackEntry ts "delete" p "" bk "active"])%list
  | (_, s'), _ => rollback_entries (self s') = rollback_entries (self s)
  end.
Proof.
  intros Hd. unfold execute_delete, create_backup.
  munfold. rewrite Hd. simpl. rewrite ?Hd.
  repeat (case_match; simplify_eq/=); eauto.
Qed.

(** Deleting what is not there succeeds and does nothing. *)
Lemma delete_absent p ty s :
  path_exists (world s) p = inr false -> execute_delete p ty s = (inr true, s).
Proof.
  intros H. unfold execute_delete. munfold.
  destruct (dry_run (self s)); [done|]. by rewrite H.
Qed.

(** C3 (as amended).  Outside dry-run mode a link operation appends one
    entry exactly when it returns success, and a delete appends one exactly
    when it returns success for a file that was there; in every other case,
    a failure at the backup or at the system call among them, the ledger is
    as it was.  The delete of a file that is already absent is a success
    without an entry. *)
Theorem ledger_entry_iff_mutation (s : state DuplicateFileExecutor) :
  dry_run (self s) = false ->
  (forall src tgt ty,
     match execute_soft_link src tgt ty s with
     | (inr true, s') =>
         exists ts bk, rollback_entries (self s') =
           (rollback_entries (self s)
              ++ [mkRollbackEntry ts "softlink" src tgt bk "active"])%list
     | (_, s') => rollback_entries (self s') = rollback_entries (self s)
     end)
  /\ (forall src tgt ty,
     match execute_hard_link src tgt ty s with
     | (inr true, s') =>
         exists ts bk, rollback_entries (self s') =
           (rollback_entries (self s)
              ++ [mkRollbackEntry ts "hardlink" src tgt bk "active"])%list
     | (_, s') => rollback_entries (self s') = rollback_entries (self s)
     end)
  /\ (forall p ty,
     match execute_delete p ty s, path_exists (world s) p with
     | (inr true, s'), inr true =>
         exists ts bk, rollback_entries (self s') =
           (rollback_entries (self s)
              ++ [mkRollbackEntry ts "delete" p "" bk "active"])%list
     | (_, s'), _ => rollback_entries (self s') = rollback_entries (self s)
     end)
  /\ (forall p ty,
     path_exists (world s) p = inr false -> execute_delete p ty s = (inr true, s)).
Proof.
  intros Hd. repeat split; intros.
  - by apply soft_link_ledger.
  - by apply hard_link_ledger.
  - by apply delete_ledger.
  - by apply delete_absent.
Qed.

Lemma ledger_entry_iff_mutation_witness :
  let s := Scenario.session false Scenario.world_two_files in
  dry_run (self s) = false
  /\ match execute_delete "/a/x.txt" "original" s, path_exists (world s) "/a/x.txt" with
     | (inr true, s'), inr true =>
         exists ts bk, rollback_entries (self s') =
           (rollback_entries (self s)
              ++ [mkRollbackEntry ts "delete" "/a/x.txt" "" bk "active"])%list
     | (_, s'), _ => rollback_entries (self s') = rollback_entries (self s)
     end.
Proof.
  intros s. split; [reflexivity|].
  apply (ledger_entry_iff_mutation s). reflexivity.
Defined.

(** C3, as the specification states it, fails: the delete of a file that
    does not exist is reported as a success and leaves no entry. *)
Lemma delete_of_absent_file_succeeds_without_entry :
  let s := Scenario.session false Scenario.world_only_duplicate in
  let r := execute_delete "/a/x.txt" "original" s in
  dry_run (self s) = false
  /\ ~ (fst r = inr true
        <-> length (rollback_entries (self (snd r)))
            = S (length (rollback_entries (self s)))).
Proof.
  vm_compute. split; [reflexivity|]. intros [H _]. specialize (H eq_refl). discriminate H.
Qed.

(** ** Delete-both *)

Lemma execute_delete_fault p ty s :
  w_fault (world (snd (execute_delete p ty s))) = w_fault (world s).
Proof.
  unfold execute_delete, create_backup. munfold.
  repeat (case_match; simplify_eq/=); try done;
    repeat match goal with
    | H : copy2 _ _ _ = inr _ |- _ => apply copy2_fault in H; simpl in H
    | H : unlink _ _ = inr _ |- _ => apply unlink_fault in H; simpl in H
    end; congruence.
Qed.

Lemma execute_delete_returns p ty s :
  w_fault (world s) SysStat p = false ->
  exists b, fst (execute_delete p ty s) = inr b.
Proof.
  intros Hf. unfold execute_delete, create_backup, path_exists. munfold.
  destruct (dry_run (self s)) eqn:Hd; simpl; [eauto|]. rewrite Hf, ?Hd. simpl.
  rewrite ?Hf.
  repeat (case_match; simplify_eq/=); raises; try discriminate; eauto.
Qed.

Lemma validate_delete_both_stat e s :
  validate_file_paths e DELETE_BOTH s = (inr SUCCESS, s) ->
  w_fault (world s) SysStat (entry_original_path e) = false
  /\ w_fault (world s) SysStat (entry_duplicate_path e) = false.
Proof.
  unfold validate_file_paths, check_existence, path_exists. munfold.
  destruct (w_fault (world s) SysStat (entry_original_path e)) eqn:Eo;
    destruct (w_fault (world s) SysStat (entry_duplicate_path e)) eqn:Ed; simpl;
    intros H; repeat (case_match; simplify_eq/=); try done; congruence.
Qed.

(** The backup and the deletion, outside dry-run mode, step by step. *)

(** The backup, outside dry-run mode. *)
Lemma create_backup_spec p n s :
  dry_run (self s) = false ->
  create_backup p n s =
  match path_exists (world s) p with
  | inl e => (inl e, s)
  | inr false => (inr true, s)
  | inr true =>
      match copy2 (world s) p (path_join (backup_dir (self s)) n) with
      | inr w => (inr true, mkState (self s) w)
      | inl _ => (inr false, s)
      end
  end.
Proof.
  intros Hdry. unfold create_backup. munfold. rewrite Hdry.
  destruct (path_exists (world s) p) as [e|[|]]; simpl; try done.
  destruct (copy2 _ _ _) as [e|w2] eqn:Hc; [|done].
  by raises.
Qed.

(** The deletion, outside dry-run mode, step by step. *)
Lemma execute_delete_spec p ty s :
  dry_run (self s) = false ->
  execute_delete p ty s =
  match path_exists (world s) p with
  | inl e => (inl e, s)
  | inr false => (inr true, s)
  | inr true =>
      let w1 := snd (now (world s)) in
      let bk := path_join (backup_dir (self s))
                  ("deleted_" ++ path_name p ++ "_"
                   ++ strftime_HMS (w_clock (world s) (w_tick (world s)))) in
      match copy2 w1 p bk with
      | inl _ => (inr false, mkState (self s) w1)
      | inr w2 =>
          match unlink w2 p with
          | inl _ => (inr false, mkState (self s) w2)
          | inr w3 =>
              (inr true,
               mkState
                 (set_stats incr_files_deleted
                    (append_entry
                       (mkRollbackEntry (isoformat (w_clock w3 (w_tick w3)))
                          "delete" p "" bk "active") (self s)))
                 (snd (now w3)))
          end
      end
  end.
Proof.
  intros Hdry. unfold execute_delete.
  cbv [bind ret try_except get_self modify_self query sys datetime_now].
  rewrite Hdry.
  destruct (path_exists (world s) p) as [e|[|]] eqn:Hx; simpl; [done| |done].
  rewrite create_backup_spec by done. simpl.
  change (path_exists _ p) with (path_exists (world s) p) at 1.
  rewrite Hx.
  destruct (copy2 _ p _) as [e|w2] eqn:Hc; simpl; [done|].
  destruct (unlink w2 p) as [e|w3] eqn:Hu; simpl; [by raises|done].
Qed.

(** What a deletion that returns adds to the ledger and to the counters:
    one entry and one count when it has removed a file, nothing
    otherwise. *)
Lemma execute_delete_accounts p ty s b s' :
  execute_delete p ty s = (inr b, s') ->
  let removed :=
    negb (dry_run (self s)) && b
    && match path_exists (world s) p with inr true => true | _ => false end in
  dry_run (self s') = dry_run (self s)
  /\ (exists new,
        rollback_entries (self s') = (rollback_entries (self s) ++ new)%list
        /\ (if removed
            then exists ts bk, new = [mkRollbackEntry ts "delete" p "" bk "active"]
            else new = []))
  /\ files_deleted (stats (self s'))
     = files_deleted (stats (self s)) + (if removed then 1 else 0)
  /\ processed_rows (stats (self s')) = processed_rows (stats (self s))
  /\ errors (stats (self s')) = errors (stats (self s))
  /\ skipped (stats (self s')) = skipped (stats (self s)).
Proof.
  assert (Hnone : self s' = self s ->
    dry_run (self s') = dry_run (self s)
    /\ (exists new,
          rollback_entries (self s') = (rollback_entries (self s) ++ new)%list
          /\ new = [])
    /\ files_deleted (stats (self s')) = files_deleted (stats (self s)) + 0
    /\ processed_rows (stats (self s')) = processed_rows (stats (self s))
    /\ errors (stats (self s')) = errors (stats (self s))
    /\ skipped (stats (self s')) = skipped (stats (self s))).
  { intros ->. repeat split; try lia. exists []. by rewrite app_nil_r. }
  intros H removed. subst removed. revert H.
  destruct (dry_run (self s)) eqn:Hd.
  - rewrite execute_delete_dry by done. intros H. simplify_eq. simpl.
    by apply Hnone.
  - rewrite execute_delete_spec by done. simpl.
    destruct (path_exists (world s) p) as [e|[|]] eqn:Hx; [done| |].
    + cbv zeta.
      destruct (copy2 _ p _) as [e|w2]; [|destruct (unlink w2 p) as [e|w3]];
        intros H; simplify_eq; simpl in *;
        try (by apply Hnone).
      split; [done|]. split; [eexists [_]; split; [reflexivity|eauto]|].
      repeat split; lia.
    + intros H. simplify_eq. rewrite andb_false_r. by apply Hnone.
Qed.

(** C2 (as amended).  A validated delete-both runs the two deletions one
    after the other, the second whatever the first returned.  Outside
    dry-run mode a deletion that returns success for a file that was there
    appends its own entry, for its own path, and counts once in
    [files_deleted]; a deletion that fails, the deletion of a path that is
    already absent and every deletion of a dry run add neither.  The
    request reports the conjunction of the two results: one boolean,
    counted as one processed row or one error, while the ledger and
    [files_deleted] keep what each deletion has done. *)
Theorem delete_both_reports_conjunction
    (e : DuplicateEntry) (s : state DuplicateFileExecutor) :
  ActionType_of_value (action e) = Some DELETE_BOTH ->
  validate_file_paths e DELETE_BOTH s = (inr SUCCESS, s) ->
  exists b1 s1 b2 s2,
    execute_delete (entry_original_path e) "original" s = (inr b1, s1)
    /\ execute_delete (entry_duplicate_path e) "duplicate" s1 = (inr b2, s2)
    /\ process_action e s =
         (inr (b1 && b2),
          mkState (set_stats (if b1 && b2 then incr_processed_rows else incr_errors)
                     (self s2))
                  (world s2))
    /\ exists x1 x2 new1 new2,
         path_exists (world s) (entry_original_path e) = inr x1
         /\ path_exists (world s1) (entry_duplicate_path e) = inr x2
         /\ (if negb (dry_run (self s)) && b1 && x1
             then exists ts bk,
                    new1 = [mkRollbackEntry ts "delete" (entry_original_path e)
                              "" bk "active"]
             else new1 = [])
         /\ (if negb (dry_run (self s)) && b2 && x2
             then exists ts bk,
                    new2 = [mkRollbackEntry ts "delete" (entry_duplicate_path e)
                              "" bk "active"]
             else new2 = [])
         /\ rollback_entries (self s1) = (rollback_entries (self s) ++ new1)%list
         /\ rollback_entries (self s2)
            = (rollback_entries (self s) ++ new1 ++ new2)%list
         /\ files_deleted (stats (self s2))
            = files_deleted (stats (self s)) + length new1 + length new2
         /\ processed_rows (stats (self s2)) = processed_rows (stats (self s))
         /\ errors (stats (self s2)) = errors (stats (self s))
         /\ (let x3 := set_stats (if b1 && b2 then incr_processed_rows
                                 else incr_errors) (self s2) in
             rollback_entries x3
             = (rollback_entries (self s) ++ new1 ++ new2)%list
             /\ files_deleted (stats x3)
                = files_deleted (stats (self s)) + length new1 + length new2
             /\ processed_rows (stats x3)
                = processed_rows (stats (self s)) + (if b1 && b2 then 1 else 0)
             /\ errors (stats x3)
                = errors (stats (self s)) + (if b1 && b2 then 0 else 1)).
Proof.
  intros Ha Hv. destruct (validate_delete_both_stat e s Hv) as [Ho Hdup].
  destruct (execute_delete_returns (entry_original_path e) "original" s Ho) as [b1 H1].
  pose proof (execute_delete_fault (entry_original_path e) "original" s) as Hf.
  destruct (execute_delete (entry_original_path e) "original" s) as [r1 s1] eqn:E1.
  simpl in H1, Hf. subst r1.
  assert (Hdup1 : w_fault (world s1) SysStat (entry_duplicate_path e) = false)
    by (by rewrite Hf).
  destruct (execute_delete_returns (entry_duplicate_path e) "duplicate" s1 Hdup1)
    as [b2 H2].
  destruct (execute_delete (entry_duplicate_path e) "duplicate" s1) as [r2 s2] eqn:E2.
  simpl in H2. subst r2.
  exists b1, s1, b2, s2. split; [done|]. split; [done|]. split.
  { unfold process_action. rewrite Ha. unfold bind at 1. rewrite Hv.
    unfold execute_action. munfold. by rewrite E1, E2. }
  apply execute_delete_accounts in E1
    as (Hd1 & (new1 & Hl1 & Hn1) & Hc1 & Hp1 & He1 & _).
  apply execute_delete_accounts in E2
    as (Hd2 & (new2 & Hl2 & Hn2) & Hc2 & Hp2 & He2 & _).
  rewrite Hd1 in Hn2, Hc2.
  apply path_exists_returns in Ho as [x1 Hx1].
  apply path_exists_returns in Hdup1 as [x2 Hx2].
  rewrite Hx1 in Hn1, Hc1. rewrite Hx2 in Hn2, Hc2.
  assert (Hb : forall x : bool, (if x then true else false) = x)
    by (by intros []).
  rewrite Hb in Hn1, Hc1, Hn2, Hc2.
  exists x1, x2, new1, new2.
  split; [done|]. split; [done|]. split; [done|]. split; [done|].
  assert (Hent : rollback_entries (self s2)
                 = (rollback_entries (self s) ++ new1 ++ new2)%list)
    by (by rewrite Hl2, Hl1, <- app_assoc).
  assert (Hfd : files_deleted (stats (self s2))
                = files_deleted (stats (self s)) + length new1 + length new2).
  2: { split; [done|]. split; [done|]. split; [done|].
       split; [congruence|]. split; [congruence|].
       destruct (b1 && b2); simpl; repeat split; try done; lia. }
  assert (Hlen1 : (if negb (dry_run (self s)) && b1 && x1 then 1 else 0)
                  = length new1).
  { destruct (negb (dry_run (self s)) && b1 && x1);
      [by destruct Hn1 as (ts & bk & ->) | by subst new1]. }
  assert (Hlen2 : (if negb (dry_run (self s)) && b2 && x2 then 1 else 0)
                  = length new2).
  { destruct (negb (dry_run (self s)) && b2 && x2);
      [by destruct Hn2 as (ts & bk & ->) | by subst new2]. }
  lia.
Qed.

Lemma delete_both_reports_conjunction_witness :
  let e := Scenario.row "DELETE_BOTH" in
  let s := Scenario.session false (Scenario.world_denied ["/b/x.txt"]) in
  exists b1 s1 b2 s2,
    execute_delete (entry_original_path e) "original" s = (inr b1, s1)
    /\ execute_delete (entry_duplicate_path e) "duplicate" s1 = (inr b2, s2)
    /\ process_action e s =
         (inr (b1 && b2),
          mkState (set_stats (if b1 && b2 then incr_processed_rows else incr_errors)
                     (self s2))
                  (world s2))
    /\ length (rollback_entries (self s2))
       = length (rollback_entries (self s)) + 1
    /\ files_deleted (stats (self s2)) = files_deleted (stats (self s)) + 1.
Proof.
  intros e s.
  destruct (delete_both_reports_conjunction e s)
    as (b1 & s1 & b2 & s2 & H1 & H2 & H3 & _); [reflexivity|reflexivity|].
  exists b1, s1, b2, s2. split; [exact H1|]. split; [exact H2|].
  split; [exact H3|].
  assert (Hs2 : s2 = snd (execute_delete (entry_duplicate_path e) "duplicate"
                            (snd (execute_delete (entry_original_path e)
                                    "original" s))))
    by (rewrite H1; simpl; by rewrite H2).
  rewrite Hs2. split; vm_compute; reflexivity.
Defined.

(** C2, as the specification states it, fails: the request whose first
    deletion succeeded and whose second failed returns what the request
    whose two deletions failed returns, and both count one error. *)
Lemma partial_delete_both_is_collapsed :
  let e := Scenario.row "DELETE_BOTH" in
  let partial := process_action e
      (Scenario.session false (Scenario.world_denied ["/b/x.txt"])) in
  let total := process_action e
      (Scenario.session false (Scenario.world_denied ["/a/x.txt"; "/b/x.txt"])) in
  (* one deletion done in the first run, none in the second *)
  w_fs (world (snd partial)) !! "/a/x.txt" = None
  /\ w_fs (world (snd partial)) !! "/b/x.txt" = Some (File (Text "B"))
  /\ w_fs (world (snd total)) !! "/a/x.txt" = Some (File (Text "A"))
  /\ w_fs (world (snd total)) !! "/b/x.txt" = Some (File (Text "B"))
  (* and the same outcome *)
  /\ fst partial = inr false
  /\ fst total = inr false
  /\ errors (stats (self (snd partial))) = errors (stats (self (snd total)))
  /\ processed_rows (stats (self (snd partial)))
     = processed_rows (stats (self (snd total)))
  /\ skipped (stats (self (snd partial))) = skipped (stats (self (snd total))).
Proof. vm_compute. repeat split. Qed.

(** ** Backup names *)

(** The name of a backup is made of the label of the operation, the last
    component of the path and the time of day in seconds: two files of the
    same name handled within one second get the same backup. *)
Lemma backup_name_same_second (label p q : string) (t t' : datetime) :
  path_name p = path_name q ->
  hour t = hour t' -> minute t = minute t' -> second t = second t' ->
  label ++ path_name p ++ "_" ++ strftime_HMS t
  = label ++ path_name q ++ "_" ++ strftime_HMS t'.
Proof.
  intros Hn Hh Hm Hs. unfold strftime_HMS. by rewrite Hn, Hh, Hm, Hs.
Qed.

(** C5 fails on the code.  A delete-both of [/a/x.txt] and [/b/x.txt] makes
    two backups under one name: the two ledger entries point to the same
    copy, which holds the content of the second file; the content of the
    first is nowhere any more. *)
Theorem same_name_backups_collide :
  let s0 := Scenario.session false Scenario.world_two_files in
  let s1 := snd (execute [Scenario.row "DELETE_BOTH"] s0) in
  w_fs (world s0) !! "/a/x.txt" = Some (File (Text "A"))
  /\ w_fs (world s0) !! "/b/x.txt" = Some (File (Text "B"))
  /\ exists e1 e2,
       rollback_entries (self s1) = [e1; e2]
       /\ original_path e1 = "/a/x.txt"
       /\ original_path e2 = "/b/x.txt"
       /\ backup_path e1 = backup_path e2
       /\ w_fs (world s1) !! backup_path e1 = Some (File (Text "B"))
       /\ map_Forall (fun _ n => n <> File (Text "A")) (w_fs (world s1)).
Proof.
  split; [reflexivity|]. split; [reflexivity|].
  eexists _, _. split; [vm_compute; reflexivity|].
  split; [reflexivity|]. split; [reflexivity|]. split; [reflexivity|].
  split; [vm_compute; reflexivity|].
  apply map_Forall_to_list. vm_compute.
  repeat (constructor; [simpl; discriminate|]). constructor.
Qed.

(** ** Delete-both with one file missing *)

(** C6.  When the checks meet no I/O error and no missing permission, a
    delete-both is rejected exactly when neither file exists.  When the
    original is missing and the duplicate is there, and the copy and the
    removal of the duplicate go through, the request succeeds: the
    deletion of the original is a success that does nothing, the duplicate
    is gone, and the ledger has one more entry, that of the duplicate. *)
Theorem delete_both_with_one_file
    (e : DuplicateEntry) (s : state DuplicateFileExecutor) (oe de : bool) :
  let orig := entry_original_path e in
  let dup := entry_duplicate_path e in
  path_exists (world s) orig = inr oe ->
  path_exists (world s) dup = inr de ->
  (oe = true -> os_access_W (world s) (path_parent orig) = true) ->
  (de = true -> os_access_W (world s) (path_parent dup) = true) ->
  (validate_file_paths e DELETE_BOTH s = (inr ERROR, s)
     <-> oe = false /\ de = false)
  /\ (validate_file_paths e DELETE_BOTH s = (inr SUCCESS, s)
     <-> oe = true \/ de = true)
  /\ (ActionType_of_value (action e) = Some DELETE_BOTH ->
      dry_run (self s) = false ->
      oe = false -> de = true ->
      forall w2 w3,
        let t := w_clock (world s) (w_tick (world s)) in
        let bk := path_join (backup_dir (self s))
                    ("deleted_" ++ path_name dup ++ "_" ++ strftime_HMS t) in
        copy2 (snd (now (world s))) dup bk = inr w2 ->
        unlink w2 dup = inr w3 ->
        execute_delete orig "original" s = (inr true, s)
        /\ exists s',
             process_action e s = (inr true, s')
             /\ w_fs (world s') !! dup = None
             /\ rollback_entries (self s')
                = (rollback_entries (self s)
                     ++ [mkRollbackEntry (isoformat (w_clock w3 (w_tick w3)))
                           "delete" dup "" bk "active"])%list
             /\ files_deleted (stats (self s')) = S (files_deleted (stats (self s)))
             /\ processed_rows (stats (self s')) = S (processed_rows (stats (self s)))
             /\ errors (stats (self s')) = errors (stats (self s))).
Proof.
  intros orig dup Ho Hdup Hoa Hda. subst orig dup.
  assert (Hv : validate_file_paths e DELETE_BOTH s
               = (inr (if oe || de then SUCCESS else ERROR), s)).
  { unfold validate_file_paths, check_existence. munfold.
    rewrite Ho. destruct oe; simpl.
    - rewrite Ho. simpl. rewrite Hoa by done. simpl. rewrite Hdup. simpl.
      destruct de; [by rewrite Hda|done].
    - rewrite Hdup. destruct de; simpl; [|done].
      rewrite Ho. simpl. rewrite Hdup. simpl. by rewrite Hda. }
  split; [|split].
  - rewrite Hv. destruct oe, de; simpl; split; intros H; try done; by destruct H.
  - rewrite Hv. destruct oe, de; simpl; split; intros H; auto; try done.
    by destruct H.
  - intros Ha Hdry -> -> w2 w3 t bk Hc Hu. subst t bk.
    assert (H1 : execute_delete (entry_original_path e) "original" s = (inr true, s))
      by (by apply delete_absent).
    split; [exact H1|].
    simpl in Hv.
    unfold process_action. rewrite Ha. unfold bind at 1. rewrite Hv.
    unfold execute_action. cbv [bind]. rewrite H1.
    unfold execute_delete, create_backup. munfold.
    rewrite Hdry, Hdup. simpl. rewrite Hdry. simpl.
    unfold path_exists in Hdup |- *. simpl.
    destruct (w_fault (world s) SysStat (entry_duplicate_path e)); [done|]. simpl.
    destruct (resolve (w_fs (world s)) (entry_duplicate_path e)); [|done]. simpl.
    simpl in Hc. rewrite Hc. simpl. rewrite Hu. simpl.
    eexists. split; [reflexivity|]. simpl.
    pose proof (unlink_fs _ _ _ Hu) as Hfs3.
    repeat split.
    by rewrite Hfs3, lookup_delete_eq.
Qed.

Lemma delete_both_with_one_file_witness :
  let e := Scenario.row "DELETE_BOTH" in
  let s := Scenario.session false Scenario.world_only_duplicate in
  execute_delete "/a/x.txt" "original" s = (inr true, s)
  /\ exists s',
       process_action e s = (inr true, s')
       /\ w_fs (world s') !! "/b/x.txt" = None
       /\ length (rollback_entries (self s')) = 1.
Proof.
  intros e s.
  pose (bk := path_join (backup_dir (self s)) "deleted_x.txt_090507").
  pose (w2 := match copy2 (snd (now (world s))) "/b/x.txt" bk with
              | inr w => w | inl _ => world s end).
  pose (w3 := match unlink w2 "/b/x.txt" with
              | inr w => w | inl _ => world s end).
  assert (Hc : copy2 (snd (now (world s))) "/b/x.txt" bk = inr w2)
    by (vm_compute; reflexivity).
  assert (Hu : unlink w2 "/b/x.txt" = inr w3) by (vm_compute; reflexivity).
  destruct (delete_both_with_one_file e s false true) as (_ & _ & H).
  - vm_compute; reflexivity.
  - vm_compute; reflexivity.
  - intros Hf. discriminate Hf.
  - intros _. vm_compute; reflexivity.
  - destruct (H eq_refl eq_refl eq_refl eq_refl w2 w3 Hc Hu)
      as (H1 & s' & Hp & Hgone & Hent & _).
    split; [exact H1|]. exists s'. split; [exact Hp|]. split; [exact Hgone|].
    rewrite Hent. reflexivity.
Defined.

(** ** Hard links across devices *)





End executor_proofs.

(** * The rollback utility *)

Module rollback_proofs.

Import rollback_duplicates ledger.

Ltac runfold :=
  cbv [bind ret raise try_except get_self modify_self query sys
       datetime_now when lift is_Exception] in *.

(** ** The loader *)

Lemma check_required_fields_loadable (j : json) :
  loadable j = true ->
  check_required_fields j ["timestamp"; "operations"] = inr true.
Proof.
  destruct j as [| | | |l|kv]; try discriminate. simpl.
  destruct (assoc "timestamp" kv); [|done].
  destruct (assoc "operations" kv); done.
Qed.

(** The loader returns the document exactly when it is loadable. *)
Lemma load_rollback_data_spec f s :
  load_rollback_data f s =
  match path_exists (world s) f with
  | inl e => (inl e, s)
  | inr false => (inr None, s)
  | inr true =>
      (inr match read_json (world s) f with
           | inr j => if loadable j then Some j else None
           | inl _ => None
           end, s)
  end.
Proof.
  unfold load_rollback_data. runfold.
  destruct (path_exists (world s) f) as [e|[|]]; simpl; try done.
  destruct (read_json (world s) f) as [e|j]; simpl; [done|].
  destruct j as [| | | |l|kv]; simpl; try done.
  - destruct (is_substring "timestamp" s0); simpl; [|done].
    by destruct (is_substring "operations" s0).
  - destruct (existsb _ l); simpl; [|done].
    by destruct (existsb _ l).
  - destruct (assoc "timestamp" kv) as [t|]; simpl; [|done].
    destruct (assoc "operations" kv) as [v|]; simpl; [|done].
    by destruct v.
Qed.

(** ** One reversal *)

(** Reversing an entry changes nothing in the object. *)
Lemma rollback_delete_operation_self op s :
  self (snd (rollback_delete_operation op s)) = self s.
Proof.
  unfold rollback_delete_operation. runfold.
  repeat (case_match; simplify_eq/=); done.
Qed.

Lemma rollback_link_operation_self op s :
  self (snd (rollback_link_operation op s)) = self s.
Proof.
  unfold rollback_link_operation. runfold.
  repeat (case_match; simplify_eq/=); done.
Qed.

(** An entry of an unknown kind is skipped and fails; the others leave the
    counters to the caller. *)
Lemma rollback_operation_self op s b s' :
  rollback_operation op s = (inr b, s') ->
  if recognized op then self s' = self s
  else b = false /\ self s' = set_stats incr_skipped_operations (self s).
Proof.
  intros H. unfold rollback_operation, recognized in *. runfold.
  destruct (py_get op "operation_type" (JStr "")) as [e|v]; [done|].
  destruct (json_eq_str v "delete") eqn:Hd; simpl in *.
  - pose proof (rollback_delete_operation_self op s) as Hs.
    by rewrite H in Hs.
  - destruct (json_eq_str v "softlink" || (json_eq_str v "hardlink" || false)) eqn:Hl.
    + pose proof (rollback_link_operation_self op s) as Hs.
      by rewrite H in Hs.
    + by simplify_eq.
Qed.

(** A well-formed entry is reversed without an exception escaping. *)
Lemma rollback_operation_returns op s :
  well_formed op = true -> exists b, fst (rollback_operation op s) = inr b.
Proof.
  destruct op as [| | | |l|kv]; try discriminate.
  unfold well_formed, rollback_operation, rollback_delete_operation,
    rollback_link_operation, str_field. runfold. simpl.
  intros H. apply andb_true_iff in H as [_ H].
  destruct (assoc "operation_type" kv) as [v|] eqn:Hv; [|simpl; eauto].
  destruct (json_eq_str v "delete") eqn:Hd.
  - destruct (assoc "original_path" kv) as [[]|]; try discriminate.
    destruct (assoc "backup_path" kv) as [[]|]; try discriminate. simpl.
    repeat (case_match; simplify_eq/=); eauto.
  - simpl in *.
    destruct (json_eq_str v "softlink" || (json_eq_str v "hardlink" || false));
      [|simpl; eauto].
    destruct (assoc "target_path" kv) as [[]|]; try discriminate.
    destruct (assoc "backup_path" kv) as [[]|]; try discriminate. simpl.
    repeat (case_match; simplify_eq/=); eauto.
Qed.

(** ** The loop *)

Lemma count_unrecognized_cons op ops :
  count_unrecognized (op :: ops)
  = (if recognized op then 0 else 1) + count_unrecognized ops.
Proof. unfold count_unrecognized. simpl. by destruct (recognized op). Qed.

Lemma count_unrecognized_app l1 l2 :
  count_unrecognized (l1 ++ l2) = count_unrecognized l1 + count_unrecognized l2.
Proof.
  unfold count_unrecognized. by rewrite List.filter_app, length_app.
Qed.

Lemma count_unrecognized_rev l : count_unrecognized (rev l) = count_unrecognized l.
Proof.
  induction l as [|a l IH]; simpl; [done|].
  rewrite count_unrecognized_app, !count_unrecognized_cons, IH.
  change (count_unrecognized []) with 0. lia.
Qed.

Lemma count_unrecognized_pos l :
  0 < count_unrecognized l <-> exists op, In op l /\ recognized op = false.
Proof.
  unfold count_unrecognized. split.
  - destruct (List.filter _ l) as [|op r] eqn:Hf; simpl; [lia|]. intros _.
    assert (Hin : In op (List.filter (fun op => negb (recognized op)) l))
      by (rewrite Hf; by left).
    apply filter_In in Hin as [Hin Hr]. exists op. split; [done|].
    by apply negb_true_iff.
  - intros (op & Hin & Hr).
    assert (Hin' : In op (List.filter (fun op => negb (recognized op)) l))
      by (apply filter_In; by rewrite Hr).
    destruct (List.filter _ l); [done|simpl; lia].
Qed.

(** What a loop that ran to its end has done: one call per entry, in the
    order of the list, each counted once as a success or as a failure. *)
Lemma rollback_loop_completed todo : forall s s',
  rollback_loop todo s = (inr tt, s') ->
  calls (self s') = (calls (self s) ++ todo)%list
  /\ total_operations (stats (self s')) = total_operations (stats (self s))
  /\ successful_rollbacks (stats (self s')) + failed_rollbacks (stats (self s'))
     = successful_rollbacks (stats (self s)) + failed_rollbacks (stats (self s))
       + length todo
  /\ skipped_operations (stats (self s'))
     = skipped_operations (stats (self s)) + count_unrecognized todo
  /\ failed_rollbacks (stats (self s)) + count_unrecognized todo
     <= failed_rollbacks (stats (self s')).
Proof.
  induction todo as [|op rest IH]; intros s s' H.
  - simpl in H. unfold ret in H. simplify_eq.
    rewrite app_nil_r. unfold count_unrecognized. simpl. repeat split; lia.
  - rewrite count_unrecognized_cons. simpl in H. runfold.
    destruct (py_get op "operation_type" JNull); [done|].
    destruct (py_get op "original_path" JNull); [done|].
    destruct (rollback_operation op _) as [[e|b] s1] eqn:Hop; [done|].
    apply rollback_operation_self in Hop. simpl in Hop.
    apply IH in H. simpl in H.
    destruct H as (Hc & Ht & Hsf & Hsk & Hf).
    rewrite Hc, Ht, Hsf, Hsk. clear Hc Ht Hsf Hsk.
    destruct (recognized op).
    + rewrite Hop in *. simpl in *. rewrite <- app_assoc. simpl.
      destruct b; simpl in *; repeat split; lia.
    + destruct Hop as [-> Hop]. rewrite Hop in *. simpl in *.
      rewrite <- app_assoc. simpl. repeat split; lia.
Qed.

(** A loop over well-formed entries runs to its end. *)
Lemma rollback_loop_returns todo : forall s,
  Forall (fun op => well_formed op = true) todo ->
  exists s', rollback_loop todo s = (inr tt, s').
Proof.
  induction todo as [|op rest IH]; intros s H; simpl.
  - by exists s.
  - inversion H as [|? ? Hop Hrest]; subst.
    destruct op as [| | | |l|kv]; try discriminate. runfold. simpl.
    match goal with
    | |- context [rollback_operation ?o ?st] =>
        destruct (rollback_operation_returns o st Hop) as [b Hb];
        destruct (rollback_operation o st) as [r s1]
    end.
    simpl in Hb. subst r. apply IH, Hrest.
Qed.

(** ** The filters *)

Lemma filter_filter {A} (f g : A -> bool) (l : list A) :
  List.filter g (List.filter f l) = List.filter (fun a => f a && g a) l.
Proof.
  induction l as [|a l IH]; simpl; [done|].
  destruct (f a); simpl; [|done]. destruct (g a); by rewrite IH.
Qed.

Lemma well_formed_object op :
  well_formed op = true -> exists kv, op = JObj kv.
Proof. destruct op; try discriminate. eauto. Qed.

Lemma keep_type_returns l op :
  well_formed op = true -> keep_type l op = inr (keeps (keep_type l) op).
Proof.
  intros [kv ->]%well_formed_object. unfold keeps, keep_type. simpl.
  by destruct (py_in_strs _ l).
Qed.

Lemma keep_after_returns t op :
  well_formed op = true -> keep_after t op = inr (keeps (keep_after t) op).
Proof.
  intros H. destruct (well_formed_object op H) as [kv ->].
  unfold well_formed in H. apply andb_true_iff in H as [H _].
  unfold keeps, keep_after. simpl.
  destruct (assoc "timestamp" kv) as [[]|]; try discriminate; simpl;
    by destruct (String.ltb _ _).
Qed.

Lemma keep_before_returns t op :
  well_formed op = true -> keep_before t op = inr (keeps (keep_before t) op).
Proof.
  intros H. destruct (well_formed_object op H) as [kv ->].
  unfold well_formed in H. apply andb_true_iff in H as [H _].
  unfold keeps, keep_before. simpl.
  destruct (assoc "timestamp" kv) as [[]|]; try discriminate; simpl;
    by destruct (String.ltb _ _).
Qed.

Lemma Forall_filter_keep {A} (P : A -> Prop) (f : A -> bool) (l : list A) :
  Forall P l -> Forall P (List.filter f l).
Proof.
  induction 1 as [|a l Ha _ IH]; simpl; [constructor|].
  destruct (f a); [by constructor|done].
Qed.

(** On well-formed entries no filter raises, and the three together keep
    the selected entries in their order. *)
Lemma filter_operations_well_formed operation_types after before ops :
  Forall (fun op => well_formed op = true) ops ->
  filter_operations operation_types after before ops
  = inr (List.filter (selected_json operation_types after before) ops).
Proof.
  intros Hwf. unfold filter_operations, selected_json.
  set (f1 := fun op => match operation_types with
                       | Some (t :: ts) => keeps (keep_type (t :: ts)) op
                       | _ => true end).
  set (f2 := fun op => match after with
                       | Some (String c r) => keeps (keep_after (String c r)) op
                       | _ => true end).
  set (f3 := fun op => match before with
                       | Some (String c r) => keeps (keep_before (String c r)) op
                       | _ => true end).
  assert (H1 : filter_types operation_types ops = inr (List.filter f1 ops)).
  { unfold filter_types, f1. destruct operation_types as [[|t ts]|].
    - clear. induction ops; simpl; congruence.
    - apply filter_res_filter. eapply Forall_impl; [exact Hwf|].
      intros op Hop. by apply keep_type_returns.
    - clear. induction ops; simpl; congruence. }
  assert (Hwf1 := Forall_filter_keep _ f1 _ Hwf).
  assert (H2 : filter_after after (List.filter f1 ops)
               = inr (List.filter f2 (List.filter f1 ops))).
  { unfold filter_after, f2. destruct after as [[|c r]|].
    - clear. induction (List.filter f1 ops); simpl; congruence.
    - apply filter_res_filter. eapply Forall_impl; [exact Hwf1|].
      intros op Hop. by apply keep_after_returns.
    - clear. induction (List.filter f1 ops); simpl; congruence. }
  assert (Hwf2 := Forall_filter_keep _ f2 _ Hwf1).
  assert (H3 : filter_before before (List.filter f2 (List.filter f1 ops))
               = inr (List.filter f3 (List.filter f2 (List.filter f1 ops)))).
  { unfold filter_before, f3. destruct before as [[|c r]|].
    - clear. induction (List.filter f2 _); simpl; congruence.
    - apply filter_res_filter. eapply Forall_impl; [exact Hwf2|].
      intros op Hop. by apply keep_before_returns.
    - clear. induction (List.filter f2 _); simpl; congruence. }
  rewrite H1, H2, H3. f_equal. rewrite !filter_filter.
  apply List.filter_ext. intros op. unfold f1, f2, f3. by rewrite andb_assoc.
Qed.

(** ** A run of [execute_rollback] *)

Lemma loadable_items j :
  loadable j = true ->
  exists v items, py_getitem j "operations" = inr v /\ py_iter v = inr items.
Proof.
  destruct j as [| | | |l|kv]; try discriminate. simpl.
  destruct (assoc "timestamp" kv); [|done].
  destruct (assoc "operations" kv) as [v|]; [|done].
  destruct v; try discriminate; eauto.
Qed.

(** The run after the loader, for a document that loads. *)
Lemma execute_rollback_loaded f operation_types after before s j items :
  path_exists (world s) f = inr true ->
  read_json (world s) f = inr j ->
  loadable j = true ->
  ledger_items (world s) f = Some items ->
  execute_rollback f operation_types after before s =
  match filter_operations operation_types after before items with
  | inl e => (inl e, s)
  | inr [] => (inr 0%Z, s)
  | inr ops =>
      match rollback_loop (rev ops)
              (mkState (set_stats (set_total_operations (length ops)) (self s))
                 (world s)) with
      | (inl e, s') => (inl e, s')
      | (inr _, s') =>
          (inr (if Nat.eqb (failed_rollbacks (stats (self s'))) 0 then 0%Z else 2%Z),
           s')
      end
  end.
Proof.
  intros Hex Hr Hl Hi. unfold execute_rollback. unfold bind at 1.
  rewrite load_rollback_data_spec, Hex, Hr, Hl.
  unfold ledger_items in Hi. rewrite Hr, Hl in Hi.
  runfold.
  destruct (py_getitem j "operations") as [e|v]; [done|].
  destruct (py_iter v) as [e|l]; [done|]. simplify_eq.
  destruct (filter_operations operation_types after before items) as [e|ops];
    [done|].
  destruct ops as [|op ops]; [done|].
  change (is_nil (op :: ops)) with false. cbv beta iota.
  destruct (rollback_loop _ _) as [[e|[]] s']; [done|].
  by destruct (Nat.eqb _ 0).
Qed.

(** The run when the document does not load. *)
Lemma execute_rollback_not_loaded f operation_types after before s :
  fst (load_rollback_data f s) = inr None ->
  execute_rollback f operation_types after before s = (inr 1%Z, s).
Proof.
  intros H. unfold execute_rollback. unfold bind at 1.
  rewrite load_rollback_data_spec in *.
  destruct (path_exists (world s) f) as [e|[|]]; simpl in *; try done.
  injection H as H. by rewrite H.
Qed.

(** What a run that returned has done. *)
Lemma execute_rollback_completed f operation_types after before s code s' :
  execute_rollback f operation_types after before s = (inr code, s') ->
  (code = 1%Z /\ s' = s /\ fst (load_rollback_data f s) = inr None)
  \/ exists items ops,
       ledger_items (world s) f = Some items
       /\ filter_operations operation_types after before items = inr ops
       /\ calls (self s') = (calls (self s) ++ rev ops)%list
       /\ successful_rollbacks (stats (self s')) + failed_rollbacks (stats (self s'))
          = successful_rollbacks (stats (self s)) + failed_rollbacks (stats (self s))
            + length ops
       /\ skipped_operations (stats (self s'))
          = skipped_operations (stats (self s)) + count_unrecognized ops
       /\ failed_rollbacks (stats (self s)) + count_unrecognized ops
          <= failed_rollbacks (stats (self s'))
       /\ (ops = [] -> s' = s)
       /\ (ops <> [] -> total_operations (stats (self s')) = length ops)
       /\ code = (if is_nil ops then 0%Z
                  else if Nat.eqb (failed_rollbacks (stats (self s'))) 0
                       then 0%Z else 2%Z).
Proof.
  intros H.
  destruct (path_exists (world s) f) as [e|[|]] eqn:Hex.
  - unfold execute_rollback in H. unfold bind at 1 in H.
    rewrite load_rollback_data_spec, Hex in H. done.
  - destruct (read_json (world s) f) as [e|j] eqn:Hr.
    { left. rewrite execute_rollback_not_loaded in H
        by (by rewrite load_rollback_data_spec, Hex, Hr).
      simplify_eq. by rewrite load_rollback_data_spec, Hex, Hr. }
    destruct (loadable j) eqn:Hl.
    2:{ left. rewrite execute_rollback_not_loaded in H
          by (by rewrite load_rollback_data_spec, Hex, Hr, Hl).
        simplify_eq. by rewrite load_rollback_data_spec, Hex, Hr, Hl. }
    right. destruct (loadable_items j Hl) as (v & items & Hv & Hit).
    assert (Hi : ledger_items (world s) f = Some items).
    { unfold ledger_items. by rewrite Hr, Hl, Hv, Hit. }
    rewrite (execute_rollback_loaded _ _ _ _ _ j items) in H by done.
    exists items.
    destruct (filter_operations operation_types after before items) as [e|ops];
      [done|].
    exists ops. split; [done|]. split; [done|].
    destruct ops as [|op ops].
    + simplify_eq. unfold count_unrecognized. simpl. rewrite app_nil_r.
      repeat split; try lia; done.
    + remember (op :: ops) as l eqn:El.
      assert (Hnil : is_nil l = false) by (by subst l).
      destruct (rollback_loop _ _) as [[e|[]] s1] eqn:Hloop; [done|].
      injection H as Hcode Hs. subst code s'.
      apply rollback_loop_completed in Hloop. simpl in Hloop.
      destruct Hloop as (Hc & Ht & Hsf & Hsk & Hf).
      rewrite count_unrecognized_rev in Hsk, Hf. rewrite length_rev in Hsf.
      rewrite Hnil.
      repeat split; try done; try lia. intros ->. done.
  - left. rewrite execute_rollback_not_loaded in H
      by (by rewrite load_rollback_data_spec, Hex).
    simplify_eq. by rewrite load_rollback_data_spec, Hex.
Qed.

(** A run over a ledger of well-formed entries returns, and has called
    [rollback_operation] on the selected entries, last first. *)
Lemma execute_rollback_well_formed f operation_types after before s kv ops :
  path_exists (world s) f = inr true ->
  read_json (world s) f = inr (JObj kv) ->
  is_Some (assoc "timestamp" kv) ->
  assoc "operations" kv = Some (JArr ops) ->
  Forall (fun op => well_formed op = true) ops ->
  exists code s',
    execute_rollback f operation_types after before s = (inr code, s')
    /\ (code = 0%Z \/ code = 2%Z)
    /\ calls (self s')
       = (calls (self s)
            ++ rev (List.filter (selected_json operation_types after before) ops))%list
    /\ successful_rollbacks (stats (self s')) + failed_rollbacks (stats (self s'))
       = successful_rollbacks (stats (self s)) + failed_rollbacks (stats (self s))
         + length (List.filter (selected_json operation_types after before) ops).
Proof.
  intros Hex Hr [t Ht] Ho Hwf.
  assert (Hl : loadable (JObj kv) = true) by (simpl; by rewrite Ht, Ho).
  assert (Hi : ledger_items (world s) f = Some ops).
  { unfold ledger_items. rewrite Hr, Hl. simpl. by rewrite Ho. }
  pose proof (filter_operations_well_formed operation_types after before ops Hwf)
    as Hf.
  set (sel := List.filter (selected_json operation_types after before) ops) in *.
  assert (Hwf' : Forall (fun op => well_formed op = true) (rev sel)).
  { apply List.Forall_forall. intros op Hin. apply in_rev in Hin.
    apply filter_In in Hin as [Hin _].
    rewrite List.Forall_forall in Hwf. by apply Hwf. }
  destruct (rollback_loop_returns (rev sel)
              (mkState (set_stats (set_total_operations (length sel)) (self s))
                 (world s)) Hwf') as [s1 Hloop].
  pose proof (execute_rollback_loaded f operation_types after before s
                (JObj kv) ops Hex Hr Hl Hi) as He.
  rewrite Hf in He. fold sel in He.
  destruct (is_nil sel) eqn:Hnil.
  - destruct sel; [|done]. exists 0%Z, s. rewrite app_nil_r. simpl.
    repeat split; auto; lia.
  - assert (He' : execute_rollback f operation_types after before s =
      (inr (if Nat.eqb (failed_rollbacks (stats (self s1))) 0 then 0%Z else 2%Z),
       s1)).
    { rewrite He. destruct sel; [done|]. by rewrite Hloop. }
    apply rollback_loop_completed in Hloop. simpl in Hloop.
    destruct Hloop as (Hc & _ & Hsf & _).
    eexists _, _. split; [exact He'|]. split.
    { destruct (Nat.eqb _ 0); auto. }
    rewrite length_rev in Hsf. split; [done|]. lia.
Qed.

(** ** The ledgers the executor writes *)

Lemma asdict_well_formed (e : duplicate_executor.RollbackEntry) :
  well_formed (duplicate_executor.asdict e) = true.
Proof.
  unfold well_formed, duplicate_executor.asdict, str_field. simpl.
  repeat case_match; done.
Qed.

Lemma selected_json_asdict operation_types after before e :
  selected_json operation_types after before (duplicate_executor.asdict e)
  = selected operation_types after before e.
Proof.
  unfold selected_json, selected, keeps, keep_type, keep_after, keep_before.
  simpl. f_equal; [f_equal|].
  - destruct operation_types as [[|t ts]|]; try done.
    unfold py_in_strs. simpl. by repeat case_match.
  - destruct after as [[|c r]|]; try done. by case_match.
  - destruct before as [[|c r]|]; try done. by case_match.
Qed.

Lemma filter_map_asdict (f : json -> bool) (g : duplicate_executor.RollbackEntry -> bool)
    (l : list duplicate_executor.RollbackEntry) :
  (forall e, f (duplicate_executor.asdict e) = g e) ->
  List.filter f (map duplicate_executor.asdict l)
  = map duplicate_executor.asdict (List.filter g l).
Proof.
  intros H. induction l as [|e l IH]; simpl; [done|].
  rewrite H. destruct (g e); simpl; by rewrite IH.
Qed.

(** The ledgers of the executor's format.  Whatever the entries and
    whatever the filters, the run returns, and the calls of
    [rollback_operation] it has made are the selected entries in the
    reverse of their order in the ledger, each once; every one of them is
    counted as a success or a failure, so none stops the others. *)
Theorem reversal_in_reverse_order
    (entries : list duplicate_executor.RollbackEntry)
    (session_timestamp : string) (was_dry_run : bool) (backup_directory : string)
    (f : string) (operation_types : option (list string))
    (after before : option string) (s : state DuplicateRollback) :
  path_exists (world s) f = inr true ->
  read_json (world s) f
  = inr (ledger_document session_timestamp was_dry_run backup_directory entries) ->
  exists code s',
    execute_rollback f operation_types after before s = (inr code, s')
    /\ calls (self s')
       = (calls (self s)
            ++ map duplicate_executor.asdict
                 (rev (List.filter (selected operation_types after before) entries)))%list
    /\ successful_rollbacks (stats (self s')) + failed_rollbacks (stats (self s'))
       = successful_rollbacks (stats (self s)) + failed_rollbacks (stats (self s))
         + length (List.filter (selected operation_types after before) entries)
    /\ (code = 0%Z \/ code = 2%Z).
Proof.
  intros Hex Hr.
  destruct (execute_rollback_well_formed f operation_types after before s
              _ (map duplicate_executor.asdict entries) Hex Hr)
    as (code & s' & He & Hcode & Hc & Hn).
  - simpl. eauto.
  - reflexivity.
  - apply List.Forall_forall. intros op Hin. apply in_map_iff in Hin as (e & <- & _).
    apply asdict_well_formed.
  - rewrite (filter_map_asdict _ (selected operation_types after before)) in Hc, Hn
      by apply selected_json_asdict.
    rewrite <- map_rev in Hc. rewrite length_map in Hn.
    exists code, s'. done.
Qed.

Lemma reversal_in_reverse_order_witness :
  let s := Scenario.rollback_session false Scenario.world_after_delete_both in
  exists code s',
    execute_rollback Scenario.ledger_path None None None s = (inr code, s')
    /\ calls (self s')
       = (calls (self s)
            ++ map duplicate_executor.asdict
                 (rev (List.filter (selected None None None)
                         Scenario.entries_delete_both)))%list
    /\ successful_rollbacks (stats (self s')) + failed_rollbacks (stats (self s'))
       = successful_rollbacks (stats (self s)) + failed_rollbacks (stats (self s))
         + length (List.filter (selected None None None)
                     Scenario.entries_delete_both)
    /\ (code = 0%Z \/ code = 2%Z).
Proof.
  intros s.
  assert (H1 : path_exists (world s) Scenario.ledger_path = inr true)
    by (vm_compute; reflexivity).
  assert (H2 : read_json (world s) Scenario.ledger_path
               = inr (ledger_document "2025-08-10T09:05:07.000005" false
                        "/home/u/tmp/2delete/duplicatesHandling/duplicate_backups/20250810_090507"
                        Scenario.entries_delete_both))
    by (vm_compute; reflexivity).
  exact (reversal_in_reverse_order Scenario.entries_delete_both _ _ _
           Scenario.ledger_path None None None s H1 H2).
Defined.

(** ** An entry without its path *)

(** The two reversals read the paths of their entry before their [try]:
    an entry of kind delete without an original path raises out of
    [rollback_operation], in dry-run mode too, and the loop stops on it
    with the entries after it not attempted and the entry not counted. *)
Lemma rollback_loop_stops kv rest s :
  assoc "operation_type" kv = Some (JStr "delete") ->
  assoc "original_path" kv = None ->
  rollback_loop (JObj kv :: rest) s
  = (inl KeyError, mkState (record_call (JObj kv) (self s)) (world s)).
Proof.
  intros Ht Ho. simpl. unfold rollback_operation, rollback_delete_operation.
  runfold. simpl. rewrite Ht, Ho. done.
Qed.

(** C4 fails on the code.  A ledger that loads, with two delete entries of
    which the second has no original path: the reversal starts with the
    second, the lookup of the path raises [KeyError] above the [try] that
    is meant to turn every failure into [False], and the run ends there:
    the first entry is never attempted, nothing is counted and the file
    is not restored.  Alone, the first entry is reversed. *)
Theorem entry_without_path_stops_the_reversal :
  let s := Scenario.rollback_session false
             (Scenario.world_with_document Examples.ledger_with_gap) in
  let r := execute_rollback Scenario.ledger_path None None None s in
  let s1 := Scenario.rollback_session false
              (Scenario.world_with_document Examples.ledger_without_gap) in
  let r1 := execute_rollback Scenario.ledger_path None None None s1 in
  load_rollback_data Scenario.ledger_path s
  = (inr (Some Examples.ledger_with_gap), s)
  /\ ledger_items (world s) Scenario.ledger_path
     = Some [Examples.restorable_entry; Examples.entry_without_path]
  /\ fst r = inl KeyError
  /\ calls (self (snd r)) = [Examples.entry_without_path]
  /\ successful_rollbacks (stats (self (snd r))) = 0
  /\ failed_rollbacks (stats (self (snd r))) = 0
  /\ w_fs (world (snd r)) !! "/a/y.txt" = None
  /\ fst r1 = inr 0%Z
  /\ calls (self (snd r1)) = [Examples.restorable_entry]
  /\ w_fs (world (snd r1)) !! "/a/y.txt" = Some (File (Text "B")).
Proof. vm_compute. repeat split. Qed.

(** ** The time stamp filters *)



(** ** The counters of a run *)

(** C10.  When a run started on a new object returns, the successes and
    the failures add up to the total, which is the number of entries left
    by the filters; the entries of an unknown kind are counted as skipped
    and again as failed, so that one of them is enough for the run to
    return 2. *)
Theorem rollback_counts_add_up
    (dry verb : bool) (w : World) (f : string)
    (operation_types : option (list string)) (after before : option string)
    (code : Z) (s' : state DuplicateRollback) :
  execute_rollback f operation_types after before
    (mkState (__init__ dry verb) w) = (inr code, s') ->
  let st := stats (self s') in
  successful_rollbacks st + failed_rollbacks st = total_operations st
  /\ total_operations st = length (calls (self s'))
  /\ skipped_operations st = count_unrecognized (calls (self s'))
  /\ skipped_operations st <= failed_rollbacks st
  /\ (forall op, In op (calls (self s')) -> recognized op = false -> code = 2%Z)
  /\ (code <> 1%Z ->
      exists items ops,
        ledger_items w f = Some items
        /\ filter_operations operation_types after before items = inr ops
        /\ calls (self s') = rev ops
        /\ total_operations st = length ops).
Proof.
  intros H st. subst st.
  apply execute_rollback_completed in H. simpl in H.
  destruct H as [(-> & -> & _) | (items & ops & Hi & Hf & Hc & Hsf & Hsk & Hfl & Hnil & Htot & Hcode)].
  - simpl. unfold count_unrecognized. simpl. repeat split; try lia; try done.
  - assert (Ht : total_operations (stats (self s')) = length ops).
    { destruct ops as [|op ops]; [by rewrite Hnil|]. by apply Htot. }
    rewrite Hc, count_unrecognized_rev, length_rev. simpl in *.
    split; [lia|]. split; [done|]. split; [done|]. split; [lia|]. split.
    + intros op Hin Hr. apply in_rev in Hin.
      assert (Hpos : 0 < count_unrecognized ops)
        by (apply count_unrecognized_pos; eauto).
      rewrite Hcode. destruct ops; [done|]. simpl.
      destruct (Nat.eqb_spec (failed_rollbacks (stats (self s'))) 0); [lia|done].
    + intros _. exists items, ops. done.
Qed.

Lemma rollback_counts_add_up_witness :
  exists s',
    execute_rollback Scenario.ledger_path None None None
      (mkState (__init__ false false)
         (Scenario.world_with_document Scenario.odd_ledger)) = (inr 2%Z, s')
    /\ successful_rollbacks (stats (self s')) + failed_rollbacks (stats (self s'))
       = total_operations (stats (self s'))
    /\ skipped_operations (stats (self s')) <= failed_rollbacks (stats (self s')).
Proof.
  pose (r := execute_rollback Scenario.ledger_path None None None
      (mkState (__init__ false false)
         (Scenario.world_with_document Scenario.odd_ledger))).
  assert (Hr : r = (inr 2%Z, snd r)) by (vm_compute; reflexivity).
  exists (snd r). split; [exact Hr|].
  destruct (rollback_counts_add_up false false
              (Scenario.world_with_document Scenario.odd_ledger)
              Scenario.ledger_path None None None 2%Z (snd r) Hr)
    as (H1 & _ & _ & H4 & _).
  split; [exact H1 | exact H4].
Defined.

(** ** What the loader requires *)

(** C8 (as amended).  The loader asks for the two keys ['timestamp'] and
    ['operations'] and for nothing else at the top level, but the value of
    ['operations'] has to have a length: a file that exists loads exactly
    when it holds a JSON object with the two keys whose operations are an
    array (or a string or an object).  When the document does not load the
    run returns 1 and has changed nothing; when it loads the run never
    returns 1, and on well-formed entries it returns 0 or 2 having called
    [rollback_operation] on the selected entries, last first. *)
Theorem loader_requires_sized_operations (f : string) (s : state DuplicateRollback) :
  path_exists (world s) f = inr true ->
  (forall j, read_json (world s) f = inr j ->
     load_rollback_data f s = (inr (if loadable j then Some j else None), s))
  /\ (forall e, read_json (world s) f = inl e ->
     load_rollback_data f s = (inr None, s))
  /\ (forall kv,
     loadable (JObj kv) = true
     <-> is_Some (assoc "timestamp" kv)
         /\ exists v, assoc "operations" kv = Some v /\ sized v = true)
  /\ (forall j, (forall kv, j <> JObj kv) -> loadable j = false)
  /\ (forall operation_types after before,
     fst (load_rollback_data f s) = inr None ->
     execute_rollback f operation_types after before s = (inr 1%Z, s))
  /\ (forall j operation_types after before,
     read_json (world s) f = inr j -> loadable j = true ->
     fst (execute_rollback f operation_types after before s) <> inr 1%Z)
  /\ (forall kv ops operation_types after before,
     read_json (world s) f = inr (JObj kv) ->
     is_Some (assoc "timestamp" kv) ->
     assoc "operations" kv = Some (JArr ops) ->
     Forall (fun op => well_formed op = true) ops ->
     exists code s',
       execute_rollback f operation_types after before s = (inr code, s')
       /\ (code = 0%Z \/ code = 2%Z)
       /\ calls (self s')
          = (calls (self s)
               ++ rev (List.filter (selected_json operation_types after before) ops))%list).
Proof.
  intros Hex.
  split; [|split; [|split; [|split; [|split; [|split]]]]].
  - intros j Hr. by rewrite load_rollback_data_spec, Hex, Hr.
  - intros e Hr. by rewrite load_rollback_data_spec, Hex, Hr.
  - intros kv. simpl. split.
    + destruct (assoc "timestamp" kv); [|done].
      destruct (assoc "operations" kv) as [v|]; [|done]. eauto.
    + intros [[t Ht] (v & Hv & Hs)]. by rewrite Ht, Hv.
  - intros j Hj. destruct j; try done. by destruct (Hj kv).
  - intros. by apply execute_rollback_not_loaded.
  - intros j operation_types after before Hr Hl.
    destruct (loadable_items j Hl) as (v & items & Hv & Hit).
    rewrite (execute_rollback_loaded _ _ _ _ _ j items); try done.
    2:{ unfold ledger_items. by rewrite Hr, Hl, Hv, Hit. }
    destruct (filter_operations _ _ _ _) as [e|[|op ops]]; try done.
    destruct (rollback_loop _ _) as [[e|[]] s1]; [done|].
    simpl. by destruct (Nat.eqb _ 0).
  - intros kv ops operation_types after before Hr Ht Ho Hwf.
    destruct (execute_rollback_well_formed f operation_types after before s
                kv ops Hex Hr Ht Ho Hwf) as (code & s' & He & Hc & Hcalls & _).
    eauto.
Qed.

Lemma loader_requires_sized_operations_witness :
  let s := Scenario.rollback_session false
             (Scenario.world_with_document Scenario.odd_ledger) in
  load_rollback_data Scenario.ledger_path s = (inr (Some Scenario.odd_ledger), s)
  /\ fst (execute_rollback Scenario.ledger_path None None None s) <> inr 1%Z.
Proof.
  intros s.
  assert (Hex : path_exists (world s) Scenario.ledger_path = inr true)
    by (vm_compute; reflexivity).
  assert (Hr : read_json (world s) Scenario.ledger_path = inr Scenario.odd_ledger)
    by (vm_compute; reflexivity).
  destruct (loader_requires_sized_operations Scenario.ledger_path s Hex)
    as (H1 & _ & _ & _ & _ & H6 & _).
  split.
  - exact (H1 Scenario.odd_ledger Hr).
  - exact (H6 Scenario.odd_ledger None None None Hr eq_refl).
Defined.

(** C8, as the specification states it, fails: a JSON object that has the
    two required keys, the operations being [null], does not load, and the
    run returns 1. *)
Lemma null_operations_do_not_load :
  let s := Scenario.rollback_session false
             (Scenario.world_with_document Scenario.null_operations) in
  read_json (world s) Scenario.ledger_path = inr Scenario.null_operations
  /\ py_contains Scenario.null_operations "timestamp" = inr true
  /\ py_contains Scenario.null_operations "operations" = inr true
  /\ load_rollback_data Scenario.ledger_path s = (inr None, s)
  /\ execute_rollback Scenario.ledger_path None None None s = (inr 1%Z, s).
Proof. vm_compute. repeat split. Qed.

(** ** The two scripts together *)

(** The real session of the scenario deletes [/a/x.txt] (content [A]) and
    [/b/x.txt] (content [B]) with one backup name for both; the rollback
    of its ledger reports two successes and puts [B] back in both
    places. *)
Lemma rollback_after_colliding_backups :
  let s := Scenario.rollback_session false Scenario.world_after_delete_both in
  let r := execute_rollback Scenario.ledger_path None None None s in
  fst r = inr 0%Z
  /\ successful_rollbacks (stats (self (snd r))) = 2
  /\ w_fs (world (snd r)) !! "/b/x.txt" = Some (File (Text "B"))
  /\ w_fs (world (snd r)) !! "/a/x.txt" = Some (File (Text "B")).
Proof. vm_compute. repeat split. Qed.

End rollback_proofs.

(** * More on paths *)

Section Paths.

Lemma has_slash_app (a b : string) :
  has_slash (a ++ b) = has_slash a || has_slash b.
Proof.
  induction a as [|c a IH]; simpl; [done|]. by rewrite IH, orb_assoc.
Qed.

Lemma has_slash_path_name (s : string) : has_slash (path_name s) = false.
Proof.
  induction s as [|c r IH]; simpl; [done|].
  destruct (has_slash r) eqn:Hr; [done|].
  destruct (is_slash c) eqn:Hc; [done|]. simpl. by rewrite Hc, Hr.
Qed.

Lemma is_slash_digit (n : nat) : is_slash (digit n) = false.
Proof.
  unfold digit.
  assert (H : n mod 10 < 10) by (apply Nat.mod_upper_bound; discriminate).
  destruct (n mod 10) as [|[|[|[|[|[|[|[|[|[|m]]]]]]]]]]; try reflexivity.
  lia.
Qed.

Lemma zfill_S (k n : nat) :
  zfill (S k) n = zfill k (n / 10) ++ String (digit n) "".
Proof. reflexivity. Qed.

Lemma has_slash_zfill (k n : nat) : has_slash (zfill k n) = false.
Proof.
  revert n. induction k as [|k IH]; intros n; [reflexivity|].
  rewrite zfill_S, has_slash_app, IH.
  cbn [has_slash orb]. by rewrite is_slash_digit.
Qed.

Lemma has_slash_strftime_HMS (t : datetime) : has_slash (strftime_HMS t) = false.
Proof.
  unfold strftime_HMS. by rewrite !has_slash_app, !has_slash_zfill.
Qed.

Lemma append_cons (c : ascii) (a b : string) :
  String c a ++ b = String c (a ++ b).
Proof. reflexivity. Qed.

Lemma dirname_join (d n : string) :
  has_slash n = false -> dirname (path_join d n) = d.
Proof.
  intros Hn. unfold path_join. change ("/" ++ n) with (String "/" n).
  induction d as [|c d IH].
  - change (dirname (String "/" n) = ""). cbn [dirname]. by rewrite Hn.
  - rewrite append_cons. cbn [dirname]. rewrite has_slash_app.
    cbn [has_slash]. change (is_slash "/") with true.
    rewrite orb_true_r. by rewrite IH.
Qed.

(** The parent of [d / name] is [d]. *)
Lemma path_parent_join (d n : string) :
  d <> "" -> has_slash n = false -> path_parent (path_join d n) = d.
Proof.
  intros Hd Hn. unfold path_parent. rewrite dirname_join by done.
  by destruct d.
Qed.

Lemma path_join_nonempty (d n : string) : path_join d n <> "".
Proof. unfold path_join. by destruct d. Qed.

End Paths.

(** * More on the file system *)

Section Files.

Variable w : World.

(** Where [follow] stops there is no symbolic link. *)
Lemma follow_end fuel (fs : gmap string node) p q n :
  follow fuel fs p = Some (q, n) ->
  fs !! q = n /\ (forall t, n <> Some (Symlink t)).
Proof.
  revert p. induction fuel as [|k IH]; intros p; simpl;
    destruct (fs !! p) as [[c|t|]|] eqn:Hp; intros H; simplify_eq;
    try done; eauto.
Qed.

Lemma follow_stops (fs : gmap string node) p n :
  fs !! p = n -> (forall t, n <> Some (Symlink t)) ->
  follow MAXSYMLINKS fs p = Some (p, n).
Proof.
  intros H Hn. change MAXSYMLINKS with (S 39). cbn [follow]. rewrite H.
  destruct n as [[c|t|]|]; try done. by destruct (Hn t).
Qed.

(** A chain of links that ends on a directory does not go through a path
    that holds a file or nothing; it is the same in a file system that
    differs on such paths only. *)
Lemma follow_dir_agree fuel (fs fs' : gmap string node) p q :
  (forall x, fs' !! x = fs !! x
             \/ fs !! x = None \/ exists c, fs !! x = Some (File c)) ->
  follow fuel fs p = Some (q, Some Dir) ->
  follow fuel fs' p = Some (q, Some Dir).
Proof.
  intros Hag. revert p. induction fuel as [|k IH]; intros p; simpl;
    destruct (fs !! p) as [[c|t|]|] eqn:Hp; intros H; try discriminate H;
    (destruct (Hag p) as [He|[Hn|[c' Hc]]]; [|congruence..]);
    rewrite He, Hp; eauto.
Qed.

(** A chain of links that ends on a node is the same in a file system
    that differs on free paths only. *)
Lemma follow_kept fuel (fs fs' : gmap string node) p q n :
  (forall x, fs' !! x = fs !! x \/ fs !! x = None) ->
  follow fuel fs p = Some (q, Some n) ->
  follow fuel fs' p = Some (q, Some n).
Proof.
  intros Hag. revert p. induction fuel as [|k IH]; intros p; simpl;
    destruct (fs !! p) as [[c|t|]|] eqn:Hp; intros H; try discriminate H;
    (destruct (Hag p) as [He|Hn]; [|congruence]);
    rewrite He, Hp; eauto.
Qed.

Lemma resolve_kept (fs fs' : gmap string node) p r :
  (forall x, fs' !! x = fs !! x \/ fs !! x = None) ->
  resolve fs p = Some r -> resolve fs' p = Some r.
Proof.
  intros Hag. unfold resolve.
  destruct (follow MAXSYMLINKS fs p) as [[q [n|]]|] eqn:Hf; try done.
  by rewrite (follow_kept _ fs fs' p q n Hag Hf).
Qed.

Lemma is_dir_agree (fs fs' : gmap string node) d :
  (forall x, fs' !! x = fs !! x
             \/ fs !! x = None \/ exists c, fs !! x = Some (File c)) ->
  is_dir fs d = true -> is_dir fs' d = true.
Proof.
  intros Hag. unfold is_dir, resolve.
  destruct (follow MAXSYMLINKS fs d) as [[q [[c|t|]|]]|] eqn:Hf; try done.
  intros _. by rewrite (follow_dir_agree _ fs fs' d q Hag Hf).
Qed.

(** [mkdir(parents=True, exist_ok=True)] on directories that exist. *)
Lemma mkdirs_existing (fs : gmap string node) ds :
  Forall (fun d => is_dir fs d = true) ds -> mkdirs fs ds = Some fs.
Proof.
  induction 1 as [|d ds Hd _ IH]; simpl; [done|].
  unfold is_dir in Hd. destruct (resolve fs d) as [[q [c|t|]]|]; done.
Qed.

Lemma mkdir_p_existing p :
  w_fault w SysMkdir p = false ->
  Forall (fun d => is_dir (w_fs w) d = true) (ancestors p ++ [p]) ->
  mkdir_p w p = inr w.
Proof.
  intros Hf Hd. unfold mkdir_p. rewrite Hf, (mkdirs_existing _ _ Hd).
  by destruct w.
Qed.

(** What [mkdir(parents=True, exist_ok=True)] leaves: the directories
    asked for, and nothing changed but paths that were free. *)
Lemma is_dir_insert (fs : gmap string node) d :
  is_dir (<[d := Dir]> fs) d = true.
Proof.
  unfold is_dir, resolve.
  rewrite (follow_stops (<[d := Dir]> fs) d (Some Dir)); [done| |done].
  by rewrite lookup_insert_eq.
Qed.

Lemma mkdirs_spec ds : forall (fs fs' : gmap string node),
  mkdirs fs ds = Some fs' ->
  (forall x, fs' !! x = fs !! x \/ fs !! x = None)
  /\ Forall (fun d => is_dir fs' d = true) ds.
Proof.
  induction ds as [|d r IH]; intros fs fs' H; simpl in H.
  - simplify_eq. split; [by left|constructor].
  - destruct (resolve fs d) as [[q [c|t|]]|] eqn:Hr; try done.
    + destruct (IH _ _ H) as [Hag HF]. split; [done|].
      constructor; [|done].
      apply (is_dir_agree fs); [|by unfold is_dir; rewrite Hr].
      intros x. destruct (Hag x); auto.
    + destruct (fs !! d) eqn:Hd; [done|].
      destruct (IH _ _ H) as [Hag HF]. split.
      * intros x. destruct (decide (x = d)) as [->|Hne]; [by right|].
        destruct (Hag x) as [He|Hn]; rewrite lookup_insert_ne in * by done;
          auto.
      * constructor; [|done].
        apply (is_dir_agree (<[d := Dir]> fs)); [|apply is_dir_insert].
        intros x. destruct (Hag x); auto.
Qed.

Lemma mkdir_p_spec p w' :
  mkdir_p w p = inr w' ->
  (forall x, w_fs w' !! x = w_fs w !! x \/ w_fs w !! x = None)
  /\ is_dir (w_fs w') p = true
  /\ w_fault w' = w_fault w.
Proof.
  unfold mkdir_p. destruct (w_fault w SysMkdir p); [done|].
  destruct (mkdirs (w_fs w) (ancestors p ++ [p])) as [fs'|] eqn:Hm; [|done].
  intros H. simplify_eq. simpl.
  destruct (mkdirs_spec _ _ _ Hm) as [Hag HF]. split; [done|]. split; [|done].
  apply List.Forall_forall with (x := p) in HF; [done|].
  apply in_or_app. right. by left.
Qed.

(** Writing at the end of a chain of links leaves the chain. *)
Lemma follow_insert_end fuel (fs : gmap string node) p q n c :
  follow fuel fs p = Some (q, n) ->
  follow fuel (<[q := File c]> fs) p = Some (q, Some (File c)).
Proof.
  revert p. induction fuel as [|k IH]; intros p H;
    pose proof (follow_end _ _ _ _ _ H) as [Hq Hn]; simpl in *;
    destruct (fs !! p) as [[c'|t|]|] eqn:Hp; simplify_eq;
    rewrite ?lookup_insert_eq; try done.
  assert (p <> q) by (intros ->; rewrite Hp in Hn; by destruct (Hn t)).
  rewrite lookup_insert_ne by done. rewrite Hp. by apply IH.
Qed.

Lemma touch_spec p w' :
  touch w p = inr w' ->
  (forall x, w_fs w' !! x = w_fs w !! x \/ w_fs w !! x = None)
  /\ (exists r, resolve (w_fs w') p = Some r)
  /\ w_fault w' = w_fault w.
Proof.
  unfold touch. destruct (w_fault w SysOpenW p); [done|].
  destruct (follow MAXSYMLINKS (w_fs w) p) as [[q [n|]]|] eqn:Hf; try done.
  - intros H. simplify_eq. split; [by left|]. split; [|done].
    unfold resolve. rewrite Hf. eauto.
  - destruct (is_dir (w_fs w) (path_parent q)); [|done].
    intros H. simplify_eq. simpl.
    pose proof (follow_end _ _ _ _ _ Hf) as [Hq _].
    split; [|split; [|done]].
    + intros x. destruct (decide (x = q)) as [->|]; [by right|].
      left. by rewrite lookup_insert_ne.
    + unfold resolve. rewrite (follow_insert_end _ _ _ _ _ _ Hf). eauto.
Qed.

(** A regular file exists. *)
Lemma resolve_file (fs : gmap string node) p c :
  fs !! p = Some (File c) -> resolve fs p = Some (p, File c).
Proof. intros H. unfold resolve, MAXSYMLINKS. simpl. by rewrite H. Qed.

Lemma resolve_absent (fs : gmap string node) p :
  fs !! p = None -> resolve fs p = None.
Proof. intros H. unfold resolve, MAXSYMLINKS. simpl. by rewrite H. Qed.

(** The copy of a regular file to a path that is free. *)
Lemma copy2_fresh src dst c :
  w_fault w SysCopy src = false ->
  w_fault w SysCopy dst = false ->
  w_fs w !! src = Some (File c) ->
  w_fs w !! dst = None ->
  is_dir (w_fs w) (path_parent dst) = true ->
  copy2 w src dst = inr (set_fs w (<[dst := File c]> (w_fs w))).
Proof.
  intros Hs Hd Hsrc Hdst Hdir. unfold copy2. rewrite Hs, Hd. cbv [orb].
  rewrite (resolve_file _ _ _ Hsrc).
  assert (Hnd : is_dir (w_fs w) dst = false)
    by (unfold is_dir; by rewrite (resolve_absent _ _ Hdst)).
  rewrite Hnd. cbv zeta.
  assert (Hf : follow MAXSYMLINKS (w_fs w) dst = Some (dst, None))
    by (unfold MAXSYMLINKS; simpl; by rewrite Hdst).
  rewrite Hf.
  destruct (String.eqb_spec dst src) as [->|_]; [congruence|].
  apply write_file_plain. auto.
Qed.

(** A copy never writes over the file it reads: what is at the source
    path stays. *)
Lemma copy2_keeps_source src dst w' :
  copy2 w src dst = inr w' -> w_fs w' !! src = w_fs w !! src.
Proof.
  unfold copy2. destruct (_ || _); [done|].
  destruct (resolve (w_fs w) src) as [[rs [c|t|]]|] eqn:Hr; try done.
  set (dst' := if is_dir (w_fs w) dst then path_join dst (path_name src) else dst).
  destruct (follow MAXSYMLINKS (w_fs w) dst') as [[q n]|] eqn:Hf; [|done].
  destruct (String.eqb_spec q rs) as [->|Hne]; [done|].
  unfold write_file. rewrite Hf.
  apply follow_end in Hf as [Hq Hn].
  assert (Hsrc : q <> src).
  { intros ->. unfold resolve in Hr.
    rewrite (follow_stops _ _ _ Hq Hn) in Hr.
    destruct n; simplify_eq. }
  destruct n as [[c'|t|]|]; try done.
  - intros H. simplify_eq. simpl. by rewrite lookup_insert_ne.
  - by destruct (Hn t).
  - destruct (is_dir (w_fs w) (path_parent q)); [|done].
    intros H. simplify_eq. simpl. by rewrite lookup_insert_ne.
Qed.

(** A link that points to itself leads nowhere. *)
Lemma follow_self fuel (fs : gmap string node) p :
  fs !! p = Some (Symlink p) -> follow fuel fs p = None.
Proof. intros H. induction fuel as [|k IH]; simpl; by rewrite H. Qed.

(** What the two link calls leave. *)
Lemma symlink_to_fs link target w' :
  symlink_to w link target = inr w' ->
  w_fs w' = <[link := Symlink target]> (w_fs w) /\ w_fault w' = w_fault w.
Proof. unfold symlink_to. intros; repeat case_match; simplify_eq; done. Qed.

Lemma hardlink_to_fs link source w' :
  hardlink_to w link source = inr w' ->
  exists n, w_fs w !! source = Some n /\ w_fs w !! link = None
            /\ w_fs w' = <[link := n]> (w_fs w) /\ w_fault w' = w_fault w.
Proof. unfold hardlink_to. intros; repeat case_match; simplify_eq; eauto. Qed.

End Files.

(** * More on the executor *)

Module executor_more.

Import duplicate_executor accounting conditions executor_proofs.

(** ** Counters and ledger *)

Lemma operation_invariant_refl s : operation_invariant s s.
Proof.
  split; [done|]. split; [done|]. exists []. by rewrite app_nil_r.
Qed.

Lemma operation_invariant_trans s1 s2 s3 :
  operation_invariant s1 s2 -> operation_invariant s2 s3 ->
  operation_invariant s1 s3.
Proof.
  intros (Hr1 & Hm1 & n1 & He1 & Hl1) (Hr2 & Hm2 & n2 & He2 & Hl2).
  split; [congruence|]. split; [lia|].
  exists (n1 ++ n2)%list. rewrite He2, He1, <- app_assoc, length_app.
  split; [done|lia].
Qed.

Ltac close_invariant :=
  unfold operation_invariant, requests, mutations; simpl;
  split; [done|]; split; [lia|];
  first [ exists []; rewrite app_nil_r; split; [done|simpl; lia]
        | eexists [_]; split; [reflexivity|simpl; lia] ].

Lemma execute_soft_link_invariant src tgt ty s :
  operation_invariant s (snd (execute_soft_link src tgt ty s)).
Proof.
  unfold execute_soft_link, create_backup, restore_from_backup. munfold.
  repeat (case_match; simplify_eq/=); close_invariant.
Qed.

Lemma execute_hard_link_invariant src tgt ty s :
  operation_invariant s (snd (execute_hard_link src tgt ty s)).
Proof.
  unfold execute_hard_link, create_backup, restore_from_backup. munfold.
  repeat (case_match; simplify_eq/=); close_invariant.
Qed.

Lemma execute_delete_invariant p ty s :
  operation_invariant s (snd (execute_delete p ty s)).
Proof.
  unfold execute_delete, create_backup. munfold.
  repeat (case_match; simplify_eq/=); close_invariant.
Qed.

Lemma execute_action_invariant a p q s :
  operation_invariant s (snd (execute_action a p q s)).
Proof.
  destruct a; simpl;
    auto using execute_soft_link_invariant, execute_hard_link_invariant,
      execute_delete_invariant.
  unfold bind.
  pose proof (execute_delete_invariant p "original" s) as H1.
  destruct (execute_delete p "original" s) as [[e|b1] s1]; [done|].
  pose proof (execute_delete_invariant q "duplicate" s1) as H2.
  destruct (execute_delete q "duplicate" s1) as [[e|b2] s2]; simpl in *;
    eauto using operation_invariant_trans.
Qed.

(** A request that returns is counted once, as processed, as an error or
    as skipped; one that raises is not counted. *)
Lemma process_action_counts e s r s' :
  process_action e s = (r, s') ->
  requests (stats (self s'))
  = requests (stats (self s)) + (match r with inr _ => 1 | inl _ => 0 end)
  /\ mutations (stats (self s)) <= mutations (stats (self s'))
  /\ exists new,
       rollback_entries (self s') = (rollback_entries (self s) ++ new)%list
       /\ length new + mutations (stats (self s)) = mutations (stats (self s')).
Proof.
  unfold process_action. intros H.
  assert (Hnil : forall f b,
    (r, s') = (inr b, mkState (set_stats f (self s)) (world s)) ->
    requests (f (stats (self s))) = requests (stats (self s)) + 1 ->
    mutations (f (stats (self s))) = mutations (stats (self s)) ->
    requests (stats (self s'))
    = requests (stats (self s)) + (match r with inr _ => 1 | inl _ => 0 end)
    /\ mutations (stats (self s)) <= mutations (stats (self s'))
    /\ exists new,
         rollback_entries (self s') = (rollback_entries (self s) ++ new)%list
         /\ length new + mutations (stats (self s)) = mutations (stats (self s'))).
  { intros f b Heq Hf Hm. simplify_eq. simpl. split; [done|]. split; [lia|].
    exists []. rewrite app_nil_r. split; [done|simpl; lia]. }
  destruct (ActionType_of_value (action e)) as [a|].
  - unfold bind at 1 in H.
    destruct (executor_proofs.validate_pure e a s) as [v Hv]. rewrite Hv in H.
    destruct v.
    + unfold bind at 1 in H.
      pose proof (execute_action_invariant a (entry_original_path e)
                    (entry_duplicate_path e) s) as (Hr & Hm & new & He & Hl).
      destruct (execute_action a _ _ s) as [[ex|b] s1]; simpl in *.
      * simplify_eq. split; [lia|]. split; [done|]. eauto.
      * unfold requests, mutations in *. clear Hnil.
        destruct b; cbv [bind modify_self ret] in H; simplify_eq; simpl in *;
          (split; [lia|]); (split; [done|]); eauto.
    + eapply (Hnil incr_errors false); [exact (eq_sym H)| |];
        unfold requests, mutations; simpl; lia.
    + eapply (Hnil incr_skipped false); [exact (eq_sym H)| |];
        unfold requests, mutations; simpl; lia.
  - eapply (Hnil incr_skipped); [exact (eq_sym H)| |];
      unfold requests, mutations; simpl; lia.
Qed.

(** X1.  When the batch loop returns, every row has been counted exactly
    once, as a processed row, as an error or as skipped. *)
Theorem every_request_is_counted_once
    (entries : list DuplicateEntry) (s s' : state DuplicateFileExecutor) :
  process_all entries s = (inr tt, s') ->
  processed_rows (stats (self s')) + errors (stats (self s'))
    + skipped (stats (self s'))
  = processed_rows (stats (self s)) + errors (stats (self s))
    + skipped (stats (self s)) + length entries.
Proof.
  revert s. induction entries as [|e r IH]; intros s H; simpl in H.
  - unfold ret in H. simplify_eq. simpl. lia.
  - unfold bind in H.
    destruct (process_action e s) as [[ex|b] s1] eqn:Hp; [done|].
    apply process_action_counts in Hp as (Hc & _).
    apply IH in H. unfold requests in Hc. simpl. lia.
Qed.

Lemma every_request_is_counted_once_witness :
  let entries := [Scenario.row "DELETE_BOTH"; Scenario.row "MOVE"] in
  let s := Scenario.session false Scenario.world_two_files in
  let s' := snd (process_all entries s) in
  processed_rows (stats (self s')) + errors (stats (self s'))
    + skipped (stats (self s'))
  = processed_rows (stats (self s)) + errors (stats (self s))
    + skipped (stats (self s)) + length entries.
Proof.
  intros entries s s'.
  apply (every_request_is_counted_once entries s s').
  vm_compute; reflexivity.
Defined.

(** X2.  Whatever the rows and however the loop ends, the ledger only
    grows, and it grows by one entry for each link created and each file
    deleted that the counters record. *)
Theorem ledger_grows_with_the_mutation_counters
    (entries : list DuplicateEntry) (s : state DuplicateFileExecutor) :
  let s' := snd (process_all entries s) in
  exists new,
    rollback_entries (self s') = (rollback_entries (self s) ++ new)%list
    /\ length new + (softlinks_created (stats (self s))
                     + hardlinks_created (stats (self s))
                     + files_deleted (stats (self s)))
       = softlinks_created (stats (self s'))
         + hardlinks_created (stats (self s'))
         + files_deleted (stats (self s')).
Proof.
  revert s. induction entries as [|e r IH]; intros s; simpl.
  - exists []. rewrite app_nil_r. split; [done|simpl; lia].
  - unfold bind.
    destruct (process_action e s) as [r1 s1] eqn:Hp.
    apply process_action_counts in Hp as (_ & Hm & n1 & He1 & Hl1).
    destruct r1 as [ex|b]; simpl in *.
    + exists n1. done.
    + destruct (IH s1) as (n2 & He2 & Hl2).
      exists (n1 ++ n2)%list. rewrite He2, He1, <- app_assoc, length_app.
      split; [done|]. unfold mutations in *. lia.
Qed.

(** ** What validation guarantees *)

(** X3.  A request that passes validation has what its action needs: both
    files exist (one of them is enough for a delete-both), the directory
    of each existing file can be written, and for a hard link the original
    and the directory of the duplicate are on one device. *)
Theorem validation_success_guarantees
    (e : DuplicateEntry) (a : ActionType) (s : state DuplicateFileExecutor) :
  let orig := entry_original_path e in
  let dup := entry_duplicate_path e in
  validate_file_paths e a s = (inr SUCCESS, s) ->
  (a <> DELETE_BOTH ->
     path_exists (world s) orig = inr true /\ path_exists (world s) dup = inr true)
  /\ (path_exists (world s) orig = inr true \/ path_exists (world s) dup = inr true)
  /\ (path_exists (world s) orig = inr true ->
      os_access_W (world s) (path_parent orig) = true)
  /\ (path_exists (world s) dup = inr true ->
      os_access_W (world s) (path_parent dup) = true)
  /\ (is_hardlink_action a = true ->
      exists d, stat_dev (world s) orig = inr d
                /\ stat_dev (world s) (path_parent dup) = inr d).
Proof.
  intros orig dup. subst orig dup.
  unfold validate_file_paths, check_existence, check_same_device. munfold.
  intros H.
  destruct (path_exists (world s) (entry_original_path e)) as [ex|oe] eqn:Ho;
    destruct (path_exists (world s) (entry_duplicate_path e)) as [ex'|de] eqn:Hd;
    destruct (stat_dev (world s) (entry_original_path e)) as [ex1|d1] eqn:H1;
    destruct (stat_dev (world s) (path_parent (entry_duplicate_path e)))
      as [ex2|d2] eqn:H2;
    repeat match goal with
    | Hx : path_exists _ _ = inl ?x |- _ =>
        is_var x; pose proof (path_exists_raises _ _ _ Hx); subst x
    | Hx : stat_dev _ _ = inl ?x |- _ =>
        is_var x; pose proof (stat_dev_raises _ _ _ Hx); subst x
    end;
    destruct (os_access_W (world s) (path_parent (entry_original_path e))) eqn:Hoa;
    destruct (os_access_W (world s) (path_parent (entry_duplicate_path e))) eqn:Hda;
    try destruct oe; try destruct de; destruct a;
    repeat (simpl in H; rewrite ?Ho, ?Hd, ?Hoa, ?Hda, ?H1, ?H2 in H);
    simpl in H; try discriminate H;
    (split; [first [done | intros Hn; by destruct Hn]|]);
    (split; [auto|]); (split; [done|]); (split; [done|]);
    intros Hh; try discriminate Hh;
    (assert (d1 = d2) as ->
       by (apply Z.eqb_eq; destruct (Z.eqb d1 d2) eqn:Hz;
           [done | rewrite ?Hz in H; discriminate H]));
    eauto.
Qed.

Lemma validation_success_guarantees_witness :
  let e := Scenario.row "HARDLINK_DUPLICATE" in
  let s := Scenario.session false Scenario.world_two_files in
  path_exists (world s) (entry_original_path e) = inr true
  /\ path_exists (world s) (entry_duplicate_path e) = inr true.
Proof.
  intros e s.
  apply (validation_success_guarantees e HARDLINK_DUPLICATE s);
    [vm_compute; reflexivity | discriminate].
Defined.

(** ** The names of the actions *)


(** ** What a deletion leaves *)

(** X4.  Outside dry-run mode, a deletion that reports success leaves no
    file at the path; one that reports a failure, or raises, leaves what
    was at the path. *)
Theorem delete_removes_or_keeps
    (p ty : string) (s : state DuplicateFileExecutor) :
  dry_run (self s) = false ->
  let r := execute_delete p ty s in
  match fst r with
  | inr true => path_exists (world (snd r)) p = inr false
  | _ => w_fs (world (snd r)) !! p = w_fs (world s) !! p
  end.
Proof.
  intros Hdry. rewrite execute_delete_spec by done.
  destruct (path_exists (world s) p) as [e|[|]] eqn:Hx; simpl; [done| |done].
  destruct (copy2 _ p _) as [e|w2] eqn:Hc; simpl; [done|].
  pose proof (copy2_keeps_source _ _ _ _ Hc) as Hk.
  pose proof (copy2_fault _ _ _ _ Hc) as Hf.
  destruct (unlink w2 p) as [e|w3] eqn:Hu; simpl; [done|].
  pose proof (unlink_fs _ _ _ Hu) as Hfs.
  pose proof (unlink_fault _ _ _ Hu) as Hf3.
  unfold path_exists in Hx |- *. simpl. rewrite Hf3, Hf. simpl.
  destruct (w_fault (world s) SysStat p); [done|].
  rewrite Hfs, resolve_absent; [done|]. by rewrite lookup_delete_eq.
Qed.

Lemma delete_removes_or_keeps_witness :
  let r := execute_delete "/a/x.txt" "original"
             (Scenario.session false Scenario.world_two_files) in
  match fst r with
  | inr true => path_exists (world (snd r)) "/a/x.txt" = inr false
  | _ => w_fs (world (snd r)) !! "/a/x.txt"
         = w_fs (world (Scenario.session false Scenario.world_two_files))
             !! "/a/x.txt"
  end.
Proof.
  assert (H : dry_run (self (Scenario.session false Scenario.world_two_files))
              = false) by (vm_compute; reflexivity).
  exact (delete_removes_or_keeps "/a/x.txt" "original"
           (Scenario.session false Scenario.world_two_files) H).
Defined.

(** ** What a link operation leaves *)

(** X5.  Outside dry-run mode, a soft link operation that reports success
    has left at the target a symbolic link to the source, and a hard link
    operation that reports success has left at the target the file that is
    at the source. *)
Theorem successful_link_is_in_place
    (src tgt ty : string) (s : state DuplicateFileExecutor) :
  dry_run (self s) = false ->
  (forall s', execute_soft_link src tgt ty s = (inr true, s') ->
     w_fs (world s') !! tgt = Some (Symlink src))
  /\ (forall s', execute_hard_link src tgt ty s = (inr true, s') ->
        exists n, w_fs (world s') !! tgt = Some n
                  /\ w_fs (world s') !! src = Some n /\ n <> Dir).
Proof.
  intros Hdry. split; intros s'.
  - unfold execute_soft_link, restore_from_backup.
    cbv [bind ret try_except get_self modify_self query sys datetime_now when].
    rewrite Hdry. simpl. rewrite create_backup_spec by done.
    repeat (case_match; simplify_eq/=); intros ?; simplify_eq/=;
      match goal with
      | Hs : symlink_to _ _ _ = inr _ |- _ =>
          apply symlink_to_fs in Hs as [-> _]; by rewrite lookup_insert_eq
      end.
  - unfold execute_hard_link, restore_from_backup.
    cbv [bind ret try_except get_self modify_self query sys datetime_now when].
    rewrite Hdry. simpl. rewrite create_backup_spec by done.
    repeat (case_match; simplify_eq/=); intros ?; simplify_eq/=;
      match goal with
      | Hs : hardlink_to ?w0 _ _ = inr _ |- _ =>
          pose proof Hs as Hs';
          apply hardlink_to_fs in Hs as (n & Hn & Hl & -> & _);
          exists n; rewrite lookup_insert_eq;
          rewrite lookup_insert_ne by congruence;
          split; [done|split; [done|]];
          intros ->; unfold hardlink_to in Hs'; rewrite Hl, Hn in Hs';
          by destruct (w_fault w0 SysLink tgt)
      end.
Qed.

Lemma successful_link_is_in_place_witness :
  let s := Examples.real_session in
  let s1 := snd (execute_soft_link "/a/x.txt" "/b/x.txt" "duplicate" s) in
  let s2 := snd (execute_hard_link "/a/x.txt" "/b/x.txt" "duplicate" s) in
  w_fs (world s1) !! "/b/x.txt" = Some (Symlink "/a/x.txt")
  /\ exists n, w_fs (world s2) !! "/b/x.txt" = Some n
               /\ w_fs (world s2) !! "/a/x.txt" = Some n /\ n <> Dir.
Proof.
  intros s s1 s2.
  assert (Hdry : dry_run (self s) = false) by (vm_compute; reflexivity).
  destruct (successful_link_is_in_place "/a/x.txt" "/b/x.txt" "duplicate" s
              Hdry) as [Hsoft Hhard].
  split.
  - apply Hsoft. vm_compute; reflexivity.
  - apply Hhard. vm_compute; reflexivity.
Defined.

(** ** A link operation on a regular file with a free backup name *)

Import conditions.

Lemma replaced_agrees (fs : gmap string node) tgt bk c x :
  fs !! tgt = Some (File c) -> fs !! bk = None ->
  delete tgt (<[bk := File c]> fs) !! x = fs !! x
  \/ fs !! x = None \/ exists c', fs !! x = Some (File c').
Proof.
  intros Ht Hb.
  destruct (decide (x = tgt)) as [->|]; [eauto|].
  destruct (decide (x = bk)) as [->|]; [eauto|].
  left. by rewrite lookup_delete_ne, lookup_insert_ne.
Qed.

Lemma replaceable_now w tgt bk c :
  replaceable w tgt bk c -> replaceable (snd (now w)) tgt bk c.
Proof. done. Qed.

(** The backup of a regular file under a free name. *)
Lemma create_backup_regular tgt n x w c :
  dry_run x = false ->
  replaceable w tgt (path_join (backup_dir x) n) c ->
  w_fault w SysStat tgt = false ->
  w_fault w SysCopy tgt = false ->
  w_fault w SysCopy (path_join (backup_dir x) n) = false ->
  create_backup tgt n (mkState x w)
  = (inr true,
     mkState x (set_fs w (<[path_join (backup_dir x) n := File c]> (w_fs w)))).
Proof.
  intros Hdry (Ht & Hb & Hdt & Hdb) Hst Hct Hcb.
  rewrite create_backup_spec by done. simpl.
  unfold path_exists at 1. rewrite Hst, (resolve_file _ _ _ Ht).
  by rewrite (copy2_fresh w tgt _ c).
Qed.

(** The soft link, step by step. *)
Lemma execute_soft_link_regular src tgt ty s c :
  let bk := backup_path_of "softlink_" tgt s in
  let fs3 := delete tgt (<[bk := File c]> (w_fs (world s))) in
  dry_run (self s) = false ->
  replaceable (world s) tgt bk c ->
  w_fault (world s) SysStat tgt = false ->
  w_fault (world s) SysStat bk = false ->
  w_fault (world s) SysCopy tgt = false ->
  w_fault (world s) SysCopy bk = false ->
  w_fault (world s) SysUnlink tgt = false ->
  exists s',
    execute_soft_link src tgt ty s
    = (inr (negb (w_fault (world s) SysSymlink tgt)), s')
    /\ w_fault (world s') = w_fault (world s)
    /\ if w_fault (world s) SysSymlink tgt
       then self s' = self s /\ w_fs (world s') = <[tgt := File c]> fs3
       else self s'
            = set_stats incr_softlinks_created
                (append_entry
                   (mkRollbackEntry
                      (isoformat (w_clock (world s) (S (w_tick (world s)))))
                      "softlink" src tgt bk "active") (self s))
            /\ w_fs (world s') = <[tgt := Symlink src]> fs3.
Proof.
  intros bk fs3. unfold backup_path_of in bk.
  set (name := "softlink_" ++ path_name tgt ++ "_"
               ++ strftime_HMS (w_clock (world s) (w_tick (world s)))) in bk.
  intros Hdry Hrep Hst Hsb Hct Hcb Hu.
  pose proof Hrep as (Ht & Hb & Hdt & Hdb).
  assert (Hne : tgt <> bk) by congruence.
  assert (Hdt3 : is_dir fs3 (path_parent tgt) = true).
  { apply (is_dir_agree (w_fs (world s))); [|done].
    intros x. by apply replaced_agrees. }
  assert (Ht3 : fs3 !! tgt = None) by (unfold fs3; by rewrite lookup_delete_eq).
  assert (Hb3 : fs3 !! bk = Some (File c)).
  { unfold fs3. rewrite lookup_delete_ne by done. by rewrite lookup_insert_eq. }
  unfold execute_soft_link.
  cbv [bind ret try_except get_self modify_self query sys datetime_now when].
  rewrite Hdry. simpl. fold name.
  rewrite (create_backup_regular tgt name (self s) _ c) by done.
  fold bk. simpl.
  unfold path_exists at 1. simpl. rewrite Hst.
  rewrite (resolve_file _ tgt c) by (by rewrite lookup_insert_ne).
  unfold unlink. simpl. rewrite Hu.
  rewrite lookup_insert_ne by done. rewrite Ht.
  fold fs3.
  unfold symlink_to. simpl. rewrite Ht3, Hdt3.
  destruct (w_fault (world s) SysSymlink tgt) eqn:Hs; simpl.
  - unfold restore_from_backup.
    cbv [bind ret try_except get_self modify_self query sys when]. simpl.
    fold bk. unfold path_exists. simpl. rewrite Hsb.
    rewrite (resolve_file _ bk c) by done.
    match goal with
    | |- context [copy2 ?w0 bk tgt] =>
        rewrite (copy2_fresh w0 bk tgt c) by done
    end.
    eexists. split; [reflexivity|]. done.
  - eexists. split; [reflexivity|]. done.
Qed.

(** The hard link, step by step. *)
Lemma execute_hard_link_regular src tgt ty s c :
  let bk := backup_path_of "hardlink_" tgt s in
  let fs3 := delete tgt (<[bk := File c]> (w_fs (world s))) in
  let ok := match hardlink_to (set_fs (world s) fs3) tgt src with
            | inr _ => true
            | inl _ => false
            end in
  dry_run (self s) = false ->
  replaceable (world s) tgt bk c ->
  w_fault (world s) SysStat tgt = false ->
  w_fault (world s) SysStat bk = false ->
  w_fault (world s) SysCopy tgt = false ->
  w_fault (world s) SysCopy bk = false ->
  w_fault (world s) SysUnlink tgt = false ->
  exists s',
    execute_hard_link src tgt ty s = (inr ok, s')
    /\ w_fault (world s') = w_fault (world s)
    /\ if ok
       then self s'
            = set_stats incr_hardlinks_created
                (append_entry
                   (mkRollbackEntry
                      (isoformat (w_clock (world s) (S (w_tick (world s)))))
                      "hardlink" src tgt bk "active") (self s))
            /\ exists n, fs3 !! src = Some n /\ n <> Dir
                         /\ w_fs (world s') = <[tgt := n]> fs3
       else self s' = self s /\ w_fs (world s') = <[tgt := File c]> fs3.
Proof.
  intros bk fs3. unfold backup_path_of in bk.
  set (name := "hardlink_" ++ path_name tgt ++ "_"
               ++ strftime_HMS (w_clock (world s) (w_tick (world s)))) in bk.
  intros ok Hdry Hrep Hst Hsb Hct Hcb Hu.
  pose proof Hrep as (Ht & Hb & Hdt & Hdb).
  assert (Hne : tgt <> bk) by congruence.
  assert (Hdt3 : is_dir fs3 (path_parent tgt) = true).
  { apply (is_dir_agree (w_fs (world s))); [|done].
    intros x. by apply replaced_agrees. }
  assert (Ht3 : fs3 !! tgt = None) by (unfold fs3; by rewrite lookup_delete_eq).
  assert (Hb3 : fs3 !! bk = Some (File c)).
  { unfold fs3. rewrite lookup_delete_ne by done. by rewrite lookup_insert_eq. }
  unfold execute_hard_link.
  cbv [bind ret try_except get_self modify_self query sys datetime_now when].
  rewrite Hdry. simpl. fold name.
  rewrite (create_backup_regular tgt name (self s) _ c) by done.
  fold bk. simpl.
  unfold path_exists at 1. simpl. rewrite Hst.
  rewrite (resolve_file _ tgt c) by (by rewrite lookup_insert_ne).
  unfold unlink. simpl. rewrite Hu.
  rewrite lookup_insert_ne by done. rewrite Ht.
  fold fs3.
  subst ok. unfold hardlink_to. simpl. rewrite Ht3, Hdt3.
  destruct (w_fault (world s) SysLink tgt) eqn:Hs;
    [|destruct (fs3 !! src) as [[c'|t|]|] eqn:Hsrc;
      [destruct (Z.eqb _ _) eqn:Hz|destruct (Z.eqb _ _) eqn:Hz| |]];
    simpl;
    try (eexists; split; [reflexivity|]; split; [done|]; split; [done|];
         eexists; done);
    unfold restore_from_backup;
    cbv [bind ret try_except get_self modify_self query sys when]; simpl;
    fold bk; unfold path_exists; simpl; rewrite Hsb;
    rewrite (resolve_file _ bk c) by done;
    match goal with
    | |- context [copy2 ?w0 bk tgt] =>
        rewrite (copy2_fresh w0 bk tgt c) by done
    end;
    eexists; (split; [reflexivity|]); done.
Qed.

(** The deletion of a regular file, step by step. *)
Lemma execute_delete_regular p ty s c :
  let bk := backup_path_of "deleted_" p s in
  dry_run (self s) = false ->
  replaceable (world s) p bk c ->
  w_fault (world s) SysStat p = false ->
  w_fault (world s) SysCopy p = false ->
  w_fault (world s) SysCopy bk = false ->
  w_fault (world s) SysUnlink p = false ->
  exists s',
    execute_delete p ty s = (inr true, s')
    /\ w_fault (world s') = w_fault (world s)
    /\ self s'
       = set_stats incr_files_deleted
           (append_entry
              (mkRollbackEntry
                 (isoformat (w_clock (world s) (S (w_tick (world s)))))
                 "delete" p "" bk "active") (self s))
    /\ w_fs (world s') = delete p (<[bk := File c]> (w_fs (world s))).
Proof.
  intros bk Hdry Hrep Hst Hct Hcb Hu.
  pose proof Hrep as (Ht & Hb & Hdt & Hdb).
  assert (Hne : p <> bk) by congruence.
  rewrite execute_delete_spec by done.
  unfold path_exists. rewrite Hst, (resolve_file _ _ _ Ht).
  fold (backup_path_of "deleted_" p s). fold bk. cbv zeta.
  rewrite (copy2_fresh _ p bk c) by done.
  unfold unlink. simpl. rewrite Hu.
  rewrite lookup_insert_ne by done. rewrite Ht.
  eexists. split; [reflexivity|]. done.
Qed.

(** X6.  A soft link operation on a regular file, with a free backup name
    and no failure of the system but possibly that of the link call, either
    replaces the file by the link and records it, or fails and leaves the
    file with its content and the ledger as it was; in both cases the
    backup holds the content. *)
Theorem soft_link_replaces_or_restores
    (src tgt ty : string) (s : state DuplicateFileExecutor) (c : content) :
  let bk := backup_path_of "softlink_" tgt s in
  let r := execute_soft_link src tgt ty s in
  dry_run (self s) = false ->
  no_faults_but SysSymlink (world s) ->
  replaceable (world s) tgt bk c ->
  w_fs (world (snd r)) !! bk = Some (File c)
  /\ ((fst r = inr true
       /\ w_fs (world (snd r)) !! tgt = Some (Symlink src)
       /\ exists ts,
            rollback_entries (self (snd r))
            = (rollback_entries (self s)
                 ++ [mkRollbackEntry ts "softlink" src tgt bk "active"])%list)
      \/ (fst r = inr false
          /\ w_fs (world (snd r)) !! tgt = Some (File c)
          /\ rollback_entries (self (snd r)) = rollback_entries (self s))).
Proof.
  intros bk r Hdry Hnf Hrep.
  pose proof Hrep as (Ht & Hb & _).
  assert (Hne : tgt <> bk) by congruence.
  destruct (execute_soft_link_regular src tgt ty s c Hdry Hrep)
    as (s' & He & _ & Hs'); try (by apply Hnf).
  subst r. fold bk in Hs'. rewrite He. simpl.
  destruct (w_fault (world s) SysSymlink tgt); simpl in *;
    destruct Hs' as [Hself ->]; rewrite Hself;
    (split; [rewrite lookup_insert_ne by done;
             rewrite lookup_delete_ne by done; by rewrite lookup_insert_eq|]).
  - right. by rewrite lookup_insert_eq.
  - left. rewrite lookup_insert_eq. eauto.
Qed.

Lemma soft_link_replaces_or_restores_witness :
  let s := Examples.real_session in
  let bk := backup_path_of "softlink_" "/b/x.txt" s in
  let r := execute_soft_link "/a/x.txt" "/b/x.txt" "duplicate" s in
  w_fs (world (snd r)) !! bk = Some (File (Text "B")).
Proof.
  intros s bk r.
  apply (soft_link_replaces_or_restores "/a/x.txt" "/b/x.txt" "duplicate" s
           (Text "B")).
  - vm_compute; reflexivity.
  - intros c p _. vm_compute; reflexivity.
  - repeat split; vm_compute; reflexivity.
Defined.

(** X7.  The same for a hard link operation, whatever makes the link call
    fail: a refusal of the system, a source that is missing (the source
    and the target being the same path, say) or a directory, or another
    device. *)
Theorem hard_link_replaces_or_restores
    (src tgt ty : string) (s : state DuplicateFileExecutor) (c : content) :
  let bk := backup_path_of "hardlink_" tgt s in
  let r := execute_hard_link src tgt ty s in
  dry_run (self s) = false ->
  no_faults_but SysLink (world s) ->
  replaceable (world s) tgt bk c ->
  w_fs (world (snd r)) !! bk = Some (File c)
  /\ ((fst r = inr true
       /\ (exists n, w_fs (world (snd r)) !! tgt = Some n
                     /\ w_fs (world (snd r)) !! src = Some n /\ n <> Dir)
       /\ exists ts,
            rollback_entries (self (snd r))
            = (rollback_entries (self s)
                 ++ [mkRollbackEntry ts "hardlink" src tgt bk "active"])%list)
      \/ (fst r = inr false
          /\ w_fs (world (snd r)) !! tgt = Some (File c)
          /\ rollback_entries (self (snd r)) = rollback_entries (self s))).
Proof.
  intros bk r Hdry Hnf Hrep.
  pose proof Hrep as (Ht & Hb & _).
  assert (Hne : tgt <> bk) by congruence.
  destruct (execute_hard_link_regular src tgt ty s c Hdry Hrep)
    as (s' & He & _ & Hs'); try (by apply Hnf).
  subst r. fold bk in Hs'. rewrite He. simpl.
  destruct (match hardlink_to _ tgt src with inr _ => true | inl _ => false end);
    simpl in *.
  - destruct Hs' as (Hself & n & Hn & Hnd & ->). rewrite Hself.
    split; [rewrite lookup_insert_ne by done;
            rewrite lookup_delete_ne by done; by rewrite lookup_insert_eq|].
    left. split; [done|]. split; [|simpl; eauto].
    assert (src <> tgt) by (intros ->; by rewrite lookup_delete_eq in Hn).
    exists n. rewrite lookup_insert_eq, lookup_insert_ne by done. done.
  - destruct Hs' as [Hself ->]. rewrite Hself.
    split; [rewrite lookup_insert_ne by done;
            rewrite lookup_delete_ne by done; by rewrite lookup_insert_eq|].
    right. by rewrite lookup_insert_eq.
Qed.

Lemma hard_link_replaces_or_restores_witness :
  let s := Examples.real_session in
  let bk := backup_path_of "hardlink_" "/b/x.txt" s in
  let r := execute_hard_link "/a/x.txt" "/b/x.txt" "duplicate" s in
  w_fs (world (snd r)) !! bk = Some (File (Text "B")).
Proof.
  intros s bk r.
  apply (hard_link_replaces_or_restores "/a/x.txt" "/b/x.txt" "duplicate" s
           (Text "B")).
  - vm_compute; reflexivity.
  - intros c p _. vm_compute; reflexivity.
  - repeat split; vm_compute; reflexivity.
Defined.

(** ** A row whose two paths are the same *)

Lemma validate_success e a s :
  path_exists (world s) (entry_original_path e) = inr true ->
  path_exists (world s) (entry_duplicate_path e) = inr true ->
  os_access_W (world s) (path_parent (entry_original_path e)) = true ->
  os_access_W (world s) (path_parent (entry_duplicate_path e)) = true ->
  is_hardlink_action a = false ->
  validate_file_paths e a s = (inr SUCCESS, s).
Proof.
  intros Ho Hd Hoa Hda Hh.
  unfold validate_file_paths, check_existence. munfold.
  destruct a; try discriminate Hh;
    repeat (simpl; rewrite ?Ho, ?Hd, ?Hoa, ?Hda); done.
Qed.

(** X8.  Validation does not compare the two paths of a row.  A soft link
    request whose original and duplicate are one and the same regular file
    passes validation and is counted as processed; it leaves at the path a
    symbolic link to itself, so that the path no longer leads to a file,
    and the content is in the backup only. *)
Theorem soft_link_to_itself
    (e : DuplicateEntry) (s : state DuplicateFileExecutor) (c : content) :
  let p := entry_original_path e in
  let bk := backup_path_of "softlink_" p s in
  entry_duplicate_path e = p ->
  action e = "SOFTLINK_ORIGINAL" \/ action e = "SOFTLINK_DUPLICATE" ->
  dry_run (self s) = false ->
  no_faults (world s) ->
  replaceable (world s) p bk c ->
  w_readonly (world s) (path_parent p) = false ->
  exists s',
    process_action e s = (inr true, s')
    /\ w_fs (world s') !! p = Some (Symlink p)
    /\ path_exists (world s') p = inr false
    /\ w_fs (world s') !! bk = Some (File c)
    /\ processed_rows (stats (self s')) = S (processed_rows (stats (self s)))
    /\ errors (stats (self s')) = errors (stats (self s)).
Proof.
  intros p bk Hsame Hact Hdry Hnf Hrep Hro.
  pose proof Hrep as (Ht & Hb & Hdt & _).
  assert (Hne : p <> bk) by congruence.
  assert (Hx : path_exists (world s) p = inr true).
  { unfold path_exists. by rewrite Hnf, (resolve_file _ _ _ Ht). }
  assert (Ha : os_access_W (world s) (path_parent p) = true).
  { unfold os_access_W, is_dir in *. rewrite Hnf, Hro.
    by destruct (resolve _ (path_parent p)). }
  destruct (execute_soft_link_regular p p "original" s c Hdry Hrep)
    as (s1 & He1 & Hf1 & Hs1); try apply Hnf.
  destruct (execute_soft_link_regular p p "duplicate" s c Hdry Hrep)
    as (s2 & He2 & Hf2 & Hs2); try apply Hnf.
  rewrite Hnf in *. simpl in *. fold bk in Hs1, Hs2.
  destruct Hs1 as [Hself1 Hfs1], Hs2 as [Hself2 Hfs2].
  unfold process_action.
  destruct Hact as [Hact|Hact]; rewrite Hact; simpl;
    unfold bind at 1;
    (rewrite validate_success; [|by rewrite ?Hsame; fold p ..]);
    unfold execute_action; rewrite Hsame; fold p;
    cbv [bind modify_self ret]; rewrite ?He1, ?He2; simpl;
    (eexists; split; [reflexivity|]); simpl;
    rewrite ?Hfs1, ?Hfs2, ?Hself1, ?Hself2;
    (split; [by rewrite lookup_insert_eq|]);
    (split; [unfold path_exists, resolve;
             rewrite ?Hf1, ?Hf2, Hnf, ?Hfs1, ?Hfs2;
             by rewrite follow_self by (by rewrite lookup_insert_eq)|]);
    (split; [rewrite lookup_insert_ne by done;
             rewrite lookup_delete_ne by done; by rewrite lookup_insert_eq|]);
    done.
Qed.

Lemma soft_link_to_itself_witness :
  let e := Examples.same_file_row in
  let s := Examples.real_session in
  exists s',
    process_action e s = (inr true, s')
    /\ path_exists (world s') "/a/x.txt" = inr false.
Proof.
  intros e s.
  destruct (soft_link_to_itself e s (Text "A")) as (s' & Hp & _ & Hx & _).
  - vm_compute; reflexivity.
  - right. vm_compute; reflexivity.
  - vm_compute; reflexivity.
  - intros c p. vm_compute; reflexivity.
  - repeat split; vm_compute; reflexivity.
  - vm_compute; reflexivity.
  - exists s'. split; [exact Hp | exact Hx].
Defined.

(** ** The session: its directories and the probe *)

Lemma agree_trans (fs1 fs2 fs3 : gmap string node) :
  (forall x, fs2 !! x = fs1 !! x \/ fs1 !! x = None) ->
  (forall x, fs3 !! x = fs2 !! x \/ fs2 !! x = None) ->
  forall x, fs3 !! x = fs1 !! x \/ fs1 !! x = None.
Proof.
  intros H12 H23 x. destruct (H12 x) as [H|H], (H23 x) as [H'|H']; auto.
  - left. congruence.
  - right. congruence.
Qed.

Lemma is_dir_kept (fs fs' : gmap string node) d :
  (forall x, fs' !! x = fs !! x \/ fs !! x = None) ->
  is_dir fs d = true -> is_dir fs' d = true.
Proof.
  intros Hag. apply is_dir_agree. intros x. destruct (Hag x); auto.
Qed.

Lemma backup_path_parent label tgt s :
  has_slash label = false ->
  backup_dir (self s) <> "" ->
  path_parent (backup_path_of label tgt s) = backup_dir (self s).
Proof.
  intros Hl Hd. unfold backup_path_of. apply path_parent_join; [done|].
  rewrite !has_slash_app, Hl, has_slash_path_name, has_slash_strftime_HMS.
  done.
Qed.

(** X9.  When [__init__] returns, the handling directory is a directory
    and the log file exists, in every mode; outside dry-run mode the
    backup directory is a directory, and the backup path of every later
    operation lies directly in it.  The ledger and the counters are empty.
    Nothing that was in the file system has been changed: only free paths
    have been filled. *)
Theorem session_directories_exist
    (home : string) (dry v : bool) (s0 s : state DuplicateFileExecutor) :
  __init__ home dry v s0 = (inr tt, s) ->
  dry_run (self s) = dry
  /\ is_dir (w_fs (world s)) (base_dir (self s)) = true
  /\ (exists r, resolve (w_fs (world s)) (log_file (self s)) = Some r)
  /\ (dry = false ->
      is_dir (w_fs (world s)) (backup_dir (self s)) = true
      /\ forall label tgt s',
           has_slash label = false ->
           backup_dir (self s') = backup_dir (self s) ->
           path_parent (backup_path_of label tgt s') = backup_dir (self s))
  /\ rollback_entries (self s) = []
  /\ stats (self s) = mkOperationStats 0 0 0 0 0 0 0
  /\ forall x, w_fs (world s) !! x = w_fs (world s0) !! x
               \/ w_fs (world s0) !! x = None.
Proof.
  unfold __init__, _setup_logging, _setup_directories.
  cbv [bind ret get_self modify_self sys datetime_now]. simpl.
  destruct (mkdir_p _ _) as [e|w1] eqn:H1; [done|]. simpl.
  destruct (touch w1 _) as [e|w2] eqn:H2; [done|]. simpl.
  apply mkdir_p_spec in H1 as (Hag1 & Hd1 & _). simpl in Hag1.
  apply touch_spec in H2 as (Hag2 & Hl2 & _).
  destruct dry; simpl.
  - intros H. simplify_eq. simpl.
    split; [done|]. split; [by apply (is_dir_kept (w_fs w1))|].
    split; [done|]. split; [done|]. split; [done|]. split; [done|].
    by apply (agree_trans _ (w_fs w1)).
  - destruct (mkdir_p w2 _) as [e|w3] eqn:H3; [done|]. simpl.
    apply mkdir_p_spec in H3 as (Hag3 & Hd3 & _).
    intros H. simplify_eq. simpl.
    split; [done|].
    split; [apply (is_dir_kept (w_fs w2)); [done|];
            by apply (is_dir_kept (w_fs w1))|].
    split.
    { destruct Hl2 as [r Hr]. exists r. by apply (resolve_kept (w_fs w2)). }
    split.
    { intros _. split; [done|]. intros label tgt s' Hl Hb.
      rewrite <- Hb. apply backup_path_parent; [done|].
      rewrite Hb. apply path_join_nonempty. }
    split; [done|]. split; [done|].
    apply (agree_trans _ (w_fs w2)); [|done].
    by apply (agree_trans _ (w_fs w1)).
Qed.

Lemma session_directories_exist_witness :
  let s := Examples.real_session in
  is_dir (w_fs (world s)) (base_dir (self s)) = true
  /\ is_dir (w_fs (world s)) (backup_dir (self s)) = true.
Proof.
  intros s.
  destruct (session_directories_exist Scenario.home false false
              (mkState Scenario.blank Scenario.world_two_files) s)
    as (_ & Hbase & _ & Hbk & _).
  - vm_compute; reflexivity.
  - split; [exact Hbase|]. by destruct (Hbk eq_refl).
Defined.

(** X10.  The probe of [check_prerequisites] never raises and leaves the
    object as it was; when it reports success nothing is left at the probe
    path (a file of that name that was there before is removed with it).
    It reports success, and leaves the files as they were, when the probe
    path is free in an existing directory and the system refuses neither
    the creation nor the removal. *)
Theorem prerequisites_probe (s : state DuplicateFileExecutor) :
  let probe := path_join (base_dir (self s)) "test_write" in
  (exists b s',
     check_prerequisites s = (inr b, s')
     /\ self s' = self s
     /\ (b = true -> w_fs (world s') !! probe = None))
  /\ (w_fault (world s) SysOpenW probe = false ->
      w_fault (world s) SysUnlink probe = false ->
      w_fs (world s) !! probe = None ->
      is_dir (w_fs (world s)) (path_parent probe) = true ->
      exists s',
        check_prerequisites s = (inr true, s')
        /\ w_fs (world s') = w_fs (world s)).
Proof.
  intros probe. unfold check_prerequisites.
  cbv [bind ret try_except get_self sys]. fold probe. split.
  - destruct (touch (world s) probe) as [e|w1] eqn:Ht; simpl.
    + raises. simpl. eexists _, _. split; [reflexivity|]. done.
    + destruct (unlink w1 probe) as [e|w2] eqn:Hu; simpl.
      * raises. simpl. eexists _, _. split; [reflexivity|]. done.
      * apply unlink_fs in Hu. eexists _, _. split; [reflexivity|].
        split; [done|]. intros _. simpl. by rewrite Hu, lookup_delete_eq.
  - intros Hfo Hfu Hp Hd. unfold touch. rewrite Hfo.
    rewrite (follow_stops _ probe None) by done. rewrite Hd. simpl.
    unfold unlink. simpl. rewrite Hfu, lookup_insert_eq. simpl.
    eexists. split; [reflexivity|]. simpl. by apply delete_insert_id.
Qed.

Lemma prerequisites_probe_witness :
  let s := Examples.real_session in
  exists s',
    check_prerequisites s = (inr true, s')
    /\ w_fs (world s') = w_fs (world s).
Proof.
  intros s.
  apply (proj2 (prerequisites_probe s)); vm_compute; reflexivity.
Defined.

(** ** A batch without a valid action *)




End executor_more.

(** * More on the rollback *)

Module rollback_more.

Import rollback_duplicates ledger conditions.

Ltac runfold :=
  cbv [bind ret raise try_except get_self modify_self query sys
       datetime_now when lift is_Exception] in *.

(** ** One reversal, step by step *)

Lemma rollback_delete_operation_spec op o b s :
  py_getitem op "original_path" = inr (JStr o) ->
  py_getitem op "backup_path" = inr (JStr b) ->
  dry_run (self s) = false ->
  rollback_delete_operation op s =
  match path_exists (world s) b, path_exists (world s) o with
  | inr true, inr false =>
      match mkdir_p (world s) (path_parent o) with
      | inl _ => (inr false, s)
      | inr w1 =>
          match copy2 w1 b o with
          | inl _ => (inr false, mkState (self s) w1)
          | inr w2 => (inr true, mkState (self s) w2)
          end
      end
  | _, _ => (inr false, s)
  end.
Proof.
  intros Ho Hb Hdry. unfold rollback_delete_operation. runfold.
  rewrite Ho, Hb. simpl. rewrite Hdry.
  destruct (path_exists (world s) b) as [e|[|]]; simpl; try done.
  destruct (path_exists (world s) o) as [e|[|]]; simpl; try done.
  destruct (mkdir_p (world s) (path_parent o)) as [e|w1]; simpl; [done|].
  by destruct (copy2 w1 b o).
Qed.

Lemma rollback_link_operation_spec op t b ty s :
  py_getitem op "target_path" = inr (JStr t) ->
  py_getitem op "backup_path" = inr (JStr b) ->
  py_getitem op "operation_type" = inr ty ->
  dry_run (self s) = false ->
  rollback_link_operation op s =
  match path_exists (world s) t with
  | inl _ => (inr false, s)
  | inr tx =>
      match (if tx then inr true else path_is_symlink (world s) t) with
      | inl _ => (inr false, s)
      | inr present =>
          match (if present then unlink (world s) t else inr (world s)) with
          | inl _ => (inr false, s)
          | inr w1 =>
              match path_exists w1 b with
              | inr true =>
                  match copy2 w1 b t with
                  | inl _ => (inr false, mkState (self s) w1)
                  | inr w2 => (inr true, mkState (self s) w2)
                  end
              | _ => (inr false, mkState (self s) w1)
              end
          end
      end
  end.
Proof.
  intros Ht Hb Hty Hdry. unfold rollback_link_operation. runfold.
  rewrite Ht, Hb, Hty. simpl. rewrite Hdry.
  destruct (path_exists (world s) t) as [e|[|]]; simpl; try done.
  - destruct (unlink (world s) t) as [e|w1]; simpl; [done|].
    destruct (path_exists w1 b) as [e|[|]]; simpl; try done.
    by destruct (copy2 w1 b t).
  - destruct (path_is_symlink (world s) t) as [e|[|]]; simpl; try done.
    + destruct (unlink (world s) t) as [e|w1]; simpl; [done|].
      destruct (path_exists w1 b) as [e|[|]]; simpl; try done.
      by destruct (copy2 w1 b t).
    + destruct (path_exists (world s) b) as [e|[|]]; simpl; try done;
        destruct s; try done.
      by destruct (copy2 _ b t).
Qed.

(** ** Dry-run mode *)

Lemma rollback_operation_dry op s :
  dry_run (self s) = true ->
  world (snd (rollback_operation op s)) = world s
  /\ dry_run (self (snd (rollback_operation op s))) = true.
Proof.
  intros Hdry.
  unfold rollback_operation, rollback_delete_operation, rollback_link_operation.
  runfold. repeat (case_match; simplify_eq/=); done.
Qed.

Lemma rollback_loop_dry todo : forall s,
  dry_run (self s) = true ->
  world (snd (rollback_loop todo s)) = world s.
Proof.
  induction todo as [|op rest IH]; intros s Hdry; simpl; [done|].
  runfold.
  destruct (py_get op "operation_type" JNull); [done|].
  destruct (py_get op "original_path" JNull); [done|].
  match goal with
  | |- context [rollback_operation op ?st] =>
      destruct (rollback_operation_dry op st Hdry) as [Hw Hd];
      destruct (rollback_operation op st) as [[e|b] s1]
  end; simpl in *; [done|].
  rewrite IH by (by destruct b). done.
Qed.

(** X12.  A rollback in dry-run mode reads the ledger and changes
    nothing: whatever the ledger file holds and whatever the filters, the
    run ends with the world as it found it. *)
Theorem dry_run_rollback_changes_nothing
    (f : string) (operation_types : option (list string))
    (after before : option string) (s : state DuplicateRollback) :
  dry_run (self s) = true ->
  world (snd (execute_rollback f operation_types after before s)) = world s.
Proof.
  intros Hdry. unfold execute_rollback. unfold bind at 1.
  rewrite rollback_proofs.load_rollback_data_spec.
  destruct (path_exists (world s) f) as [e|[|]]; [done| |done].
  destruct (match read_json (world s) f with
            | inr j => if loadable j then Some j else None
            | inl _ => None
            end) as [data|]; [|done].
  runfold.
  destruct (py_getitem data "operations") as [e|v]; [done|].
  destruct (py_iter v) as [e|items]; [done|].
  destruct (filter_operations _ _ _ items) as [e|ops]; [done|].
  destruct (is_nil ops); [done|]. simpl.
  match goal with
  | |- context [rollback_loop ?l ?st] =>
      pose proof (rollback_loop_dry l st Hdry) as Hw;
      destruct (rollback_loop l st) as [[e|[]] s1]
  end; simpl in *; [done|].
  by destruct (Nat.eqb _ 0).
Qed.

Lemma dry_run_rollback_changes_nothing_witness :
  let s := Scenario.rollback_session true Scenario.world_with_ledger in
  world (snd (execute_rollback Scenario.ledger_path None None None s))
  = world s.
Proof.
  intros s.
  apply (dry_run_rollback_changes_nothing Scenario.ledger_path None None None s).
  reflexivity.
Defined.

(** ** What a reversal refuses, and what it does first *)

(** X13.  Outside dry-run mode, the reversal of a delete whose original
    path is there again (or cannot be examined), or whose backup is
    missing, reports a failure and changes nothing: a file is never
    overwritten by its backup. *)
Theorem restore_only_onto_a_free_path
    (op : json) (o b : string) (s : state DuplicateRollback) :
  py_getitem op "original_path" = inr (JStr o) ->
  py_getitem op "backup_path" = inr (JStr b) ->
  dry_run (self s) = false ->
  path_exists (world s) o <> inr false
  \/ path_exists (world s) b <> inr true ->
  rollback_delete_operation op s = (inr false, s).
Proof.
  intros Ho Hb Hdry H.
  rewrite (rollback_delete_operation_spec op o b) by done.
  destruct (path_exists (world s) b) as [e|[|]],
           (path_exists (world s) o) as [e'|[|]]; try done;
    by destruct H.
Qed.

Lemma restore_only_onto_a_free_path_witness :
  let s := Scenario.rollback_session false Scenario.world_two_files in
  rollback_delete_operation Examples.stale_delete s = (inr false, s).
Proof.
  intros s.
  apply (restore_only_onto_a_free_path Examples.stale_delete
           "/a/x.txt" "/b/x.txt" s).
  - reflexivity.
  - reflexivity.
  - reflexivity.
  - left. vm_compute. discriminate.
Defined.

(** X14.  The reversal of a link removes the link before it looks for the
    backup: when the backup is missing, the link is gone all the same, the
    path is left empty and the reversal reports a failure. *)
Theorem link_reversal_removes_the_link_first
    (op ty : json) (t b : string) (n : node) (s : state DuplicateRollback) :
  py_getitem op "target_path" = inr (JStr t) ->
  py_getitem op "backup_path" = inr (JStr b) ->
  py_getitem op "operation_type" = inr ty ->
  dry_run (self s) = false ->
  no_faults (world s) ->
  w_fs (world s) !! t = Some n -> n <> Dir ->
  w_fs (world s) !! b = None ->
  exists s',
    rollback_link_operation op s = (inr false, s')
    /\ self s' = self s
    /\ w_fs (world s') = delete t (w_fs (world s)).
Proof.
  intros Ht Hb Hty Hdry Hnf Hn Hnd Hbk.
  rewrite (rollback_link_operation_spec op t b ty) by done.
  assert (Hu : unlink (world s) t
               = inr (set_fs (world s) (delete t (w_fs (world s))))).
  { unfold unlink. rewrite Hnf, Hn. by destruct n. }
  assert (Hp : match path_exists (world s) t with
               | inl _ => inl OSError
               | inr tx => if tx then inr true
                           else path_is_symlink (world s) t
               end = inr true).
  { unfold path_exists, path_is_symlink, resolve. rewrite Hnf, Hn.
    rewrite ?Hnf.
    destruct n as [c|t'|]; [|by destruct (follow _ _ t) as [[q [m|]]|]|done].
    by rewrite (follow_stops _ t (Some (File c))). }
  destruct (path_exists (world s) t) as [e|tx]; [done|]. rewrite Hp, Hu.
  assert (Hx : path_exists (set_fs (world s) (delete t (w_fs (world s)))) b
               = inr false).
  { unfold path_exists. simpl. rewrite Hnf, resolve_absent; [done|].
    rewrite lookup_delete_ne by congruence. done. }
  rewrite Hx. eauto.
Qed.

Lemma link_reversal_removes_the_link_first_witness :
  let s := Scenario.rollback_session false Scenario.world_two_files in
  exists s',
    rollback_link_operation Examples.link_without_backup s = (inr false, s')
    /\ w_fs (world s') = delete "/b/x.txt" (w_fs (world s)).
Proof.
  intros s.
  destruct (link_reversal_removes_the_link_first Examples.link_without_backup
              (JStr "softlink") "/b/x.txt" "/nowhere/x.txt"
              (File (Text "B")) s)
    as (s' & Hr & _ & Hfs).
  - reflexivity.
  - reflexivity.
  - reflexivity.
  - reflexivity.
  - intros c p. reflexivity.
  - vm_compute; reflexivity.
  - discriminate.
  - vm_compute; reflexivity.
  - exists s'. split; [exact Hr | exact Hfs].
Defined.

(** ** A reversal whose backup is there *)

Lemma rollback_delete_regular op o b c s :
  py_getitem op "original_path" = inr (JStr o) ->
  py_getitem op "backup_path" = inr (JStr b) ->
  dry_run (self s) = false ->
  no_faults (world s) ->
  w_fs (world s) !! o = None ->
  w_fs (world s) !! b = Some (File c) ->
  directories_exist (world s) (path_parent o) ->
  rollback_delete_operation op s
  = (inr true,
     mkState (self s) (set_fs (world s) (<[o := File c]> (w_fs (world s))))).
Proof.
  intros Ho Hb Hdry Hnf Hno Hbk Hdirs.
  rewrite (rollback_delete_operation_spec op o b) by done.
  unfold path_exists. rewrite !Hnf.
  rewrite (resolve_file _ b c), (resolve_absent _ o) by done.
  rewrite mkdir_p_existing by done.
  rewrite (copy2_fresh _ b o c); try done.
  unfold directories_exist in Hdirs.
  apply List.Forall_forall with (x := path_parent o) in Hdirs; [done|].
  apply in_or_app. right. by left.
Qed.

Lemma rollback_link_regular op t b ty n c s :
  py_getitem op "target_path" = inr (JStr t) ->
  py_getitem op "backup_path" = inr (JStr b) ->
  py_getitem op "operation_type" = inr ty ->
  dry_run (self s) = false ->
  no_faults (world s) ->
  w_fs (world s) !! t = Some n -> n <> Dir ->
  w_fs (world s) !! b = Some (File c) -> t <> b ->
  is_dir (delete t (w_fs (world s))) (path_parent t) = true ->
  rollback_link_operation op s
  = (inr true,
     mkState (self s)
       (set_fs (world s) (<[t := File c]> (delete t (w_fs (world s)))))).
Proof.
  intros Ht Hb Hty Hdry Hnf Hn Hnd Hbk Hne Hdir.
  rewrite (rollback_link_operation_spec op t b ty) by done.
  assert (Hu : unlink (world s) t
               = inr (set_fs (world s) (delete t (w_fs (world s))))).
  { unfold unlink. rewrite Hnf, Hn. by destruct n. }
  assert (Hp : match path_exists (world s) t with
               | inl _ => inl OSError
               | inr tx => if tx then inr true
                           else path_is_symlink (world s) t
               end = inr true).
  { unfold path_exists, path_is_symlink, resolve. rewrite Hnf, Hn.
    rewrite ?Hnf.
    destruct n as [c'|t'|]; [|by destruct (follow _ _ t) as [[q [m|]]|]|done].
    by rewrite (follow_stops _ t (Some (File c'))). }
  destruct (path_exists (world s) t) as [e|tx]; [done|]. rewrite Hp, Hu.
  assert (Hx : path_exists (set_fs (world s) (delete t (w_fs (world s)))) b
               = inr true).
  { unfold path_exists. simpl. rewrite Hnf, (resolve_file _ b c); [done|].
    by rewrite lookup_delete_ne. }
  rewrite Hx.
  rewrite (copy2_fresh _ b t c); simpl;
    [done | apply Hnf | apply Hnf | by rewrite lookup_delete_ne
    | by rewrite lookup_delete_eq | done].
Qed.

End rollback_more.

(** * The executor, then the rollback *)

Module round_trip.

Import duplicate_executor conditions.

Lemma restored (fs : gmap string node) p bk c :
  fs !! p = Some (File c) -> p <> bk ->
  <[p := File c]> (delete p (<[bk := File c]> fs)) = <[bk := File c]> fs.
Proof.
  intros Hp Hne. rewrite insert_delete_eq, insert_insert_ne by done.
  by rewrite (insert_id fs p).
Qed.

Lemma later_rollback_fs (fs : gmap string node) :
  w_fs (world (Examples.later_rollback fs)) = fs.
Proof. reflexivity. Qed.

Lemma later_rollback_no_faults (fs : gmap string node) :
  no_faults (world (Examples.later_rollback fs)).
Proof. intros c p. reflexivity. Qed.

Lemma operation_type_delete ts o t b st :
  rollback_duplicates.rollback_operation
    (asdict (mkRollbackEntry ts "delete" o t b st))
  = rollback_duplicates.rollback_delete_operation
      (asdict (mkRollbackEntry ts "delete" o t b st)).
Proof. reflexivity. Qed.

(** X15.  A deletion and its reversal.  The deletion of a regular file
    whose backup name is free succeeds when the system reports no failure;
    the reversal of the entry it has written, run later on the files it
    has left, succeeds and puts the file back with its content: the files
    are those of the start, and the backup.  A second reversal of the same
    entry finds the file there: it fails and changes nothing. *)
Theorem delete_then_rollback
    (p ty : string) (s : state DuplicateFileExecutor) (c : content) :
  let bk := backup_path_of "deleted_" p s in
  dry_run (self s) = false ->
  no_faults (world s) ->
  replaceable (world s) p bk c ->
  directories_exist (world s) (path_parent p) ->
  exists s' e,
    execute_delete p ty s = (inr true, s')
    /\ rollback_entries (self s') = (rollback_entries (self s) ++ [e])%list
    /\ w_fs (world s') !! p = None
    /\ forall r : state rollback_duplicates.DuplicateRollback,
         rollback_duplicates.dry_run (self r) = false ->
         no_faults (world r) ->
         w_fs (world r) = w_fs (world s') ->
         exists r',
           rollback_duplicates.rollback_operation (asdict e) r = (inr true, r')
           /\ w_fs (world r') = <[bk := File c]> (w_fs (world s))
           /\ rollback_duplicates.rollback_operation (asdict e) r'
              = (inr false, r').
Proof.
  intros bk Hdry Hnf Hrep Hdirs.
  pose proof Hrep as (Ht & Hb & Hdt & Hdb).
  assert (Hne : p <> bk) by congruence.
  destruct (executor_more.execute_delete_regular p ty s c Hdry Hrep)
    as (s' & He & Hf & Hself & Hfs); try apply Hnf.
  fold bk in Hself, Hfs.
  exists s'. eexists. split; [exact He|].
  split; [by rewrite Hself|].
  split; [by rewrite Hfs, lookup_delete_eq|].
  intros r Hrd Hrnf Hrfs.
  rewrite operation_type_delete.
  assert (Hro : w_fs (world r) !! p = None)
    by (by rewrite Hrfs, Hfs, lookup_delete_eq).
  assert (Hrb : w_fs (world r) !! bk = Some (File c)).
  { rewrite Hrfs, Hfs, lookup_delete_ne by done. by rewrite lookup_insert_eq. }
  assert (Hrdirs : directories_exist (world r) (path_parent p)).
  { unfold directories_exist in *. eapply Forall_impl; [exact Hdirs|].
    intros d Hd. simpl in Hd. apply (is_dir_agree (w_fs (world s))); [|done].
    intros x. rewrite Hrfs, Hfs. by apply executor_more.replaced_agrees. }
  rewrite (rollback_more.rollback_delete_regular _ p bk c) by done.
  eexists. split; [reflexivity|]. simpl.
  split; [rewrite Hrfs, Hfs; by apply restored|].
  rewrite (rollback_more.rollback_delete_operation_spec _ p bk) by done.
  unfold path_exists. simpl. rewrite !Hrnf.
  rewrite (resolve_file _ p c) by (by rewrite lookup_insert_eq).
  by destruct (resolve _ bk).
Qed.

Lemma delete_then_rollback_witness :
  let s := Examples.real_session in
  exists s' e,
    execute_delete "/a/x.txt" "original" s = (inr true, s')
    /\ exists r',
         rollback_duplicates.rollback_operation (asdict e)
           (Examples.later_rollback (w_fs (world s'))) = (inr true, r')
         /\ w_fs (world r') !! "/a/x.txt" = Some (File (Text "A")).
Proof.
  intros s.
  destruct (delete_then_rollback "/a/x.txt" "original" s (Text "A"))
    as (s' & e & He & _ & _ & Hback).
  - vm_compute; reflexivity.
  - intros c p. vm_compute; reflexivity.
  - repeat split; vm_compute; reflexivity.
  - repeat constructor.
  - exists s', e. split; [exact He|].
    destruct (Hback (Examples.later_rollback (w_fs (world s'))))
      as (r' & Hr & Hfs & _).
    + reflexivity.
    + apply later_rollback_no_faults.
    + apply later_rollback_fs.
    + exists r'. split; [exact Hr|]. rewrite Hfs. vm_compute; reflexivity.
Defined.

(** The reversal of a link entry on the files the link operation left, or
    on those a first reversal left. *)
Lemma link_reversal kind ts src tgt bk c n (fs0 : gmap string node)
    (r : state rollback_duplicates.DuplicateRollback) :
  kind = "softlink" \/ kind = "hardlink" ->
  fs0 !! tgt = Some (File c) -> fs0 !! bk = None ->
  is_dir fs0 (path_parent tgt) = true ->
  n <> Dir ->
  rollback_duplicates.dry_run (self r) = false ->
  no_faults (world r) ->
  w_fs (world r) = <[tgt := n]> (delete tgt (<[bk := File c]> fs0)) ->
  exists r',
    rollback_duplicates.rollback_operation
      (asdict (mkRollbackEntry ts kind src tgt bk "active")) r = (inr true, r')
    /\ rollback_duplicates.dry_run (self r') = false
    /\ no_faults (world r')
    /\ w_fs (world r') = <[bk := File c]> fs0.
Proof.
  intros Hkind Ht Hb Hdt Hn Hdry Hnf Hfs.
  assert (Hne : tgt <> bk) by congruence.
  assert (Hdel : delete tgt (w_fs (world r))
                 = delete tgt (<[bk := File c]> fs0)).
  { rewrite Hfs, delete_insert_eq. apply delete_id. by rewrite lookup_delete_eq. }
  assert (Hop : rollback_duplicates.rollback_operation
                  (asdict (mkRollbackEntry ts kind src tgt bk "active"))
                = rollback_duplicates.rollback_link_operation
                    (asdict (mkRollbackEntry ts kind src tgt bk "active")))
    by (by destruct Hkind as [->| ->]).
  rewrite Hop.
  rewrite (rollback_more.rollback_link_regular _ tgt bk (JStr kind) n c);
    try done.
  - eexists. split; [reflexivity|]. simpl. split; [done|]. split; [done|].
    rewrite Hdel. by apply restored.
  - by rewrite Hfs, lookup_insert_eq.
  - rewrite Hfs, lookup_insert_ne, lookup_delete_ne by done.
    by rewrite lookup_insert_eq.
  - rewrite Hdel. apply (is_dir_agree fs0); [|done].
    intros x. by apply executor_more.replaced_agrees.
Qed.

(** X16.  A soft link and its reversal.  On a regular file whose backup
    name is free, and with no failure reported by the system, the soft
    link operation succeeds; the reversal of the entry it has written, run
    later on the files it has left, removes the link and puts the file
    back with its content.  A second reversal does the same again. *)
Theorem soft_link_then_rollback
    (src tgt ty : string) (s : state DuplicateFileExecutor) (c : content) :
  let bk := backup_path_of "softlink_" tgt s in
  dry_run (self s) = false ->
  no_faults (world s) ->
  replaceable (world s) tgt bk c ->
  exists s' e,
    execute_soft_link src tgt ty s = (inr true, s')
    /\ rollback_entries (self s') = (rollback_entries (self s) ++ [e])%list
    /\ w_fs (world s') !! tgt = Some (Symlink src)
    /\ forall r : state rollback_duplicates.DuplicateRollback,
         rollback_duplicates.dry_run (self r) = false ->
         no_faults (world r) ->
         w_fs (world r) = w_fs (world s') ->
         exists r' r'',
           rollback_duplicates.rollback_operation (asdict e) r = (inr true, r')
           /\ w_fs (world r') = <[bk := File c]> (w_fs (world s))
           /\ rollback_duplicates.rollback_operation (asdict e) r'
              = (inr true, r'')
           /\ w_fs (world r'') = w_fs (world r').
Proof.
  intros bk Hdry Hnf Hrep.
  pose proof Hrep as (Ht & Hb & Hdt & Hdb).
  assert (Hne : tgt <> bk) by congruence.
  destruct (executor_more.execute_soft_link_regular src tgt ty s c Hdry Hrep)
    as (s' & He & Hf & Hs'); try apply Hnf.
  rewrite Hnf in He, Hs'. simpl in He. fold bk in Hs'.
  destruct Hs' as [Hself Hfs].
  exists s'. eexists. split; [exact He|].
  split; [by rewrite Hself|].
  split; [by rewrite Hfs, lookup_insert_eq|].
  intros r Hrd Hrnf Hrfs. rewrite Hfs in Hrfs.
  destruct (link_reversal "softlink"
              (isoformat (w_clock (world s) (S (w_tick (world s)))))
              src tgt bk c (Symlink src) (w_fs (world s)) r)
    as (r' & Hr1 & Hd1 & Hnf1 & Hfs1); auto.
  exists r'.
  destruct (link_reversal "softlink"
              (isoformat (w_clock (world s) (S (w_tick (world s)))))
              src tgt bk c (File c) (w_fs (world s)) r')
    as (r'' & Hr2 & _ & _ & Hfs2); auto.
  { rewrite Hfs1. symmetry. by apply restored. }
  exists r''. rewrite Hfs2. done.
Qed.

Lemma soft_link_then_rollback_witness :
  let s := Examples.real_session in
  exists s' e,
    execute_soft_link "/a/x.txt" "/b/x.txt" "duplicate" s = (inr true, s')
    /\ exists r',
         rollback_duplicates.rollback_operation (asdict e)
           (Examples.later_rollback (w_fs (world s'))) = (inr true, r')
         /\ w_fs (world r') !! "/b/x.txt" = Some (File (Text "B")).
Proof.
  intros s.
  destruct (soft_link_then_rollback "/a/x.txt" "/b/x.txt" "duplicate" s
              (Text "B")) as (s' & e & He & _ & _ & Hback).
  - vm_compute; reflexivity.
  - intros c p. vm_compute; reflexivity.
  - repeat split; vm_compute; reflexivity.
  - exists s', e. split; [exact He|].
    destruct (Hback (Examples.later_rollback (w_fs (world s'))))
      as (r' & r'' & Hr & Hfs & _).
    + reflexivity.
    + apply later_rollback_no_faults.
    + apply later_rollback_fs.
    + exists r'. split; [exact Hr|]. rewrite Hfs. vm_compute; reflexivity.
Defined.

(** X17.  A hard link and its reversal.  When a hard link operation on a
    regular file whose backup name is free has succeeded, the reversal of
    the entry it has written, run later on the files it has left, removes
    the link and puts the file back with its content; a second reversal
    does the same again. *)
Theorem hard_link_then_rollback
    (src tgt ty : string) (s s' : state DuplicateFileExecutor) (c : content) :
  let bk := backup_path_of "hardlink_" tgt s in
  dry_run (self s) = false ->
  no_faults (world s) ->
  replaceable (world s) tgt bk c ->
  execute_hard_link src tgt ty s = (inr true, s') ->
  exists e,
    rollback_entries (self s') = (rollback_entries (self s) ++ [e])%list
    /\ forall r : state rollback_duplicates.DuplicateRollback,
         rollback_duplicates.dry_run (self r) = false ->
         no_faults (world r) ->
         w_fs (world r) = w_fs (world s') ->
         exists r' r'',
           rollback_duplicates.rollback_operation (asdict e) r = (inr true, r')
           /\ w_fs (world r') = <[bk := File c]> (w_fs (world s))
           /\ rollback_duplicates.rollback_operation (asdict e) r'
              = (inr true, r'')
           /\ w_fs (world r'') = w_fs (world r').
Proof.
  intros bk Hdry Hnf Hrep Hex.
  pose proof Hrep as (Ht & Hb & Hdt & Hdb).
  assert (Hne : tgt <> bk) by congruence.
  destruct (executor_more.execute_hard_link_regular src tgt ty s c Hdry Hrep)
    as (s0 & He & Hf & Hs'); try apply Hnf.
  rewrite Hex in He. injection He as Hok <-. rewrite <- Hok in Hs'.
  fold bk in Hs'. destruct Hs' as (Hself & n & Hn & Hnd & Hfs).
  eexists. split; [by rewrite Hself|].
  intros r Hrd Hrnf Hrfs. rewrite Hfs in Hrfs.
  destruct (link_reversal "hardlink"
              (isoformat (w_clock (world s) (S (w_tick (world s)))))
              src tgt bk c n (w_fs (world s)) r)
    as (r' & Hr1 & Hd1 & Hnf1 & Hfs1); auto.
  exists r'.
  destruct (link_reversal "hardlink"
              (isoformat (w_clock (world s) (S (w_tick (world s)))))
              src tgt bk c (File c) (w_fs (world s)) r')
    as (r'' & Hr2 & _ & _ & Hfs2); auto.
  { rewrite Hfs1. symmetry. by apply restored. }
  exists r''. rewrite Hfs2. done.
Qed.

Lemma hard_link_then_rollback_witness :
  let s := Examples.real_session in
  let s' := snd (execute_hard_link "/a/x.txt" "/b/x.txt" "duplicate" s) in
  exists e r',
    rollback_duplicates.rollback_operation (asdict e)
      (Examples.later_rollback (w_fs (world s'))) = (inr true, r')
    /\ w_fs (world r') !! "/b/x.txt" = Some (File (Text "B")).
Proof.
  intros s s'.
  destruct (hard_link_then_rollback "/a/x.txt" "/b/x.txt" "duplicate" s s'
              (Text "B")) as (e & _ & Hback).
  - vm_compute; reflexivity.
  - intros c p. vm_compute; reflexivity.
  - repeat split; vm_compute; reflexivity.
  - vm_compute; reflexivity.
  - exists e.
    destruct (Hback (Examples.later_rollback (w_fs (world s'))))
      as (r' & r'' & Hr & Hfs & _).
    + reflexivity.
    + apply later_rollback_no_faults.
    + apply later_rollback_fs.
    + exists r'. split; [exact Hr|]. rewrite Hfs. vm_compute; reflexivity.
Defined.

(** ** The ledger file *)

(** X18.  What the executor saves, the rollback loads.  When the session
    has entries, or is a dry run, and the ledger file is a regular file or
    is absent from an existing directory, [save_rollback_data] writes a
    document that [load_rollback_data] accepts, and the operations the
    rollback finds in it are the entries of the session, in their
    order. *)
Theorem saved_ledger_loads (s : state DuplicateFileExecutor) :
  let f := rollback_file (self s) in
  let doc := ledger.ledger_document
               (isoformat (w_clock (world s) (w_tick (world s))))
               (dry_run (self s)) (backup_dir (self s))
               (rollback_entries (self s)) in
  no_faults (world s) ->
  rollback_entries (self s) <> [] \/ dry_run (self s) = true ->
  (exists c0, w_fs (world s) !! f = Some (File c0))
  \/ (w_fs (world s) !! f = None
      /\ is_dir (w_fs (world s)) (path_parent f) = true) ->
  exists s',
    save_rollback_data s = (inr tt, s')
    /\ self s' = self s
    /\ w_fs (world s') = <[f := File (Doc doc)]> (w_fs (world s))
    /\ forall r : state rollback_duplicates.DuplicateRollback,
         no_faults (world r) ->
         w_fs (world r) = w_fs (world s') ->
         rollback_duplicates.load_rollback_data f r = (inr (Some doc), r)
         /\ ledger.ledger_items (world r) f
            = Some (map asdict (rollback_entries (self s))).
Proof.
  intros f doc Hnf Hsome Hfile.
  unfold save_rollback_data. munfold.
  assert (Hguard : is_nil (rollback_entries (self s)) && negb (dry_run (self s))
                   = false).
  { destruct Hsome as [Hne| ->]; [|by rewrite andb_false_r].
    by destruct (rollback_entries (self s)). }
  rewrite Hguard. simpl.
  unfold write_json. simpl. rewrite Hnf.
  fold f. change (rollback_data (self s) _) with doc.
  rewrite write_file_plain by done. simpl.
  eexists. split; [reflexivity|]. split; [done|]. split; [done|].
  intros r Hrnf Hrfs. simpl in Hrfs.
  assert (Hread : read_json (world r) f = inr doc).
  { unfold read_json. rewrite Hrnf, Hrfs.
    by rewrite (resolve_file _ f (Doc doc)) by (by rewrite lookup_insert_eq). }
  split.
  - rewrite rollback_proofs.load_rollback_data_spec.
    unfold path_exists. rewrite Hrnf, Hrfs.
    rewrite (resolve_file _ f (Doc doc)) by (by rewrite lookup_insert_eq).
    by rewrite Hread.
  - unfold ledger.ledger_items. by rewrite Hread.
Qed.

Lemma saved_ledger_loads_witness :
  let s := Examples.dry_session in
  exists s',
    save_rollback_data s = (inr tt, s')
    /\ ledger.ledger_items
         (world (Examples.later_rollback (w_fs (world s'))))
         (rollback_file (self s)) = Some [].
Proof.
  intros s.
  destruct (saved_ledger_loads s) as (s' & Hs & _ & _ & Hload).
  - intros c p. vm_compute; reflexivity.
  - right. vm_compute; reflexivity.
  - right. split; vm_compute; reflexivity.
  - exists s'. split; [exact Hs|].
    destruct (Hload (Examples.later_rollback (w_fs (world s')))) as [_ Hit].
    + apply later_rollback_no_faults.
    + apply later_rollback_fs.
    + rewrite Hit. vm_compute; reflexivity.
Defined.

End round_trip.

(** * Reading the table *)

Module csv_proofs.

Import duplicate_executor csv_input.

Section Reader.

Variable strip : string -> string.
Variable csv_rows : World -> string -> list (list string) * option exn.

Lemma add_total_rows_0 s :
  mkState (add_total_rows 0 (self s)) (world s) = s.
Proof. by destruct s as [[? ? [] ? ? ? ? ?] ?]. Qed.

Lemma add_total_rows_S n x :
  add_total_rows n (set_stats incr_total_rows x) = add_total_rows (S n) x.
Proof.
  unfold add_total_rows, set_stats, incr_total_rows. simpl.
  by rewrite Nat.add_succ_r.
Qed.

(** The loop builds the accepted entries, in the order of the rows, and
    counts each of them in [total_rows]. *)
Lemma parse_rows_accepted rows : forall row_num acc s,
  parse_rows strip row_num rows acc s
  = (inr (acc ++ accepted strip row_num rows)%list,
     mkState (add_total_rows (length (accepted strip row_num rows)) (self s))
       (world s)).
Proof.
  induction rows as [|row rest IH]; intros row_num acc s; simpl.
  - unfold ret. by rewrite app_nil_r, add_total_rows_0.
  - unfold passed_over.
    destruct (Nat.leb row_num 2); simpl; [apply IH|].
    destruct (negb (py_any row) || Nat.ltb (length row) 10); simpl; [apply IH|].
    cbv [bind modify_self]. rewrite IH. simpl.
    by rewrite <- app_assoc, add_total_rows_S.
Qed.

Lemma accepted_In rows : forall row_num e,
  In e (accepted strip row_num rows) <->
  exists i row,
    nth_error rows i = Some row
    /\ passed_over (row_num + i) row = false
    /\ e = entry_of_row strip (row_num + i) row.
Proof.
  induction rows as [|row rest IH]; intros row_num e; simpl.
  - split; [done|]. intros (i & row & H & _). by destruct i.
  - rewrite in_app_iff, IH. split.
    + intros [H|(i & r & Hn & Hp & He)].
      * destruct (passed_over row_num row) eqn:Hp; [done|].
        destruct H as [<-|[]]. exists 0, row. by rewrite Nat.add_0_r.
      * exists (S i), r. by rewrite Nat.add_succ_r.
    + intros ([|i] & r & Hn & Hp & He); simpl in Hn.
      * left. simplify_eq. rewrite Nat.add_0_r in *. rewrite Hp. by left.
      * right. exists i, r. by rewrite Nat.add_succ_r in *.
Qed.

Lemma passed_over_false row_num row :
  passed_over row_num row = false <->
  2 < row_num /\ py_any row = true /\ 10 <= length row.
Proof.
  unfold passed_over. rewrite !orb_false_iff, negb_false_iff.
  rewrite Nat.leb_gt, Nat.ltb_ge. tauto.
Qed.

Lemma accepted_row_nums rows : forall n,
  Forall (fun e => n <= duplicate_executor.row_num e) (accepted strip n rows)
  /\ StronglySorted lt
       (map duplicate_executor.row_num (accepted strip n rows)).
Proof.
  induction rows as [|row rest IH]; intros n; simpl.
  - split; constructor.
  - destruct (IH (S n)) as [Hge Hs].
    assert (Hge' : Forall (fun e => n <= duplicate_executor.row_num e)
                     (accepted strip (S n) rest))
      by (eapply Forall_impl; [exact Hge|]; simpl; intros; lia).
    destruct (passed_over n row); simpl; [done|].
    split; [constructor; [simpl; lia|done]|].
    constructor; [done|]. apply Forall_map. simpl.
    eapply Forall_impl; [exact Hge|]. simpl. intros. lia.
Qed.

(** What the loop returns, in the words of the table. *)
Lemma accepted_spec rows :
  (forall e,
     In e (accepted strip 1 rows) <->
     exists i row,
       nth_error rows i = Some row
       /\ 2 < S i /\ py_any row = true /\ 10 <= length row
       /\ e = entry_of_row strip (S i) row)
  /\ StronglySorted lt (map duplicate_executor.row_num (accepted strip 1 rows)).
Proof.
  split; [|apply accepted_row_nums].
  intros e. rewrite accepted_In. split.
  - intros (i & row & Hn & Hp & He). exists i, row. simpl in *.
    apply passed_over_false in Hp as (H2 & Ha & Hl). auto.
  - intros (i & row & Hn & H2 & Ha & Hl & He). exists i, row. simpl.
    split; [done|]. split; [|done]. by apply passed_over_false.
Qed.

(** X19.  The table that can be read.  The entries [parse_csv_file]
    returns are the rows from the third on that have a non-empty cell and
    at least ten columns, each with the number of its row in the file, in
    the order of the file; [total_rows] grows by their number, and nothing
    else changes. *)
Theorem table_rows_become_entries
    (csv_file : string) (rows : list (list string))
    (s : state DuplicateFileExecutor) :
  path_exists (world s) csv_file = inr true ->
  csv_rows (world s) csv_file = (rows, None) ->
  exists es s',
    parse_csv_file strip csv_rows csv_file s = (inr es, s')
    /\ world s' = world s
    /\ rollback_entries (self s') = rollback_entries (self s)
    /\ total_rows (stats (self s')) = total_rows (stats (self s)) + length es
    /\ (forall e,
          In e es <->
          exists i row,
            nth_error rows i = Some row
            /\ 2 < S i /\ py_any row = true /\ 10 <= length row
            /\ e = entry_of_row strip (S i) row)
    /\ StronglySorted lt (map duplicate_executor.row_num es).
Proof.
  intros Hx Hr. unfold parse_csv_file. cbv [bind query ret].
  rewrite Hx. simpl. rewrite Hr. simpl. rewrite parse_rows_accepted. simpl.
  eexists _, _. split; [reflexivity|]. simpl.
  split; [done|]. split; [done|]. split; [lia|]. apply accepted_spec.
Qed.

(** X20.  The table that cannot be read.  A missing file gives the empty
    list and changes nothing.  A reading that ends on an exception gives
    the empty list too, but the rows accepted before the exception stay
    counted in [total_rows]. *)
Theorem unreadable_table_gives_no_entries
    (csv_file : string) (s : state DuplicateFileExecutor) :
  (path_exists (world s) csv_file = inr false ->
   parse_csv_file strip csv_rows csv_file s = (inr [], s))
  /\ (forall rows e,
        path_exists (world s) csv_file = inr true ->
        csv_rows (world s) csv_file = (rows, Some e) ->
        exists es s',
          parse_csv_file strip csv_rows csv_file s = (inr [], s')
          /\ world s' = world s
          /\ total_rows (stats (self s'))
             = total_rows (stats (self s)) + length es
          /\ (forall e,
                In e es <->
                exists i row,
                  nth_error rows i = Some row
                  /\ 2 < S i /\ py_any row = true /\ 10 <= length row
                  /\ e = entry_of_row strip (S i) row)).
Proof.
  unfold parse_csv_file. cbv [bind query ret]. split.
  - intros Hx. by rewrite Hx.
  - intros rows e Hx Hr. rewrite Hx. simpl. rewrite Hr. simpl.
    rewrite parse_rows_accepted. simpl.
    exists (accepted strip 1 rows). eexists. split; [reflexivity|]. simpl.
    split; [done|]. split; [lia|]. apply accepted_spec.
Qed.

End Reader.

Lemma table_rows_become_entries_witness :
  exists es s',
    parse_csv_file Examples.no_strip Examples.read_table "/a/x.txt"
      Examples.real_session = (inr es, s')
    /\ world s' = world Examples.real_session
    /\ In (entry_of_row Examples.no_strip 4
             [""; "/a"; "x.txt"; "/b"; "x.txt"; "1"; "h"; ""; "";
              "DELETE_DUPLICATE"; ""]) es.
Proof.
  destruct (table_rows_become_entries Examples.no_strip Examples.read_table
              "/a/x.txt" Examples.table Examples.real_session)
    as (es & s' & Hp & Hw & _ & _ & Hin & _).
  - vm_compute; reflexivity.
  - reflexivity.
  - exists es, s'. split; [exact Hp|]. split; [exact Hw|].
    apply Hin. exists 3. eexists. split; [reflexivity|].
    split; [lia|]. split; [reflexivity|]. split; [simpl; lia|reflexivity].
Defined.

Lemma unreadable_table_gives_no_entries_witness :
  exists s',
    parse_csv_file Examples.no_strip Examples.read_broken_table "/a/x.txt"
      Examples.real_session = (inr [], s')
    /\ world s' = world Examples.real_session.
Proof.
  destruct (proj2 (unreadable_table_gives_no_entries Examples.no_strip
                     Examples.read_broken_table "/a/x.txt"
                     Examples.real_session)
              Examples.table ValueError)
    as (es & s' & Hp & Hw & _).
  - vm_compute; reflexivity.
  - reflexivity.
  - exists s'. split; [exact Hp | exact Hw].
Defined.

End csv_proofs.
